(** * The Lutris installer (lutris/installer/installer.py)

    A shallow embedding of the [LutrisInstaller] class: identity
    resolution, service binding, script validation, file planning,
    configuration composition and persistence. *)

From Stdlib Require Import ZArith Ascii String DecimalString.
From stdpp Require Import base option list strings gmap.

Set Warnings "-register-all".

Local Open Scope string_scope.
Local Open Scope Z_scope.

(** ** Python values *)

Module Py.

(** The values an install script (parsed YAML/JSON) is made of.  A dict is
    an association list in insertion order, as Python dicts iterate.
    Floats do not occur in the methods modelled here. *)
Inductive PyVal : Type :=
| PNone
| PBool (b : bool)
| PInt (z : Z)
| PStr (s : string)
| PList (l : list PyVal)
| PDict (d : list (PyVal * PyVal)).

(** The exceptions the methods raise or let through.  [ExternalError] is
    an exception of a collaborator -- a failed write to the configuration
    files or to the games table, a runner that cannot be imported -- which
    no method of the class catches. *)
Inductive exn : Type :=
| KeyError
| AttributeError
| TypeError
| ValueError
| ScriptingError
| AuthenticationError
| ExternalError (name : string).

Inductive result (A : Type) : Type :=
| Ok (a : A)
| Raise (e : exn).
Arguments Ok {A} a.
Arguments Raise {A} e.

Definition rbind {A B} (r : result A) (k : A -> result B) : result B :=
  match r with
  | Ok a => k a
  | Raise e => Raise e
  end.

(** [bool(v)] *)
Definition truthy (v : PyVal) : bool :=
  match v with
  | PNone => false
  | PBool b => b
  | PInt z => negb (z =? 0)
  | PStr s => negb (String.eqb s "")
  | PList l => match l with [] => false | _ => true end
  | PDict d => match d with [] => false | _ => true end
  end.

(** [a or b] returns one of its operands. *)
Definition py_or (a b : PyVal) : PyVal := if truthy a then a else b.

Definition is_dict (v : PyVal) : bool :=
  match v with PDict _ => true | _ => false end.
Definition is_list (v : PyVal) : bool :=
  match v with PList _ => true | _ => false end.
Definition is_str (v : PyVal) : bool :=
  match v with PStr _ => true | _ => false end.
Definition is_bool (v : PyVal) : bool :=
  match v with PBool _ => true | _ => false end.

(** Lists and dicts are unhashable: using one as a key raises TypeError. *)
Definition hashable (v : PyVal) : bool :=
  match v with
  | PList _ | PDict _ => false
  | _ => true
  end.

(** Equality of hashable values as dict keys compare them: [True == 1]
    and [False == 0]. *)
Definition key_eq (a b : PyVal) : bool :=
  match a, b with
  | PNone, PNone => true
  | PBool x, PBool y => Bool.eqb x y
  | PBool x, PInt y | PInt y, PBool x => y =? (if x then 1 else 0)
  | PInt x, PInt y => x =? y
  | PStr x, PStr y => String.eqb x y
  | _, _ => false
  end.

(** [v == "lit"] for a string literal. *)
Definition eq_str (v : PyVal) (lit : string) : bool :=
  match v with PStr s => String.eqb s lit | _ => false end.

Fixpoint assoc (k : PyVal) (d : list (PyVal * PyVal)) : option PyVal :=
  match d with
  | [] => None
  | (k', v) :: d' => if key_eq k k' then Some v else assoc k d'
  end.

(** [d[k] = v] on a dict: replaces in place or appends. *)
Fixpoint assoc_set (k v : PyVal) (d : list (PyVal * PyVal)) : list (PyVal * PyVal) :=
  match d with
  | [] => [(k, v)]
  | (k', v') :: d' =>
      if key_eq k k' then (k', v) :: d' else (k', v') :: assoc_set k v d'
  end.

(** [k in d] for a dict [d]. *)
Definition dict_contains (k : PyVal) (d : list (PyVal * PyVal)) : result bool :=
  if hashable k then Ok (bool_decide (is_Some (assoc k d))) else Raise TypeError.

(** [d[k]] for a dict [d]. *)
Definition dict_getitem (k : PyVal) (d : list (PyVal * PyVal)) : result PyVal :=
  if hashable k then
    match assoc k d with Some v => Ok v | None => Raise KeyError end
  else Raise TypeError.

(** [v.get(key, dflt)] with a string literal key: only dicts have
    [get]. *)
Definition py_get (v : PyVal) (key : string) (dflt : PyVal) : result PyVal :=
  match v with
  | PDict d => Ok (default dflt (assoc (PStr key) d))
  | _ => Raise AttributeError
  end.

(** [v[key]] with a string literal key.  Strings and lists index by
    integers only, the other values are not subscriptable: TypeError. *)
Definition py_getitem (v : PyVal) (key : string) : result PyVal :=
  match v with
  | PDict d => match assoc (PStr key) d with Some x => Ok x | None => Raise KeyError end
  | _ => Raise TypeError
  end.

(** Substring test. *)
Fixpoint contains (needle hay : string) : bool :=
  String.prefix needle hay
  || match hay with
     | EmptyString => false
     | String _ hay' => contains needle hay'
     end.

(** ["lit" in v]: substring of a string, element of a list, key of a dict;
    the other values are not iterable. *)
Definition str_in (lit : string) (v : PyVal) : result bool :=
  match v with
  | PStr s => Ok (contains lit s)
  | PList l => Ok (existsb (fun x => eq_str x lit) l)
  | PDict d => Ok (bool_decide (is_Some (assoc (PStr lit) d)))
  | _ => Raise TypeError
  end.

(** [str.lower()] on the ASCII letters; other characters are kept (no
    character outside ASCII lowers to a letter of "true" or "false"). *)
Definition lower_ascii (c : ascii) : ascii :=
  let n := Ascii.N_of_ascii c in
  if ((65 <=? n) && (n <=? 90))%N then Ascii.ascii_of_N (n + 32) else c.

Fixpoint lower (s : string) : string :=
  match s with
  | EmptyString => EmptyString
  | String c s' => String (lower_ascii c) (lower s')
  end.

Definition join_with (sep : string) (l : list string) : string :=
  match l with
  | [] => ""
  | x :: l' => fold_left (fun acc y => acc +:+ sep +:+ y) l' x
  end.

(** [str(v)].  Inside a list or dict Python prints [repr] of the
    elements, which quotes strings; the escaping of quotes inside such
    strings is not modelled. *)
Fixpoint py_repr (v : PyVal) : string :=
  match v with
  | PNone => "None"
  | PBool true => "True"
  | PBool false => "False"
  | PInt z => NilZero.string_of_int (Z.to_int z)
  | PStr s => "'" +:+ s +:+ "'"
  | PList l => "[" +:+ join_with ", " (map py_repr l) +:+ "]"
  | PDict d =>
      "{" +:+ join_with ", "
                (map (fun kv => py_repr (fst kv) +:+ ": " +:+ py_repr (snd kv)) d)
          +:+ "}"
  end.

Definition py_str (v : PyVal) : string :=
  match v with
  | PStr s => s
  | _ => py_repr v
  end.


(** [for x in v]: the elements of a list, the keys of a dict, the
    characters of a string; the other values are not iterable. *)
Fixpoint chars (s : string) : list PyVal :=
  match s with
  | EmptyString => []
  | String c s' => PStr (String c EmptyString) :: chars s'
  end.

Definition py_iter (v : PyVal) : result (list PyVal) :=
  match v with
  | PList l => Ok l
  | PDict d => Ok (map fst d)
  | PStr s => Ok (chars s)
  | _ => Raise TypeError
  end.

(** [v.items()]: only dicts have it. *)
Definition py_items (v : PyVal) : result (list (PyVal * PyVal)) :=
  match v with
  | PDict d => Ok d
  | _ => Raise AttributeError
  end.

(** [v.lower()]: only strings have it. *)
Definition py_lower (v : PyVal) : result string :=
  match v with
  | PStr s => Ok (lower s)
  | _ => Raise AttributeError
  end.

(** One element of the sequence given to [dict.update]: it must itself
    be a sequence of length two, whose first element is hashable. *)
Definition update_pair (e : PyVal) : result (PyVal * PyVal) :=
  match py_iter e with
  | Raise x => Raise x
  | Ok [k; v] => if hashable k then Ok (k, v) else Raise TypeError
  | Ok _ => Raise ValueError
  end.

Fixpoint update_seq (d : list (PyVal * PyVal)) (l : list PyVal)
  : result (list (PyVal * PyVal)) :=
  match l with
  | [] => Ok d
  | e :: l' =>
      match update_pair e with
      | Ok (k, v) => update_seq (assoc_set k v d) l'
      | Raise x => Raise x
      end
  end.

(** [d.update(other)]: a mapping is merged key by key (the argument
    wins); any other iterable is read as a sequence of pairs. *)
Definition py_update (d : list (PyVal * PyVal)) (other : PyVal)
  : result (list (PyVal * PyVal)) :=
  match other with
  | PDict o => Ok (fold_left (fun acc kv => assoc_set (fst kv) (snd kv) acc) o d)
  | _ => rbind (py_iter other) (update_seq d)
  end.

(** [os.path.join(a, b)] on POSIX paths; both arguments must be strings. *)
Definition ends_with_slash (s : string) : bool :=
  match String.get (String.length s - 1) s with
  | Some c => Ascii.eqb c "/"%char
  | None => false
  end.

Definition path_join_str (a b : string) : string :=
  if String.prefix "/" b then b
  else if String.eqb a "" || ends_with_slash a then a +:+ b
  else a +:+ "/" +:+ b.

Definition path_join (a b : PyVal) : result string :=
  match a, b with
  | PStr x, PStr y => Ok (path_join_str x y)
  | _, _ => Raise TypeError
  end.

End Py.
Export Py.

(** ** Data model *)

(** Objects of class [InstallerFile] live in a heap and are referred to
    by address: the installer keeps lists of references, and
    [set_url] updates the object a reference points to. *)
Definition loc := nat.

(** Modelled from the spec: the [InstallerFile] class
    (lutris.installer.installer_file) is not among the sources.  Per the
    data model a file carries a stable id, its declared URL and its
    destination filename; the constructor reads URL and filename from the
    file's mapping (a bare value is the URL), [copy] makes a new object
    and [set_url] rewrites the URL of the object it is called on. *)
Record InstallerFile : Type := mkFile {
  f_game_slug : PyVal;
  f_id : string;
  f_url : string;
  f_filename : string
}.

Definition InstallerFile_new (game_slug file_id file_meta : PyVal) : InstallerFile :=
  match file_meta with
  | PDict d =>
      mkFile game_slug (py_str file_id)
             (py_str (default (PStr "") (assoc (PStr "url") d)))
             (py_str (default (PStr "") (assoc (PStr "filename") d)))
  | _ => mkFile game_slug (py_str file_id) (py_str file_meta) ""
  end.

Definition set_url (f : InstallerFile) (url : PyVal) : InstallerFile :=
  mkFile (f_game_slug f) (f_id f) (py_str url) (f_filename f).

#[global] Instance InstallerFile_inhabited : Inhabited InstallerFile :=
  populate (mkFile PNone "" "" "").

(** An acquisition provider bound to the install ([lutris.services]):
    the attributes the installer reads or writes. *)
Record Service : Type := mkService {
  svc_id : string;
  svc_online : bool;
  svc_has_extras : bool;
  svc_selected_extras : PyVal
}.

(** The script interpreter that owns the installer: the attributes the
    installer reads. *)
Record Interpreter : Type := mkInterpreter {
  extras : PyVal;
  game_files : list (PyVal * PyVal);
  target_path : PyVal
}.

(** The attributes of a [LutrisInstaller], in the order [__init__]
    assigns them. *)
Record LutrisInstaller : Type := mkInstaller {
  interpreter : Interpreter;
  installer : PyVal;
  is_update : bool;
  version : PyVal;
  slug : PyVal;
  year : PyVal;
  runner : PyVal;
  script : PyVal;
  game_name : PyVal;
  game_slug : PyVal;
  service : option Service;
  service_appid : PyVal;
  variables : PyVal;
  script_files : list loc;
  files : list loc;
  requires : PyVal;
  extends : PyVal;
  game_id : option Z;
  is_gog : bool;
  discord_id : PyVal
}.

Definition set_service (s : option Service) (i : LutrisInstaller) : LutrisInstaller :=
  mkInstaller (interpreter i) (installer i) (is_update i) (version i) (slug i)
    (year i) (runner i) (script i) (game_name i) (game_slug i) s
    (service_appid i) (variables i) (script_files i) (files i) (requires i)
    (extends i) (game_id i) (is_gog i) (discord_id i).

Definition set_script (s : PyVal) (i : LutrisInstaller) : LutrisInstaller :=
  mkInstaller (interpreter i) (installer i) (is_update i) (version i) (slug i)
    (year i) (runner i) s (game_name i) (game_slug i) (service i)
    (service_appid i) (variables i) (script_files i) (files i) (requires i)
    (extends i) (game_id i) (is_gog i) (discord_id i).

Definition set_installer (d : PyVal) (i : LutrisInstaller) : LutrisInstaller :=
  mkInstaller (interpreter i) d (is_update i) (version i) (slug i)
    (year i) (runner i) (script i) (game_name i) (game_slug i) (service i)
    (service_appid i) (variables i) (script_files i) (files i) (requires i)
    (extends i) (game_id i) (is_gog i) (discord_id i).

Definition set_files (l : list loc) (i : LutrisInstaller) : LutrisInstaller :=
  mkInstaller (interpreter i) (installer i) (is_update i) (version i) (slug i)
    (year i) (runner i) (script i) (game_name i) (game_slug i) (service i)
    (service_appid i) (variables i) (script_files i) l (requires i)
    (extends i) (game_id i) (is_gog i) (discord_id i).

Definition set_game_id (g : option Z) (i : LutrisInstaller) : LutrisInstaller :=
  mkInstaller (interpreter i) (installer i) (is_update i) (version i) (slug i)
    (year i) (runner i) (script i) (game_name i) (game_slug i) (service i)
    (service_appid i) (variables i) (script_files i) (files i) (requires i)
    (extends i) g (is_gog i) (discord_id i).

(** A row of the games table, as [get_game_by_field] returns it. *)
Record GameRow : Type := mkRow {
  row_id : Z;
  row_installed : PyVal;
  row_configpath : PyVal
}.

(** The keyword arguments of [add_or_update] in [save]. *)
Record GameFields : Type := mkFields {
  gf_name : PyVal;
  gf_runner : PyVal;
  gf_slug : PyVal;
  gf_platform : PyVal;
  gf_directory : PyVal;
  gf_installed : Z;
  gf_hidden : Z;
  gf_installer_slug : PyVal;
  gf_parent_slug : PyVal;
  gf_year : PyVal;
  gf_configpath : PyVal;
  gf_service : option string;
  gf_service_id : PyVal;
  gf_id : option Z;
  gf_discord_id : PyVal
}.

(** What the installer does to the outside, in order. *)
Inductive Event : Type :=
| EvLog (msg : string)
| EvStoreLookup (value : PyVal) (field : string)
| EvLoadConfig (runner_slug config_id : PyVal)
| EvIsConnected (sid : string)
| EvGetPatchFiles (sid fid : string)
| EvGetInstallerFiles (sid fid : string) (selected : PyVal)
| EvModdbResolve (url : string)
| EvFindLinuxExecutable (path : PyVal)
| EvFindWindowsExecutable (path : PyVal)
| EvReadGogConfig (path : PyVal)
| EvWriteConfig (slug config : PyVal)
| EvUpsert (fields : GameFields).

(** The collaborators of the installer that are outside this module: the
    games table and configuration files, the service registry and the
    providers, the interpreter's substitution, the moddb helper, the
    legacy launcher lookup, the runner registry and the filesystem.  The
    two writes and the import of a runner give the exception they raise
    when they fail. *)
Class External : Type := {
  Store : Type;
  get_game_by_field : Store -> PyVal -> string -> option GameRow;
  load_game_level : Store -> PyVal -> PyVal -> list (PyVal * PyVal);
  write_game_config : Store -> PyVal -> PyVal -> result PyVal * Store;
  add_or_update : Store -> GameFields -> result Z * Store;
  SERVICES : string -> option Service;
  is_connected : Service -> bool;
  get_patch_files : Service -> LutrisInstaller -> string -> option (list InstallerFile);
  get_installer_files :
    Service -> LutrisInstaller -> string -> PyVal -> option (list InstallerFile);
  substitute : Interpreter -> PyVal -> PyVal;
  is_moddb_url : string -> bool;
  get_moddb_download_url : string -> string;
  get_game_launcher : PyVal -> PyVal * PyVal;
  path_exists : string -> bool;
  AUTO_ELF_EXE : string;
  AUTO_WIN32_EXE : string;
  find_linux_game_executable : PyVal -> PyVal;
  find_windows_game_executable : PyVal -> PyVal;
  get_gog_config_from_path : PyVal -> PyVal;
  get_gog_game_path : PyVal -> PyVal;
  convert_gog_config_to_lutris : PyVal -> PyVal -> PyVal;
  runner_platform : PyVal -> result PyVal
}.

(** ** State and effects *)

(** Everything outside the installer object: the heap of file objects,
    the persistent store, and the calls made so far. *)
Record World `{External} : Type := mkWorld {
  w_heap : gmap loc InstallerFile;
  w_store : Store;
  w_trace : list Event
}.
Arguments mkWorld {_} _ _ _.

Record State `{External} : Type := mkState {
  st_self : LutrisInstaller;
  st_world : World
}.
Arguments mkState {_} _ _.

(** A computation reads and updates a state and returns a value or raises;
    what it changed before raising stays changed. *)
Definition M (S A : Type) : Type := S -> result A * S.

Definition ret {S A} (a : A) : M S A := fun s => (Ok a, s).
Definition raise {S A} (e : exn) : M S A := fun s => (Raise e, s).
Definition bind {S A B} (m : M S A) (k : A -> M S B) : M S B :=
  fun s => match m s with
           | (Ok a, s') => k a s'
           | (Raise e, s') => (Raise e, s')
           end.
Definition lift {S A} (r : result A) : M S A := fun s => (r, s).
Definition gets {S A} (f : S -> A) : M S A := fun s => (Ok (f s), s).
Definition modify {S} (f : S -> S) : M S unit := fun s => (Ok tt, f s).

Declare Scope py_scope.
Delimit Scope py_scope with py.
Notation "'let*' x ':=' m 'in' k" := (bind m (fun x => k))
  (at level 10, x name, m at level 100, k at level 200, only parsing) : py_scope.
Notation "'do*' m 'in' k" := (bind m (fun _ => k))
  (at level 10, m at level 100, k at level 200, only parsing) : py_scope.
Notation "'let+' x ':=' r 'in' k" := (rbind r (fun x => k))
  (at level 10, x name, r at level 100, k at level 200, only parsing) : py_scope.
Local Open Scope py_scope.

Fixpoint mapR {A B} (f : A -> result B) (l : list A) : result (list B) :=
  match l with
  | [] => Ok []
  | x :: l' =>
      let+ y := f x in
      let+ ys := mapR f l' in
      Ok (y :: ys)
  end.

(** ** The methods of [LutrisInstaller] *)

Section Installer.
Context `{External}.

Definition emit (e : Event) : M World unit :=
  modify (fun w => mkWorld (w_heap w) (w_store w) (w_trace w ++ [e])%list).

(** A new object gets an address no live object has. *)
Definition alloc (f : InstallerFile) : M World loc :=
  fun w =>
    let l := fresh (dom (w_heap w)) in
    (Ok l, mkWorld (<[l := f]> (w_heap w)) (w_store w) (w_trace w)).

Definition load (l : loc) : M World InstallerFile :=
  gets (fun w => w_heap w !!! l).

Definition store_file (l : loc) (f : InstallerFile) : M World unit :=
  modify (fun w => mkWorld (<[l := f]> (w_heap w)) (w_store w) (w_trace w)).

Definition in_world {A} (m : M World A) : M State A :=
  fun st => let (r, w) := m (st_world st) in (r, mkState (st_self st) w).

Definition self : M State LutrisInstaller := gets st_self.

Definition update_self (f : LutrisInstaller -> LutrisInstaller) : M State unit :=
  modify (fun st => mkState (f (st_self st)) (st_world st)).

Definition registered (name : string) : bool :=
  bool_decide (is_Some (SERVICES name)).

(** [get_service(initial)] *)
Definition get_service (self : LutrisInstaller) (initial : option Service)
  : result (option Service) :=
  match initial with
  | Some s => Ok (Some s)
  | None =>
      let+ steam := str_in "steam" (runner self) in
      if steam && registered "steam" then Ok (SERVICES "steam")
      else
        let+ version := py_lower (version self) in
        if contains "humble" version && registered "humblebundle"
        then Ok (SERVICES "humblebundle")
        else if contains "gog" version && registered "gog"
        then Ok (SERVICES "gog")
        else Ok None
  end.

(** [a or b], where [b] is only evaluated when [a] is falsy. *)
Definition or_else (a : result PyVal) (b : result PyVal) : result PyVal :=
  let+ x := a in
  if truthy x then Ok x else b.

(** [get_appid(installer, initial)] *)
Definition get_appid (self : LutrisInstaller) (installer initial : PyVal)
  : result PyVal :=
  let+ is_dlc := py_get installer "is_dlc" PNone in
  if truthy is_dlc then py_get installer "dlcid" PNone
  else if truthy initial then Ok initial
  else
    match service self with
    | None => Ok PNone
    | Some svc =>
        if String.eqb (svc_id svc) "steam" then
          or_else (py_get installer "steamid" PNone)
                  (py_get installer "service_id" PNone)
        else
          let+ game_config := py_get (script self) "game" (PDict []) in
          if String.eqb (svc_id svc) "gog" then
            or_else (py_get game_config "gogid" PNone)
              (or_else (py_get installer "gogid" PNone)
                       (py_get installer "service_id" PNone))
          else if String.eqb (svc_id svc) "humblebundle" then
            or_else (py_get game_config "humbleid" PNone)
              (or_else (py_get installer "humblestoreid" PNone)
                       (py_get installer "service_id" PNone))
          else Ok PNone
    end.

(** [get_game_id()]: one lookup in the games table; [None] is Python's
    [None], returned when the function falls off its end. *)
Definition get_game_id (self : LutrisInstaller) : M World (option Z) :=
  do* emit (EvStoreLookup (game_slug self) "slug") in
  let* existing_game :=
    gets (fun w => get_game_by_field (w_store w) (game_slug self) "slug") in
  match existing_game with
  | Some row =>
      if truthy (extends self) || negb (truthy (row_installed row))
      then ret (Some (row_id row))
      else ret None
  | None => ret None
  end.

(** [get_errors()].  The three attributes it checks always exist once the
    constructor has run, so [hasattr] holds. *)
Definition missing_field (name : string) (v : PyVal) : list string :=
  if negb (truthy v) then ["Missing field '" +:+ name +:+ "'"] else [].

(** [errors.append(msg)] *)
Definition append (errors : list string) (msg : string) : list string :=
  (errors ++ [msg])%list.

Definition check_libretro (self : LutrisInstaller) (errors : list string)
  : result (list string) :=
  if eq_str (runner self) "libretro" then
    let+ has_game := str_in "game" (script self) in
    if negb has_game then Ok (append errors "Missing libretro core in game section")
    else
      let+ game := py_getitem (script self) "game" in
      let+ has_core := str_in "core" game in
      if negb has_core
      then Ok (append errors "Missing libretro core in game section")
      else Ok errors
  else Ok errors.

Definition check_steam (self : LutrisInstaller) (errors : list string)
  : result (list string) :=
  if eq_str (runner self) "steam" then
    let+ game := py_get (script self) "game" (PDict []) in
    let+ appid := py_get game "appid" PNone in
    if negb (truthy appid)
    then Ok (append errors "Missing appid for Steam game")
    else Ok errors
  else Ok errors.

Definition check_requires_extends (self : LutrisInstaller) (errors : list string)
  : result (list string) :=
  let+ requires := py_get (script self) "requires" PNone in
  if truthy requires then
    let+ extends := py_get (script self) "extends" PNone in
    if truthy extends
    then Ok (append errors "Scripts can't have both extends and requires")
    else Ok errors
  else Ok errors.

Definition get_errors (self : LutrisInstaller) : result (list string) :=
  if negb (is_dict (script self)) then Ok ["Script must be a dictionary"]
  else
    let errors := (missing_field "runner" (runner self)
                   ++ missing_field "game_name" (game_name self)
                   ++ missing_field "game_slug" (game_slug self))%list in
    let+ errors := check_libretro self errors in
    let+ errors := check_steam self errors in
    check_requires_extends self errors.

(** [get_user_provided_file()]: the id of the first declared file whose
    URL starts with "N/A". *)
Fixpoint first_user_provided (h : gmap loc InstallerFile) (l : list loc)
  : option string :=
  match l with
  | [] => None
  | r :: l' =>
      let file := h !!! r in
      if String.prefix "N/A" (f_url file) then Some (f_id file)
      else first_user_provided h l'
  end.

Definition get_user_provided_file (self : LutrisInstaller) : M World (option string) :=
  gets (fun w => first_user_provided (w_heap w) (script_files self)).

(** [[file.copy() for file in self.script_files if file.id != installer_file_id]] *)
Fixpoint copy_files (installer_file_id : option string) (l : list loc)
  : M World (list loc) :=
  match l with
  | [] => ret []
  | r :: l' =>
      let* file := load r in
      if bool_decide (installer_file_id = Some (f_id file))
      then copy_files installer_file_id l'
      else
        let* c := alloc file in
        let* cs := copy_files installer_file_id l' in
        ret (c :: cs)
  end.

(** One turn of the loop that rewrites the URLs of the working list. *)
Definition substitute_url (interp : Interpreter) (r : loc) : M World unit :=
  let* file := load r in
  do* store_file r (set_url file (substitute interp (PStr (f_url file)))) in
  let* file := load r in
  if is_moddb_url (f_url file) then
    do* emit (EvModdbResolve (f_url file)) in
    store_file r (set_url file (PStr (get_moddb_download_url (f_url file))))
  else ret tt.

Fixpoint substitute_urls (interp : Interpreter) (l : list loc) : M World unit :=
  match l with
  | [] => ret tt
  | r :: l' =>
      do* substitute_url interp r in
      substitute_urls interp l'
  end.

Fixpoint alloc_all (l : list InstallerFile) : M World (list loc) :=
  match l with
  | [] => ret []
  | f :: l' =>
      let* r := alloc f in
      let* rs := alloc_all l' in
      ret (r :: rs)
  end.

Definition manual_file (self : LutrisInstaller) (installer_file_id : string)
  : InstallerFile :=
  InstallerFile_new (game_slug self) (PStr installer_file_id)
    (PDict [(PStr "url", PStr "N/A: Provider installer file");
            (PStr "filename", PStr "")]).

(** [if self.service and self.service.online and not self.service.is_connected()] *)
Definition check_session (self : LutrisInstaller) : M World unit :=
  match service self with
  | Some svc =>
      if svc_online svc then
        do* emit (EvIsConnected (svc_id svc)) in
        if negb (is_connected svc) then raise AuthenticationError else ret tt
      else ret tt
  | None => ret tt
  end.

Definition select_extras (svc : Service) : M State unit :=
  if svc_has_extras svc then
    do* in_world (emit (EvLog "Adding selected extras to downloads")) in
    update_self (fun s =>
      set_service (Some (mkService (svc_id svc) (svc_online svc) (svc_has_extras svc)
                                   (extras (interpreter s)))) s)
  else ret tt.

Definition request_files (patch_version : PyVal) (installer_file_id : string)
    (svc : Service) : M State (option (list InstallerFile)) :=
  let* s := self in
  let svc := default svc (service s) in
  if truthy patch_version then
    do* in_world (emit (EvGetPatchFiles (svc_id svc) installer_file_id)) in
    ret (get_patch_files svc s installer_file_id)
  else
    do* in_world (emit (EvGetInstallerFiles (svc_id svc) installer_file_id
                                            (extras (interpreter s)))) in
    ret (get_installer_files svc s installer_file_id (extras (interpreter s))).

(** The part of [prepare_game_files] that asks the provider for the file
    that was held aside. *)
Definition fetch_service_files (patch_version : PyVal) (installer_file_id : string)
    (svc : Service) : M State unit :=
  do* in_world (emit (EvLog ("Getting files for " +:+ installer_file_id))) in
  do* select_extras svc in
  let* installer_files := request_files patch_version installer_file_id svc in
  match installer_files with
  | Some (f :: fs) =>
      let* rs := in_world (alloc_all (f :: fs)) in
      update_self (fun s => set_files (files s ++ rs)%list s)
  | _ =>
      do* in_world (emit (EvLog ("Unable to get files from service. Setting "
                                 +:+ installer_file_id +:+ " to manual."))) in
      let* s := self in
      let* r := in_world (alloc (manual_file s installer_file_id)) in
      update_self (fun s => set_files (r :: files s) s)
  end.

(** [prepare_game_files(patch_version)] *)
Definition prepare_game_files (patch_version : PyVal) : M State unit :=
  let* s := self in
  match script_files s with
  | [] => ret tt
  | _ =>
      do* in_world (check_session s) in
      let* installer_file_id :=
        match service s with
        | Some _ => in_world (get_user_provided_file s)
        | None => ret None
        end in
      let* copies := in_world (copy_files installer_file_id (script_files s)) in
      do* update_self (set_files copies) in
      do* in_world (substitute_urls (interpreter s) copies) in
      match installer_file_id, service s with
      | Some id, Some svc =>
          if negb (String.eqb id "") then fetch_service_files patch_version id svc
          else ret tt
      | _, _ => ret tt
      end
  end.

(** [{k: self.interpreter._substitute(v) for (k, v) in d.items()}] *)
Definition substitute_items (interp : Interpreter) (d : list (PyVal * PyVal)) : PyVal :=
  PDict (map (fun kv => (fst kv, substitute interp (snd kv))) d).

(** The "true"/"false" normalisation at the head of the loop body. *)
Definition normalize_bool (value : PyVal) : PyVal :=
  let value := if String.eqb (lower (py_str value)) "true" then PBool true else value in
  if String.eqb (lower (py_str value)) "false" then PBool false else value.

(** [script_config[key]] for a key that is a string: only a dict can be
    indexed by a string. *)
Definition subscript (v key : PyVal) : result PyVal :=
  match v with
  | PDict d => dict_getitem key d
  | _ => Raise TypeError
  end.

(** The value [config[key]] receives in one turn of the loop of
    [_substitute_config]. *)
Definition substitute_value (interp : Interpreter) (key value : PyVal) : result PyVal :=
  let value := normalize_bool value in
  if eq_str key "launch_configs" then
    let+ confs := py_iter value in
    let+ l := mapR (fun _conf =>
                      let+ items := py_items _conf in
                      Ok (substitute_items interp items)) confs in
    Ok (PList l)
  else
    match value with
    | PList l => Ok (PList (map (substitute interp) l))
    | PDict d => Ok (substitute_items interp d)
    | PBool _ => Ok value
    | _ => Ok (substitute interp value)
    end.

Fixpoint substitute_keys (interp : Interpreter) (script_config : PyVal)
    (keys : list PyVal) (config : list (PyVal * PyVal))
  : result (list (PyVal * PyVal)) :=
  match keys with
  | [] => Ok config
  | key :: keys' =>
      if negb (is_str key) then Raise ScriptingError
      else
        let+ value := subscript script_config key in
        let+ v := substitute_value interp key value in
        substitute_keys interp script_config keys' (assoc_set key v config)
  end.

(** [_substitute_config(script_config)] *)
Definition _substitute_config (self : LutrisInstaller) (script_config : PyVal)
  : result PyVal :=
  let+ keys := py_iter script_config in
  let+ config := substitute_keys (interpreter self) script_config keys [] in
  Ok (PDict config).

(** One turn of the loop over a list of launcher values. *)
Definition resolve_game_file (game_files : list (PyVal * PyVal)) (game_file : PyVal)
  : result PyVal :=
  let+ found := dict_contains game_file game_files in
  if found then dict_getitem game_file game_files else Ok game_file.

(** The branch of [get_game_launcher_config] for a single value. *)
Definition resolve_launcher_value (self : LutrisInstaller)
    (game_files : list (PyVal * PyVal)) (launcher_value : PyVal) : result PyVal :=
  if truthy launcher_value then
    let+ found := dict_contains launcher_value game_files in
    if found then dict_getitem launcher_value game_files
    else if truthy (target_path (interpreter self)) then
      let+ path := path_join (target_path (interpreter self)) launcher_value in
      if path_exists path then Ok (PStr path) else Ok launcher_value
    else Ok launcher_value
  else Ok launcher_value.

(** [get_game_launcher_config(game_files)] *)
Definition get_game_launcher_config (self : LutrisInstaller)
    (game_files : list (PyVal * PyVal)) : result (PyVal * PyVal) :=
  let (launcher, launcher_value) := get_game_launcher (script self) in
  match launcher_value with
  | PList l =>
      let+ launcher_values := mapR (resolve_game_file game_files) l in
      Ok (launcher, PList launcher_values)
  | _ =>
      let+ v := resolve_launcher_value self game_files launcher_value in
      Ok (launcher, v)
  end.

Definition lookup_game (value : PyVal) (field : string) : M World (option GameRow) :=
  do* emit (EvStoreLookup value field) in
  gets (fun w => get_game_by_field (w_store w) value field).

(** The configuration [get_game_config] starts from. *)
Definition base_config (self : LutrisInstaller) : M World (list (PyVal * PyVal)) :=
  if truthy (requires self) then
    let* by_installer := lookup_game (requires self) "installer_slug" in
    let* required_game :=
      match by_installer with
      | Some row => ret (Some row)
      | None => lookup_game (requires self) "slug"
      end in
    match required_game with
    | None => raise ValueError
    | Some row =>
        do* emit (EvLoadConfig (runner self) (row_configpath row)) in
        gets (fun w => load_game_level (w_store w) (runner self) (row_configpath row))
    end
  else ret [(PStr "game", PDict [])].

(** [config["game"][key] = value] *)
Definition set_game_key (config : list (PyVal * PyVal)) (key value : PyVal)
  : result (list (PyVal * PyVal)) :=
  let+ game := dict_getitem (PStr "game") config in
  match game with
  | PDict g =>
      if hashable key then Ok (assoc_set (PStr "game") (PDict (assoc_set key value g)) config)
      else Raise TypeError
  | _ => Raise TypeError
  end.

(** The [try] block of [get_game_config]: ValueError becomes a
    ScriptingError, anything else propagates. *)
Definition update_game (config : list (PyVal * PyVal)) (section : PyVal)
  : result (list (PyVal * PyVal)) :=
  let+ game := dict_getitem (PStr "game") config in
  match game with
  | PDict g =>
      match py_update g section with
      | Ok g' => Ok (assoc_set (PStr "game") (PDict g') config)
      | Raise ValueError => Raise ScriptingError
      | Raise e => Raise e
      end
  | _ => Raise AttributeError
  end.

Definition auto_exe (self : LutrisInstaller) (config : list (PyVal * PyVal))
  : M World (list (PyVal * PyVal)) :=
  let* game := lift (dict_getitem (PStr "game") config) in
  let* exe := lift (py_get game "exe" (PStr "")) in
  let* elf := lift (str_in AUTO_ELF_EXE exe) in
  if elf then
    do* emit (EvFindLinuxExecutable (target_path (interpreter self))) in
    lift (set_game_key config (PStr "exe")
            (find_linux_game_executable (target_path (interpreter self))))
  else
    let* win := lift (str_in AUTO_WIN32_EXE exe) in
    if win then
      do* emit (EvFindWindowsExecutable (target_path (interpreter self))) in
      lift (set_game_key config (PStr "exe")
              (find_windows_game_executable (target_path (interpreter self))))
    else ret config.

Definition stamp (self : LutrisInstaller) (config : list (PyVal * PyVal))
  : list (PyVal * PyVal) :=
  let config := assoc_set (PStr "name") (game_name self) config in
  let config := assoc_set (PStr "script") (script self) config in
  let config := assoc_set (PStr "variables") (variables self) config in
  let config := assoc_set (PStr "version") (version self) config in
  let config := assoc_set (PStr "requires") (requires self) config in
  let config := assoc_set (PStr "slug") (slug self) config in
  let config := assoc_set (PStr "game_slug") (game_slug self) config in
  let config := assoc_set (PStr "year") (year self) config in
  match service self with
  | Some svc =>
      let config := assoc_set (PStr "service") (PStr (svc_id svc)) config in
      assoc_set (PStr "service_id") (service_appid self) config
  | None => config
  end.

(** [get_game_config()].  The constructor has called [self.script.get],
    so the script is a dict whenever this method runs; the model raises
    TypeError for any other value.  Dicts are values here: the aliasing
    between the composed configuration and the loaded base configuration
    is not modelled. *)
Definition get_game_config (self : LutrisInstaller) : M World PyVal :=
  let* config := base_config self in
  match script self with
  | PDict sd =>
      let* config :=
        match assoc (PStr "system") sd with
        | Some section =>
            let* c := lift (_substitute_config self section) in
            ret (assoc_set (PStr "system") c config)
        | None => ret config
        end in
      let* has_runner := lift (dict_contains (runner self) sd) in
      let* config :=
        match (if has_runner then assoc (runner self) sd else None) with
        | Some section =>
            if truthy section then
              let* c := lift (_substitute_config self section) in
              ret (assoc_set (runner self) c config)
            else ret config
        | None => ret config
        end in
      let* lc := lift (get_game_launcher_config self (game_files (interpreter self))) in
      let* config :=
        (if truthy (fst lc) then lift (set_game_key config (fst lc) (snd lc))
         else ret config) in
      let* config :=
        match assoc (PStr "game") sd with
        | Some section =>
            let* config := lift (update_game config section) in
            let* game := lift (dict_getitem (PStr "game") config) in
            let* game := lift (_substitute_config self game) in
            auto_exe self (assoc_set (PStr "game") game config)
        | None => ret config
        end in
      ret (PDict (stamp self config))
  | _ => raise TypeError
  end.

(** [self.installer] after an update made in place inside [self.script]:
    the constructor takes the script from [installer.get("script")] and no
    method rebinds either attribute, so the script is the dict stored
    under "script" in the description and a change to it shows there. *)
Definition shared_script (script installer : PyVal) : PyVal :=
  match installer with
  | PDict d =>
      match assoc (PStr "script") d with
      | Some _ => PDict (assoc_set (PStr "script") script d)
      | None => installer
      end
  | _ => installer
  end.

(** The provider-specific adaptation in [save]: the GOG manifest found
    in the install target is merged into the script's game section.
    [self.script["game"].update(...)] changes the game section in place:
    the change is seen through [self.script] and through
    [self.installer], which holds the same script. *)
Definition merge_gog_config : M State unit :=
  let* s := self in
  if is_gog s then
    let target := target_path (interpreter s) in
    do* in_world (emit (EvReadGogConfig target)) in
    let gog_config := get_gog_config_from_path target in
    if truthy gog_config then
      let lutris_config :=
        convert_gog_config_to_lutris gog_config (get_gog_game_path target) in
      let* game := lift (py_getitem (script s) "game") in
      match game, script s with
      | PDict g, PDict sd =>
          let* g' := lift (py_update g lutris_config) in
          let script' := PDict (assoc_set (PStr "game") (PDict g') sd) in
          update_self (fun s =>
            set_installer (shared_script script' (installer s)) (set_script script' s))
      | _, _ => raise AttributeError
      end
    else ret tt
  else ret tt.

Definition upsert_fields (s : LutrisInstaller) (platform configpath : PyVal)
  : GameFields :=
  {| gf_name := game_name s;
     gf_runner := runner s;
     gf_slug := game_slug s;
     gf_platform := platform;
     gf_directory := target_path (interpreter s);
     gf_installed := 1;
     gf_hidden := 0;
     gf_installer_slug := slug s;
     gf_parent_slug := requires s;
     gf_year := year s;
     gf_configpath := configpath;
     gf_service := svc_id <$> service s;
     gf_service_id := service_appid s;
     gf_id := game_id s;
     gf_discord_id := discord_id s |}.

(** [write_game_config(slug, config)] and [add_or_update(...)] change the
    store, and either can fail: the exception goes through [save], and
    the store is left as the failed call left it. *)
Definition write_config (slug config : PyVal) : M World PyVal :=
  do* emit (EvWriteConfig slug config) in
  fun w =>
    let (r, store) := write_game_config (w_store w) slug config in
    (r, mkWorld (w_heap w) store (w_trace w)).

Definition upsert (fields : GameFields) : M World Z :=
  do* emit (EvUpsert fields) in
  fun w =>
    let (r, store) := add_or_update (w_store w) fields in
    (r, mkWorld (w_heap w) store (w_trace w)).

(** [save()].  After the configuration is written the runner is imported
    for its platform ([import_runner(self.runner)().get_platform()], which
    fails for a runner that cannot be imported), then the record is
    upserted; [self.game_id] is assigned last. *)
Definition save : M State (option Z) :=
  let* s := self in
  if truthy (extends s) then
    do* in_world (emit (EvLog ("This is an extension to " +:+ py_str (extends s)
                               +:+ ", not creating a new game entry"))) in
    ret (game_id s)
  else
    do* merge_gog_config in
    let* s := self in
    let* config := in_world (get_game_config s) in
    let* configpath := in_world (write_config (slug s) config) in
    let* platform := lift (runner_platform (runner s)) in
    let* id := in_world (upsert (upsert_fields s platform configpath)) in
    do* update_self (set_game_id (Some id)) in
    ret (Some id).

(** The declared files: one [InstallerFile] per item of each mapping of
    the script's "files" list. *)
Fixpoint new_files (game_slug : PyVal) (items : list (PyVal * PyVal))
  : M World (list loc) :=
  match items with
  | [] => ret []
  | (file_id, file_meta) :: items' =>
      let* r := alloc (InstallerFile_new game_slug file_id file_meta) in
      let* rs := new_files game_slug items' in
      ret (r :: rs)
  end.

Fixpoint declared_files (game_slug : PyVal) (descs : list PyVal) : M World (list loc) :=
  match descs with
  | [] => ret []
  | file_desc :: descs' =>
      let* items := lift (py_items file_desc) in
      let* rs := new_files game_slug items in
      let* rest := declared_files game_slug descs' in
      ret (rs ++ rest)%list
  end.

(** [__init__(installer, interpreter, service, appid)].  The record is
    filled in the order of the assignments; an attribute that is not yet
    assigned holds a placeholder that no method called from the
    constructor reads. *)
Definition init (installer : PyVal) (interp : Interpreter)
    (service : option Service) (appid : PyVal) : M World LutrisInstaller :=
  let* version := lift (py_getitem installer "version") in
  let* slug := lift (py_getitem installer "slug") in
  let* year := lift (py_get installer "year" PNone) in
  let* runner := lift (py_getitem installer "runner") in
  let* script := lift (py_get installer "script" PNone) in
  let* game_name := lift (py_getitem installer "name") in
  let* game_slug := lift (py_getitem installer "game_slug") in
  let s := mkInstaller interp installer false version slug year runner script
             game_name game_slug None PNone PNone [] [] PNone PNone None false PNone in
  let* svc := lift (get_service s service) in
  let s := set_service svc s in
  let* service_appid := lift (get_appid s installer appid) in
  let* variables := lift (py_get script "variables" (PDict [])) in
  let* files_decl := lift (py_get script "files" (PList [])) in
  let* descs := lift (py_iter files_decl) in
  let* script_files := declared_files game_slug descs in
  let* requires := lift (py_get script "requires" PNone) in
  let* extends := lift (py_get script "extends" PNone) in
  let s := mkInstaller interp installer false version slug year runner script
             game_name game_slug svc service_appid variables script_files []
             requires extends None false PNone in
  let* game_id := get_game_id s in
  let* discord_id := lift (py_get installer "discord_id" PNone) in
  ret (mkInstaller interp installer false version slug year runner script
         game_name game_slug svc service_appid variables script_files []
         requires extends game_id false discord_id).

End Installer.

(** ** A concrete environment

    One instance of the collaborators, used to run the methods on
    concrete scripts. *)

Module Demo.

(** Modelled from the spec: [get_game_launcher] (lutris.installer.legacy)
    is not among the sources; the launcher shortcut is "a root-level
    field that names a main executable or list of executables".  The
    first of the recognised root keys that is present names the
    launcher; a falsy value means there is none. *)
Fixpoint first_launcher (names : list string) (sd : list (PyVal * PyVal))
  : PyVal * PyVal :=
  match names with
  | [] => (PNone, PNone)
  | name :: names' =>
      match assoc (PStr name) sd with
      | Some v => if truthy v then (PStr name, v) else (PNone, v)
      | None => first_launcher names' sd
      end
  end.

Definition launcher_of (script : PyVal) : PyVal * PyVal :=
  match script with
  | PDict sd => first_launcher ["exe"; "iso"; "rom"; "disk"; "main_file"] sd
  | _ => (PNone, PNone)
  end.

(** The games table as a list of rows under (field, value). *)
Fixpoint find_row (store : list (string * PyVal * GameRow)) (value : PyVal)
    (field : string) : option GameRow :=
  match store with
  | [] => None
  | (f, v, row) :: store' =>
      if String.eqb f field && key_eq v value then Some row
      else find_row store' value field
  end.

Definition steam : Service := mkService "steam" true false PNone.
Definition gog : Service := mkService "gog" true true PNone.
Definition humble : Service := mkService "humblebundle" false false PNone.

Definition registry (name : string) : option Service :=
  if String.eqb name "steam" then Some steam
  else if String.eqb name "gog" then Some gog
  else if String.eqb name "humblebundle" then Some humble
  else None.

(** Substitution replaces the one variable "$GAMEDIR". *)
Definition subst (interp : Interpreter) (v : PyVal) : PyVal :=
  if eq_str v "$GAMEDIR" then target_path interp else v.

#[export] Instance env : External := {|
  Store := list (string * PyVal * GameRow);
  get_game_by_field := find_row;
  load_game_level := fun _ _ _ => [(PStr "game", PDict [])];
  write_game_config := fun store _ _ => (Ok (PStr "/config/game.yml"), store);
  add_or_update := fun store fields => (Ok (default 1 (gf_id fields)), store);
  SERVICES := registry;
  is_connected := fun _ => false;
  get_patch_files := fun _ _ _ => None;
  get_installer_files := fun _ _ _ _ => Some [];
  substitute := subst;
  is_moddb_url := String.prefix "https://www.moddb.com/";
  get_moddb_download_url := fun url => url +:+ "/mirror";
  get_game_launcher := launcher_of;
  path_exists := fun p => String.eqb p "/games/foo/bin/run.sh";
  AUTO_ELF_EXE := "_xXx_AUTO_ELF_xXx_";
  AUTO_WIN32_EXE := "_xXx_AUTO_WIN32_xXx_";
  find_linux_game_executable := fun _ => PStr "/games/foo/start.sh";
  find_windows_game_executable := fun _ => PStr "/games/foo/start.exe";
  get_gog_config_from_path := fun _ => PNone;
  get_gog_game_path := fun _ => PNone;
  convert_gog_config_to_lutris := fun _ _ => PDict [];
  runner_platform := fun _ => Ok (PStr "Linux")
|}.

Definition interp : Interpreter :=
  mkInterpreter (PList [])
    [(PStr "main.exe", PStr "/install/main.exe")]
    (PStr "/games/foo").

Definition world (store : list (string * PyVal * GameRow)) : World :=
  mkWorld ∅ store [].

(** The installer description the constructor receives, around a script. *)
Definition description (runner : string) (script : PyVal) : PyVal :=
  PDict [(PStr "version", PStr "Demo");
         (PStr "slug", PStr "foo-demo");
         (PStr "runner", PStr runner);
         (PStr "script", script);
         (PStr "name", PStr "Foo");
         (PStr "game_slug", PStr "foo")].

(** An installer object with the given script and relationship fields,
    without declared files. *)
Definition object (runner : string) (script requires extends : PyVal)
    (svc : option Service) : LutrisInstaller :=
  mkInstaller interp (description runner script) false (PStr "Demo")
    (PStr "foo-demo") PNone (PStr runner) script (PStr "Foo") (PStr "foo")
    svc PNone (PDict []) [] [] requires extends None false PNone.

End Demo.

(** ** The game folder *)

(** [creates_game_folder] can raise one exception the other methods
    cannot: [list(c.keys())[0]] on an empty mapping is an IndexError. *)
Inductive folder_result : Type :=
| Folder (b : bool)
| FolderRaise (e : exn)
| FolderIndexError.

(** [list(c.keys())[0]]: the first key of one installer command. *)
Definition command_name (c : PyVal) : folder_result + PyVal :=
  match c with
  | PDict [] => inl FolderIndexError
  | PDict ((k, _) :: _) => inr k
  | _ => inl (FolderRaise AttributeError)
  end.

Fixpoint command_names (commands : list PyVal) : folder_result + list PyVal :=
  match commands with
  | [] => inr []
  | c :: commands' =>
      match command_name c with
      | inl e => inl e
      | inr name =>
          match command_names commands' with
          | inl e => inl e
          | inr names => inr (name :: names)
          end
      end
  end.

(** [self.script.get("game", {}).get(key)] *)
Definition game_option (script : PyVal) (key : string) : result PyVal :=
  let+ game := py_get script "game" (PDict []) in
  py_get game key PNone.

(** The last part of [creates_game_folder]: the names of the installer
    commands are collected and searched for "insert-disc". *)
Definition has_insert_disc (script : PyVal) : folder_result :=
  match rbind (py_get script "installer" (PList [])) py_iter with
  | Raise e => FolderRaise e
  | Ok commands =>
      match command_names commands with
      | inl e => e
      | inr names => Folder (existsb (fun name => eq_str name "insert-disc") names)
      end
  end.

(** The property [creates_game_folder]. *)
Definition creates_game_folder (self : LutrisInstaller) : folder_result :=
  if truthy (py_or (requires self) (extends self)) then Folder false
  else if eq_str (runner self) "steam" then Folder false
  else
    match py_get (script self) "installer" PNone with
    | Raise e => FolderRaise e
    | Ok commands =>
        if negb (truthy commands) then Folder false
        else
          match script_files self with
          | _ :: _ => Folder true
          | [] =>
              match game_option (script self) "gog" with
              | Raise e => FolderRaise e
              | Ok gog =>
                  if truthy gog then Folder true
                  else
                    match game_option (script self) "prefix" with
                    | Raise e => FolderRaise e
                    | Ok prefix =>
                        if truthy prefix then Folder true
                        else has_insert_disc (script self)
                    end
              end
          end
    end.

(** ** Vocabulary of the properties *)

Section Vocabulary.
Context `{External}.

(** The world after one more call to the outside. *)
Definition logged (e : Event) (w : World) : World :=
  mkWorld (w_heap w) (w_store w) (w_trace w ++ [e])%list.

Definition lookup_event (self : LutrisInstaller) : Event :=
  EvStoreLookup (game_slug self) "slug".

(** The id [get_game_id] finds in a store. *)
Definition existing_id (self : LutrisInstaller) (store : Store) : option Z :=
  match get_game_by_field store (game_slug self) "slug" with
  | Some row =>
      if truthy (extends self) || negb (truthy (row_installed row))
      then Some (row_id row) else None
  | None => None
  end.

(** The only trace [save] leaves for an extension. *)
Definition extension_notice (s : LutrisInstaller) : Event :=
  EvLog ("This is an extension to " +:+ py_str (extends s)
         +:+ ", not creating a new game entry").

(** Whether the runner-specific checks of [get_errors] can read the
    game section: the steam check calls [get] on it, the libretro check
    tests membership in it. *)
Definition game_section_readable (self : LutrisInstaller) : bool :=
  match script self with
  | PDict sd =>
      match assoc (PStr "game") sd with
      | None => true
      | Some g =>
          if eq_str (runner self) "steam" then is_dict g
          else if eq_str (runner self) "libretro" then is_dict g || is_list g || is_str g
          else true
      end
  | _ => true
  end.

Definition both_error : string := "Scripts can't have both extends and requires".

(** [d.get(key)] on a dict. *)
Definition field (d : list (PyVal * PyVal)) (key : string) : PyVal :=
  default PNone (assoc (PStr key) d).

(** The two tests at the head of the loop of [_substitute_config]. *)
Definition true_like (v : PyVal) : bool := String.eqb (lower (py_str v)) "true".
Definition false_like (v : PyVal) : bool := String.eqb (lower (py_str v)) "false".

(** A [launch_configs] value the loop can walk: a list of mappings. *)
Definition launch_configs_ok (d : list (PyVal * PyVal)) : Prop :=
  forall v, assoc (PStr "launch_configs") d = Some v ->
            exists confs, v = PList (map PDict confs).

(** The working copy of a declared file once the loop over the working
    list has rewritten its URL. *)
Definition planned (interp : Interpreter) (f : InstallerFile) : InstallerFile :=
  let f1 := set_url f (substitute interp (PStr (f_url f))) in
  if is_moddb_url (f_url f1)
  then set_url f1 (PStr (get_moddb_download_url (f_url f1)))
  else f1.

(** [file.id != installer_file_id] *)
Definition kept (installer_file_id : option string) (f : InstallerFile) : bool :=
  negb (bool_decide (installer_file_id = Some (f_id f))).



(** The session check of [prepare_game_files] lets the service through. *)
Definition session_ok (svc : Service) : Prop :=
  svc_online svc = true -> is_connected svc = true.

Definition is_file_request (e : Event) : bool :=
  match e with
  | EvGetPatchFiles _ _ | EvGetInstallerFiles _ _ _ => true
  | _ => false
  end.

End Vocabulary.

(** ** Vocabulary of the further properties *)

Section Vocabulary2.
Context `{External}.

(** An installer command that has a name: a non-empty mapping. *)
Definition is_command (c : PyVal) : bool :=
  match c with
  | PDict (_ :: _) => true
  | _ => false
  end.

(** Whether a command is named "insert-disc". *)
Definition is_insert_disc (c : PyVal) : bool :=
  match c with
  | PDict ((k, _) :: _) => eq_str k "insert-disc"
  | _ => false
  end.

(** The manual-entry sentinel of a file URL. *)
Definition is_manual (f : InstallerFile) : bool := String.prefix "N/A" (f_url f).

(** One optional finding of [get_errors]. *)
Definition finding (present : bool) (msg : string) : list string :=
  if present then [msg] else [].

(** The conditions under which the runner-specific checks of
    [get_errors] report. *)
Definition libretro_core_missing (self : LutrisInstaller) (sd : list (PyVal * PyVal)) : bool :=
  eq_str (runner self) "libretro"
  && match assoc (PStr "game") sd with
     | Some game => match str_in "core" game with Ok b => negb b | Raise _ => false end
     | None => true
     end.

Definition steam_appid_missing (self : LutrisInstaller) (sd : list (PyVal * PyVal)) : bool :=
  eq_str (runner self) "steam"
  && match assoc (PStr "game") sd with
     | Some (PDict game) => negb (truthy (field game "appid"))
     | Some _ => false
     | None => true
     end.

(** The calls [prepare_game_files] may make. *)
Definition planning_event (e : Event) : bool :=
  match e with
  | EvLog _ | EvIsConnected _ | EvModdbResolve _
  | EvGetPatchFiles _ _ | EvGetInstallerFiles _ _ _ => true
  | _ => false
  end.

(** The calls [get_game_config] may make: lookups in the games table,
    the loading of a configuration and the two searches for an executable
    in the install target.  None of them writes to the games table or to
    a configuration file; the Linux search is made with
    [make_executable=True] and may change the mode of the file it finds. *)
Definition config_event (e : Event) : bool :=
  match e with
  | EvStoreLookup _ _ | EvLoadConfig _ _ | EvFindLinuxExecutable _
  | EvFindWindowsExecutable _ => true
  | _ => false
  end.


(** A computation over a state that holds a world adds only calls of a
    given kind to the trace and leaves the store alone, whether it returns
    or raises. *)
Definition only_emits {S A} (world : S -> World) (P : Event -> bool) (m : M S A) : Prop :=
  forall s, exists evs,
    w_trace (world (snd (m s))) = (w_trace (world s) ++ evs)%list
    /\ forallb P evs = true
    /\ w_store (world (snd (m s))) = w_store (world s).

(** The moddb lookup one turn of the rewriting loop makes, if any. *)
Definition rewrite_events (interp : Interpreter) (f : InstallerFile) : list Event :=
  let f1 := set_url f (substitute interp (PStr (f_url f))) in
  if is_moddb_url (f_url f1) then [EvModdbResolve (f_url f1)] else [].

(** The id [prepare_game_files] holds aside. *)
Definition held_aside (s : LutrisInstaller) (h : gmap loc InstallerFile) : option string :=
  match service s with
  | Some _ => first_user_provided h (script_files s)
  | None => None
  end.

(** The declared files that go into the working list, as they are
    declared and as they are once rewritten. *)
Definition kept_files (s : LutrisInstaller) (h : gmap loc InstallerFile)
  : list InstallerFile :=
  List.filter (kept (held_aside s h)) (map (fun r => h !!! r) (script_files s)).

Definition working_copies (s : LutrisInstaller) (h : gmap loc InstallerFile)
  : list InstallerFile :=
  map (planned (interpreter s)) (kept_files s h).

(** The calls before the request to the provider. *)
Definition copy_events (s : LutrisInstaller) (h : gmap loc InstallerFile) : list Event :=
  flat_map (rewrite_events (interpreter s)) (kept_files s h).

(** The provider answers a request for a file id with the same value,
    whichever request is made. *)
Definition provider_answers (patch_version : PyVal) (fid : string)
    (answer : option (list InstallerFile)) : Prop :=
  forall svc s,
    if truthy patch_version then get_patch_files svc s fid = answer
    else forall selected, get_installer_files svc s fid selected = answer.

(** The calls of the request itself. *)
Definition request_events (patch_version : PyVal) (s : LutrisInstaller) (svc : Service)
    (fid : string) : list Event :=
  (EvLog ("Getting files for " +:+ fid)
   :: (if svc_has_extras svc then [EvLog "Adding selected extras to downloads"] else [])
   ++ [if truthy patch_version then EvGetPatchFiles (svc_id svc) fid
       else EvGetInstallerFiles (svc_id svc) fid (extras (interpreter s))])%list.

(** What the answer of the provider does to the working list. *)
Definition with_answer (s : LutrisInstaller) (fid : string)
    (answer : option (list InstallerFile)) (copies : list InstallerFile)
  : list InstallerFile :=
  match answer with
  | Some (f :: fs) => (copies ++ f :: fs)%list
  | _ => manual_file s fid :: copies
  end.

Definition answer_events (fid : string) (answer : option (list InstallerFile))
  : list Event :=
  match answer with
  | Some (_ :: _) => []
  | _ => [EvLog ("Unable to get files from service. Setting " +:+ fid +:+ " to manual.")]
  end.

(** The session check as a list of calls. *)
Definition session_events (s : LutrisInstaller) : list Event :=
  match service s with
  | Some svc => if svc_online svc then [EvIsConnected (svc_id svc)] else []
  | None => []
  end.

(** The contents of the plan, given what the provider answers. *)
Definition plan_of (answer : option (list InstallerFile)) (s : LutrisInstaller)
    (h : gmap loc InstallerFile) : list InstallerFile :=
  match held_aside s h with
  | Some fid =>
      if String.eqb fid "" then working_copies s h
      else with_answer s fid answer (working_copies s h)
  | None => working_copies s h
  end.

(** The contents of the working list of a state. *)
Definition plan (st : State) : list InstallerFile :=
  map (fun r => w_heap (st_world st) !!! r) (files (st_self st)).

(** The declared files of a state are live objects. *)
Definition declared_live (st : State) : Prop :=
  Forall (fun r => is_Some (w_heap (st_world st) !! r)) (script_files (st_self st)).

(** The keys [__init__] reads with a subscript. *)
Definition required_keys : list string :=
  ["version"; "slug"; "runner"; "name"; "game_slug"].

(** The (id, description) pairs of the mappings of a "files" section, in
    order. *)
Fixpoint declared_items (descs : list PyVal) : list (PyVal * PyVal) :=
  match descs with
  | [] => []
  | PDict items :: descs' => (items ++ declared_items descs')%list
  | _ :: descs' => declared_items descs'
  end.

(** The file object the constructor makes from one declared item. *)
Definition declared_file (game_slug : PyVal) (item : PyVal * PyVal) : InstallerFile :=
  InstallerFile_new game_slug (fst item) (snd item).

(** The world after further calls to the outside, nothing else changed. *)
Definition logged_all (evs : list Event) (w : World) : World :=
  mkWorld (w_heap w) (w_store w) (w_trace w ++ evs)%list.

(** A computation that, whether it returns or raises, leaves a world
    that differs from the one it found by calls of a given kind only. *)
Definition only_calls {A} (P : Event -> bool) (m : M World A) : Prop :=
  forall w, exists evs,
    forallb P evs = true /\ snd (m w) = logged_all evs w.

(** Every value a computation returns satisfies [Q]. *)
Definition returns {S A} (Q : A -> Prop) (m : M S A) : Prop :=
  forall s a, fst (m s) = Ok a -> Q a.

(** The keys [get_game_config] sets last, with the attribute each one
    receives. *)
Definition identity_keys (self : LutrisInstaller) : list (string * PyVal) :=
  [("name", game_name self); ("script", script self);
   ("variables", variables self); ("version", version self);
   ("requires", requires self); ("slug", slug self);
   ("game_slug", game_slug self); ("year", year self)].

Definition service_keys (self : LutrisInstaller) : list (string * PyVal) :=
  match service self with
  | Some svc => [("service", PStr (svc_id svc)); ("service_id", service_appid self)]
  | None => []
  end.

(** The two lookups of the base game, in the order they are made. *)
Definition base_lookups (self : LutrisInstaller) : list Event :=
  [EvStoreLookup (requires self) "installer_slug"; EvStoreLookup (requires self) "slug"].

(** What the last four branches of the loop of [_substitute_config]
    store for a value: the members of a list and the values of a mapping
    are substituted one by one, a boolean is kept, anything else is
    substituted whole. *)
Definition substituted (interp : Interpreter) (v : PyVal) : PyVal :=
  match v with
  | PList l => PList (map (substitute interp) l)
  | PDict items => substitute_items interp items
  | PBool _ => v
  | _ => substitute interp v
  end.

End Vocabulary2.

(** ** Concrete installs *)

Module Cases.
Import Demo.

(** An expansion that requires the base game and extends nothing. *)
Definition requires_script : PyVal :=
  PDict [(PStr "requires", PStr "base-game")].

(** An add-on that extends the installed base game. *)
Definition extends_script : PyVal :=
  PDict [(PStr "extends", PStr "base-game")].

(** A script that declares both relationships. *)
Definition both_script : PyVal :=
  PDict [(PStr "requires", PStr "base-game"); (PStr "extends", PStr "base-game")].

(** The same with a game section that is a string instead of a mapping. *)
Definition both_script_bad_game : PyVal :=
  PDict [(PStr "requires", PStr "base-game"); (PStr "extends", PStr "base-game");
         (PStr "game", PStr "oops")].

(** The games table with "foo" in the library but not installed, and with
    "foo" installed. *)
Definition library_store : list (string * PyVal * GameRow) :=
  [("slug", PStr "foo", mkRow 7 (PBool false) (PStr "foo-1"))].

Definition installed_store : list (string * PyVal * GameRow) :=
  [("slug", PStr "foo", mkRow 7 (PBool true) (PStr "foo-1"))].

Definition requires_object : LutrisInstaller :=
  object "linux" requires_script (PStr "base-game") PNone None.

Definition extends_object : LutrisInstaller :=
  set_game_id (Some 7) (object "linux" extends_script PNone (PStr "base-game") None).

Definition both_object : LutrisInstaller :=
  object "linux" both_script (PStr "base-game") (PStr "base-game") None.

Definition both_object_bad_game : LutrisInstaller :=
  object "steam" both_script_bad_game (PStr "base-game") (PStr "base-game") (Some steam).

(** An object whose script attribute is not a mapping. *)
Definition no_script_object : LutrisInstaller :=
  object "steam" PNone PNone PNone None.

(** Declared files: two that the user must provide and one download. *)
Definition file_a : InstallerFile := mkFile (PStr "foo") "a" "N/A: Select the installer" "".
Definition file_b : InstallerFile := mkFile (PStr "foo") "b" "N/A: Select the patch" "".
Definition file_c : InstallerFile :=
  mkFile (PStr "foo") "c" "https://www.moddb.com/downloads/foo" "foo.zip".

Definition with_files (l : list loc) (svc : option Service) : LutrisInstaller :=
  mkInstaller interp (description "linux" (PDict [])) false (PStr "Demo")
    (PStr "foo-demo") PNone (PStr "linux") (PDict []) (PStr "Foo") (PStr "foo")
    svc PNone (PDict []) l [] PNone PNone None false PNone.

Definition heap_ab : gmap loc InstallerFile := <[1%nat := file_b]> (<[0%nat := file_a]> ∅).
Definition heap_ac : gmap loc InstallerFile := <[1%nat := file_c]> (<[0%nat := file_a]> ∅).

(** No declared file, a steam service without a session. *)
Definition no_files_state : State :=
  mkState (with_files [] (Some steam)) (mkWorld ∅ [] []).

(** One declared file, a steam service without a session. *)
Definition steam_state : State :=
  mkState (with_files [0%nat; 1%nat] (Some steam)) (mkWorld heap_ac [] []).

(** Two files to provide, and a provider that needs no session. *)
Definition two_manual_state : State :=
  mkState (with_files [0%nat; 1%nat] (Some humble)) (mkWorld heap_ab [] []).

Definition manual_and_download_state : State :=
  mkState (with_files [0%nat; 1%nat] (Some humble)) (mkWorld heap_ac [] []).

(** A file to provide whose id is the empty string, and a download. *)
Definition file_e : InstallerFile := mkFile (PStr "foo") "" "N/A: Select the installer" "".

Definition heap_ec : gmap loc InstallerFile := <[1%nat := file_c]> (<[0%nat := file_e]> ∅).

Definition empty_id_state : State :=
  mkState (with_files [0%nat; 1%nat] (Some humble)) (mkWorld heap_ec [] []).

(** Launcher shortcuts at the root of the script. *)
Definition exe_object (exe : PyVal) : LutrisInstaller :=
  object "linux" (PDict [(PStr "exe", exe)]) PNone PNone None.

Definition main_file_object (l : list PyVal) : LutrisInstaller :=
  object "linux" (PDict [(PStr "main_file", PList l)]) PNone PNone None.

(** An installer description of downloadable content. *)
Definition dlc_description : list (PyVal * PyVal) :=
  [(PStr "is_dlc", PBool true); (PStr "dlcid", PStr "dlc-42");
   (PStr "steamid", PStr "220"); (PStr "service_id", PStr "generic-1")].

End Cases.

(** ** Further concrete installs *)

Module Cases2.
Import Demo Cases.

(** An object without a runner. *)
Definition no_runner_object : LutrisInstaller :=
  object "" (PDict []) PNone PNone None.

(** A steam object whose script has no section. *)
Definition no_script_steam : LutrisInstaller :=
  object "steam" (PDict []) PNone PNone (Some steam).

(** A libretro script that names its core. *)
Definition libretro_script : list (PyVal * PyVal) :=
  [(PStr "game", PDict [(PStr "core", PStr "snes9x")])].

Definition libretro_object : LutrisInstaller :=
  object "libretro" (PDict libretro_script) PNone PNone None.

(** A script whose installer asks for a disc. *)
Definition disc_commands : list PyVal :=
  [PDict [(PStr "move", PDict [(PStr "src", PStr "a"); (PStr "dst", PStr "b")])];
   PDict [(PStr "insert-disc", PDict [(PStr "requires", PStr "setup.exe")])]].

Definition disc_script : list (PyVal * PyVal) :=
  [(PStr "installer", PList disc_commands)].

Definition disc_object : LutrisInstaller :=
  object "wine" (PDict disc_script) PNone PNone None.

(** The same script with two declared files. *)
Definition disc_object_with_files : LutrisInstaller :=
  mkInstaller interp (description "wine" (PDict disc_script)) false (PStr "Demo")
    (PStr "foo-demo") PNone (PStr "wine") (PDict disc_script) (PStr "Foo") (PStr "foo")
    None PNone (PDict []) [0%nat; 1%nat] [] PNone PNone None false PNone.

(** Declared files without a provider. *)
Definition unbound_state : State :=
  mkState (with_files [0%nat; 1%nat] None) (mkWorld heap_ac [] []).

(** A provider that has one file for every id. *)
Definition shop_file : InstallerFile :=
  mkFile (PStr "foo") "a" "https://shop.example/foo.bin" "foo.bin".

Definition shop : External := {|
  Store := list (string * PyVal * GameRow);
  get_game_by_field := find_row;
  load_game_level := fun _ _ _ => [(PStr "game", PDict [])];
  write_game_config := fun store _ _ => (Ok (PStr "/config/game.yml"), store);
  add_or_update := fun store fields => (Ok (default 1 (gf_id fields)), store);
  SERVICES := registry;
  is_connected := fun _ => true;
  get_patch_files := fun _ _ _ => Some [shop_file];
  get_installer_files := fun _ _ _ _ => Some [shop_file];
  substitute := subst;
  is_moddb_url := String.prefix "https://www.moddb.com/";
  get_moddb_download_url := fun url => url +:+ "/mirror";
  get_game_launcher := launcher_of;
  path_exists := fun _ => false;
  AUTO_ELF_EXE := "_xXx_AUTO_ELF_xXx_";
  AUTO_WIN32_EXE := "_xXx_AUTO_WIN32_xXx_";
  find_linux_game_executable := fun _ => PStr "/games/foo/start.sh";
  find_windows_game_executable := fun _ => PStr "/games/foo/start.exe";
  get_gog_config_from_path := fun _ => PNone;
  get_gog_game_path := fun _ => PNone;
  convert_gog_config_to_lutris := fun _ _ => PDict [];
  runner_platform := fun _ => Ok (PStr "Linux")
|}.

Definition shop_state : @State shop :=
  @mkState shop (with_files [0%nat; 1%nat] (Some gog)) (@mkWorld shop heap_ac [] []).

(** A script that declares one file to provide and one download. *)
Definition files_script : PyVal :=
  PDict [(PStr "files",
          PList [PDict [(PStr "setup", PStr "N/A: Select the installer")];
                 PDict [(PStr "patch",
                         PDict [(PStr "url", PStr "https://example.org/p.zip");
                                (PStr "filename", PStr "p.zip")])]])].

(** A games table in which "base-game" is the installer slug of one game
    and the slug of another. *)
Definition base_by_installer : GameRow := mkRow 3 (PBool true) (PStr "base-3").
Definition base_by_slug : GameRow := mkRow 4 (PBool true) (PStr "base-4").

Definition base_store : list (string * PyVal * GameRow) :=
  [("slug", PStr "base-game", base_by_slug);
   ("installer_slug", PStr "base-game", base_by_installer)].

(** A plain script, and the state of a first install. *)
Definition plain_object : LutrisInstaller :=
  object "linux" (PDict [(PStr "game", PDict [(PStr "exe", PStr "$GAMEDIR")])])
    PNone PNone (Some gog).




(** A configuration section. *)
Definition system_section : list (PyVal * PyVal) :=
  [(PStr "prefix", PStr "$GAMEDIR");
   (PStr "env", PDict [(PStr "HOME", PStr "$GAMEDIR")]);
   (PStr "args", PList [PStr "-w"; PStr "$GAMEDIR"]);
   (PStr "launch_configs", PList [PDict [(PStr "exe", PStr "$GAMEDIR")]])].

End Cases2.

(** * Properties *)

(** ** Running computations *)

Section Running.
Context {S : Type}.

Lemma bind_inv {A B} (m : M S A) (k : A -> M S B) s b s2 :
  bind m k s = (Ok b, s2) ->
  exists a s1, m s = (Ok a, s1) /\ k a s1 = (Ok b, s2).
Proof.
  unfold bind. destruct (m s) as [[a|e] s1]; intros Hk.
  - exists a, s1. split; [reflexivity | exact Hk].
  - discriminate.
Qed.

Lemma lift_inv {A} (r : result A) (s : S) a s' :
  lift r s = (Ok a, s') -> r = Ok a /\ s' = s.
Proof. unfold lift. intros [= -> ->]. split; reflexivity. Qed.

End Running.

(** ** Identity resolution *)

Section Identity.
Context `{External}.

Lemma get_game_id_run (self : LutrisInstaller) (w : World) :
  get_game_id self w = (Ok (existing_id self (w_store w)), logged (lookup_event self) w).
Proof.
  unfold get_game_id, existing_id, bind, emit, modify, gets, logged, lookup_event; simpl.
  destruct (get_game_by_field _ _ _) as [row|]; [|reflexivity].
  destruct (truthy (extends self) || negb (truthy (row_installed row))); reflexivity.
Qed.


(** C1, as amended: [get_game_id] returns the id of the store record
    with the installer's game slug exactly when such a record exists and
    either the script declares [extends] or the record is not marked
    installed -- whether or not [requires] is declared.  In every other
    case, also when there is no record, it returns no id.  The lookup
    changes neither the store nor the file objects. *)
Theorem get_game_id_existing_record (self : LutrisInstaller) (w : World) :
  (forall id, fst (get_game_id self w) = Ok (Some id) <->
     exists row, get_game_by_field (w_store w) (game_slug self) "slug" = Some row
                 /\ row_id row = id
                 /\ (truthy (extends self) = true \/ truthy (row_installed row) = false))
  /\ (fst (get_game_id self w) = Ok None <->
       forall row, get_game_by_field (w_store w) (game_slug self) "slug" = Some row ->
                   truthy (extends self) = false /\ truthy (row_installed row) = true)
  /\ w_store (snd (get_game_id self w)) = w_store w
  /\ w_heap (snd (get_game_id self w)) = w_heap w.
Proof.
  rewrite get_game_id_run; simpl. unfold existing_id.
  destruct (get_game_by_field _ _ _) as [row|] eqn:Hrow.
  - destruct (truthy (extends self)) eqn:He, (truthy (row_installed row)) eqn:Hi; simpl;
      (split; [intros id; split; [intros [= <-]; eauto 8 | intros (r & [= <-] & <- & [?|?]); congruence]|]);
      (split; [split; [try discriminate; intros _ r [= <-]; auto | intros Hall; try reflexivity; destruct (Hall row eq_refl); congruence]|]);
      auto.
  - split; [intros id; split; [discriminate | intros (r & Hr & _); discriminate]|].
    split; [split; [intros _ r Hr; discriminate | reflexivity]|]. auto.
Qed.

Lemma new_files_world gs items (w : World) :
  exists rs h,
    new_files gs items w = (Ok rs, mkWorld h (w_store w) (w_trace w))
    /\ w_heap w ⊆ h
    /\ Forall (fun r => is_Some (h !! r)) rs.
Proof.
  revert w. induction items as [|[k v] items IH]; intros w; cbn [new_files].
  - exists [], (w_heap w). destruct w; cbn. auto.
  - unfold bind at 1. unfold alloc at 1.
    set (c := fresh (dom (w_heap w))).
    assert (w_heap w !! c = None) as Hfresh by apply not_elem_of_dom, is_fresh.
    destruct (IH (mkWorld (<[c := InstallerFile_new gs k v]> (w_heap w))
                          (w_store w) (w_trace w)))
      as (rs & h & Hrun & Hsub & Hlive).
    cbn [w_heap w_store w_trace] in *.
    unfold bind. rewrite Hrun. unfold ret.
    exists (c :: rs), h. split; [reflexivity|]. split.
    + etrans; [apply insert_subseteq; exact Hfresh | exact Hsub].
    + constructor; [|exact Hlive].
      exists (InstallerFile_new gs k v).
      eapply lookup_weaken; [apply lookup_insert_eq | exact Hsub].
Qed.

Lemma declared_files_world gs descs (w : World) r w' :
  declared_files gs descs w = (r, w') ->
  w_store w' = w_store w /\ w_trace w' = w_trace w /\ w_heap w ⊆ w_heap w'
  /\ forall rs, r = Ok rs -> Forall (fun c => is_Some (w_heap w' !! c)) rs.
Proof.
  revert w r w'. induction descs as [|d descs IH]; intros w r w'; cbn [declared_files].
  - intros [= <- <-]. repeat split; auto. intros rs [= <-]. constructor.
  - unfold bind at 1. unfold lift at 1. destruct (py_items d) as [items|e].
    + unfold bind at 1.
      destruct (new_files_world gs items w) as (rs1 & h & -> & Hsub1 & Hlive1).
      unfold bind at 1.
      destruct (declared_files gs descs _) as [[rest|e] w1] eqn:Hrest;
        apply IH in Hrest as (Hst & Htr & Hsub & Hlive);
        cbn [w_heap w_store w_trace] in *;
        intros [= <- <-];
        (split; [exact Hst|]); (split; [exact Htr|]);
        (split; [etrans; eassumption|]); intros rs Hrs; [|discriminate].
      injection Hrs as <-. apply Forall_app. split; [|apply Hlive; reflexivity].
      eapply Forall_impl; [exact Hlive1|]. cbn. intros c [f Hf].
      exists f. eapply lookup_weaken; [exact Hf | exact Hsub].
    + intros [= <- <-]. repeat split; auto. intros rs Hrs. discriminate.
Qed.

Ltac step H :=
  let a := fresh "a" in
  let s := fresh "s" in
  let E := fresh "E" in
  apply bind_inv in H as (a & s & E & H).

(** What the constructor establishes. *)
Lemma init_inv installer interp svc appid (w : World) s w' :
  init installer interp svc appid w = (Ok s, w') ->
  w_store w' = w_store w
  /\ py_get installer "script" PNone = Ok (script s)
  /\ py_get (script s) "requires" PNone = Ok (requires s)
  /\ py_get (script s) "extends" PNone = Ok (extends s)
  /\ game_id s = existing_id s (w_store w)
  /\ files s = []
  /\ Forall (fun r => is_Some (w_heap w' !! r)) (script_files s).
Proof.
  unfold init. intros Hinit.
  repeat step Hinit.
  repeat match goal with
         | E : lift _ _ = (Ok _, _) |- _ => apply lift_inv in E as [? ->]
         end.
  match goal with
  | E : declared_files _ _ _ = _ |- _ =>
      apply declared_files_world in E as (Hst & Htr & _ & Hlive);
      specialize (Hlive _ eq_refl)
  end.
  match goal with
  | E : get_game_id _ _ = _ |- _ => rewrite get_game_id_run in E; injection E as <- <-
  end.
  injection Hinit as <- <-. simpl.

  unfold existing_id; simpl. rewrite Hst. repeat split; auto.
Qed.
End Identity.

Section Persistence.
Context `{External}.

(** With [extends] set, [save] returns before it touches the script, the
    configuration files or the games table. *)
Lemma save_extends (st : State) :
  truthy (extends (st_self st)) = true ->
  save st = (Ok (game_id (st_self st)),
             mkState (st_self st) (logged (extension_notice (st_self st)) (st_world st))).
Proof.
  intros He. unfold save, bind, self, gets. simpl. rewrite He.
  reflexivity.
Qed.

(** C2: for an installer built by the constructor whose script sets
    [extends], [save] -- in whatever world it is called -- writes no
    configuration and makes no upsert: the object, the store and the file
    objects are unchanged, the only trace is the log line, and the value
    returned is the id the constructor computed, that of the record that
    had the game slug in the store at construction time (none when there
    was no such record). *)
Theorem save_extends_returns_identity installer interp svc appid (w0 w1 w : World) s sd :
  init installer interp svc appid w0 = (Ok s, w1) ->
  script s = PDict sd ->
  truthy (field sd "extends") = true ->
  save (mkState s w)
  = (Ok (row_id <$> get_game_by_field (w_store w0) (game_slug s) "slug"),
     mkState s (logged (extension_notice s) w)).
Proof.
  intros Hinit Hscript He.
  apply init_inv in Hinit as (_ & _ & _ & Hext & Hgid & _).
  rewrite Hscript in Hext. injection Hext as Hext. fold (field sd "extends") in Hext.
  rewrite Hext in He.
  rewrite save_extends by exact He. cbn [st_self st_world].
  rewrite Hgid. unfold existing_id. rewrite He. cbn [orb].
  destruct (get_game_by_field _ _ _); reflexivity.
Qed.

End Persistence.

Section Validation.
Context `{External}.

(** C10: when the [script] attribute is not a dict, [get_errors] returns
    exactly the one-element list ["Script must be a dictionary"]: the
    missing-field, libretro, steam and requires/extends checks are not
    evaluated, whatever the other attributes hold. *)
Theorem get_errors_not_a_dict (self : LutrisInstaller) :
  is_dict (script self) = false ->
  get_errors self = Ok ["Script must be a dictionary"].
Proof. intros Hd. unfold get_errors. rewrite Hd. reflexivity. Qed.

(** The constructor calls [self.script.get], so an object it has built
    always has a dict for a script. *)
Lemma init_script_is_dict installer interp svc appid (w w' : World) s :
  init installer interp svc appid w = (Ok s, w') -> is_dict (script s) = true.
Proof.
  intros Hinit. apply init_inv in Hinit as (_ & _ & Hr & _).
  destruct (script s); try discriminate. reflexivity.
Qed.

Lemma append_In errors msg : In msg (append errors msg).
Proof. unfold append. apply in_or_app. right. left. reflexivity. Qed.

Lemma check_requires_extends_both self sd errors :
  script self = PDict sd ->
  truthy (default PNone (assoc (PStr "requires") sd)) = true ->
  truthy (default PNone (assoc (PStr "extends") sd)) = true ->
  check_requires_extends self errors = Ok (append errors both_error).
Proof.
  intros Hs Hr He. unfold check_requires_extends. rewrite Hs. simpl.
  rewrite Hr. simpl. rewrite He. reflexivity.
Qed.

Lemma runner_checks_total self sd errors :
  script self = PDict sd ->
  game_section_readable self = true ->
  exists errors', rbind (check_libretro self errors) (check_steam self) = Ok errors'.
Proof.
  intros Hs. unfold game_section_readable, check_libretro, check_steam.
  rewrite Hs. simpl.
  destruct (eq_str (runner self) "libretro") eqn:Hl.
  - assert (eq_str (runner self) "steam" = false) as Hst.
    { destruct (runner self); try reflexivity. simpl in *.
      apply String.eqb_eq in Hl. subst. reflexivity. }
    rewrite Hst. 
    destruct (assoc (PStr "game") sd) as [g|] eqn:Hg; simpl.
    + try (rewrite bool_decide_eq_true_2 by eauto); simpl.
      destruct g; simpl; try discriminate; intros _;
        repeat match goal with
               | |- context [if ?b then _ else _] => destruct b
               end; simpl; eauto.
    + try (rewrite bool_decide_eq_false_2 by (intros [? ?]; discriminate)); simpl; eauto.
  - simpl. destruct (eq_str (runner self) "steam") eqn:Hst; [|eauto].
    destruct (assoc (PStr "game") sd) as [g|] eqn:Hg; simpl.
    + destruct g; simpl; try discriminate; intros _;
        repeat match goal with
               | |- context [if ?b then _ else _] => destruct b
               end; simpl; eauto.
    + eauto.
Qed.

(** C5, as amended: for every script that sets both [requires] and
    [extends] and whose game section can be read by the runner-specific
    checks that come first (it is absent, or a mapping for a steam runner,
    or a mapping, list or string for a libretro runner), [get_errors]
    returns a list that includes the "can't have both" finding; the
    validation is a function of the installer object alone and leaves the
    world as it is. *)
Theorem get_errors_requires_and_extends (self : LutrisInstaller) sd :
  script self = PDict sd ->
  truthy (default PNone (assoc (PStr "requires") sd)) = true ->
  truthy (default PNone (assoc (PStr "extends") sd)) = true ->
  game_section_readable self = true ->
  exists errors,
    get_errors self = Ok errors
    /\ In both_error errors
    /\ forall w : World, lift (get_errors self) w = (Ok errors, w).
Proof.
  intros Hs Hr He Hg.
  destruct (runner_checks_total self sd
              (missing_field "runner" (runner self)
               ++ missing_field "game_name" (game_name self)
               ++ missing_field "game_slug" (game_slug self))%list Hs Hg)
    as (errors & Hchecks).
  exists (append errors both_error).
  assert (get_errors self = Ok (append errors both_error)) as Hrun.
  { unfold get_errors. rewrite Hs. simpl.
    unfold rbind in Hchecks |- *.
    destruct (check_libretro self _) as [e1|]; [|discriminate].
    rewrite Hchecks.
    apply (check_requires_extends_both self sd); assumption. }
  split; [exact Hrun|]. split; [apply append_In|].
  intros w. unfold lift. rewrite Hrun. reflexivity.
Qed.

End Validation.

(** ** Service binding *)

Section Binding.
Context `{External}.

(** C8: in [get_appid], when the installer description declares
    [is_dlc] (truthy) the result is its [dlcid], whatever identifier the
    caller supplied; when it does not, a caller-supplied identifier is
    returned as it is; and only without either do the fields of the bound
    provider decide, the provider-specific ones before the generic
    [service_id]. *)
Theorem get_appid_precedence (self : LutrisInstaller) (d : list (PyVal * PyVal))
    (initial : PyVal) :
  (truthy (field d "is_dlc") = true ->
   get_appid self (PDict d) initial = Ok (field d "dlcid"))
  /\ (truthy (field d "is_dlc") = false -> truthy initial = true ->
      get_appid self (PDict d) initial = Ok initial)
  /\ (truthy (field d "is_dlc") = false -> truthy initial = false ->
      forall svc, service self = Some svc ->
        (svc_id svc = "steam" ->
         get_appid self (PDict d) initial
         = Ok (py_or (field d "steamid") (field d "service_id")))
        /\ (forall sd, svc_id svc = "gog" -> script self = PDict sd ->
              is_dict (default (PDict []) (assoc (PStr "game") sd)) = true ->
              exists game, py_get (script self) "game" (PDict []) = Ok (PDict game) /\
              get_appid self (PDict d) initial
              = Ok (py_or (field game "gogid")
                          (py_or (field d "gogid") (field d "service_id"))))
        /\ (forall sd, svc_id svc = "humblebundle" -> script self = PDict sd ->
              is_dict (default (PDict []) (assoc (PStr "game") sd)) = true ->
              exists game, py_get (script self) "game" (PDict []) = Ok (PDict game) /\
              get_appid self (PDict d) initial
              = Ok (py_or (field game "humbleid")
                          (py_or (field d "humblestoreid") (field d "service_id"))))).
Proof.
  unfold get_appid, field, or_else, py_or; simpl.
  split; [intros ->; reflexivity|].
  split; [intros -> ->; reflexivity|].
  intros -> -> svc ->.
  split; [intros ->; simpl; destruct (truthy _); reflexivity|].
  split; intros sd -> ->; simpl;
    destruct (default (PDict []) (assoc (PStr "game") sd)) as [| | | | |game];
    try discriminate; intros _; exists game; (split; [reflexivity|]); simpl;
    repeat match goal with
           | |- context [if truthy ?x then _ else _] => destruct (truthy x)
           end; reflexivity.
Qed.

End Binding.

(** ** Configuration composition *)

Section Dicts.

Lemma key_eq_str s k : key_eq (PStr s) k = true -> k = PStr s.
Proof.
  destruct k; simpl; try discriminate.
  intros Heq. apply String.eqb_eq in Heq. subst. reflexivity.
Qed.

Lemma key_eq_str_refl s : key_eq (PStr s) (PStr s) = true.
Proof. simpl. apply String.eqb_refl. Qed.

Lemma assoc_set_same s v d : assoc (PStr s) (assoc_set (PStr s) v d) = Some v.
Proof.
  induction d as [|[k x] d IH]; cbn [assoc assoc_set].
  - rewrite key_eq_str_refl. reflexivity.
  - destruct (key_eq (PStr s) k) eqn:Hk; cbn [assoc]; rewrite Hk; [reflexivity | exact IH].
Qed.

Lemma assoc_set_other s s' v d :
  s <> s' -> assoc (PStr s) (assoc_set (PStr s') v d) = assoc (PStr s) d.
Proof.
  intros Hne. apply String.eqb_neq in Hne.
  induction d as [|[k x] d IH]; cbn [assoc assoc_set].
  - cbn [key_eq]. rewrite Hne. reflexivity.
  - destruct (key_eq (PStr s') k) eqn:Hk; cbn [assoc].
    + apply key_eq_str in Hk. subst k. cbn [key_eq]. rewrite Hne. reflexivity.
    + rewrite IH. reflexivity.
Qed.

Lemma assoc_Some_In s v d : assoc (PStr s) d = Some v -> In (PStr s) (map fst d).
Proof.
  induction d as [|[k x] d IH]; cbn [assoc map fst In]; [discriminate|].
  destruct (key_eq (PStr s) k) eqn:Hk.
  - intros _. left. apply key_eq_str in Hk. exact Hk.
  - intros Hv. right. auto.
Qed.

Lemma In_assoc_Some s d : In (PStr s) (map fst d) -> exists v, assoc (PStr s) d = Some v.
Proof.
  induction d as [|[k x] d IH]; cbn [assoc map fst In]; [tauto|].
  intros [->|Hin].
  - rewrite key_eq_str_refl. eauto.
  - destruct (key_eq (PStr s) k); eauto.
Qed.

Lemma In_str_dec s (keys : list PyVal) : In (PStr s) keys \/ ~ In (PStr s) keys.
Proof.
  induction keys as [|k keys IH]; simpl; [tauto|].
  destruct IH as [IH|IH]; [tauto|].
  destruct (key_eq (PStr s) k) eqn:Hk.
  - apply key_eq_str in Hk. auto.
  - right. intros [->|Hin]; [|tauto].
    rewrite key_eq_str_refl in Hk. discriminate.
Qed.

End Dicts.

Section Composition.
Context `{External}.

Lemma normalize_bool_true v : true_like v = true -> normalize_bool v = PBool true.
Proof. unfold true_like, normalize_bool. intros ->. reflexivity. Qed.

Lemma normalize_bool_false v : false_like v = true -> normalize_bool v = PBool false.
Proof.
  unfold false_like, normalize_bool. intros Hf.
  destruct (String.eqb (lower (py_str v)) "true") eqn:Ht.
  - apply String.eqb_eq in Ht, Hf. congruence.
  - rewrite Hf. reflexivity.
Qed.

Lemma normalize_bool_bool b : normalize_bool (PBool b) = PBool b.
Proof. destruct b; reflexivity. Qed.

Lemma normalize_bool_list l : normalize_bool (PList l) = PList l.
Proof. reflexivity. Qed.

Lemma mapR_items interp confs :
  mapR (fun _conf => rbind (py_items _conf) (fun items => Ok (substitute_items interp items)))
       (map PDict confs)
  = Ok (map (substitute_items interp) confs).
Proof.
  induction confs as [|c confs IH]; simpl; [reflexivity|].
  rewrite IH. reflexivity.
Qed.

Lemma substitute_value_total interp s v d :
  launch_configs_ok d -> assoc (PStr s) d = Some v ->
  exists r, substitute_value interp (PStr s) v = Ok r.
Proof.
  intros Hlc Hv. unfold substitute_value.
  destruct (eq_str (PStr s) "launch_configs") eqn:Hk.
  - simpl in Hk. apply String.eqb_eq in Hk. subst s.
    destruct (Hlc v Hv) as (confs & ->).
    rewrite normalize_bool_list. simpl. rewrite mapR_items. eauto.
  - destruct (normalize_bool v); eauto.
Qed.

Lemma substitute_value_booleans interp s v :
  s <> "launch_configs" ->
  (true_like v = true -> substitute_value interp (PStr s) v = Ok (PBool true))
  /\ (false_like v = true -> substitute_value interp (PStr s) v = Ok (PBool false))
  /\ (forall b, v = PBool b -> substitute_value interp (PStr s) v = Ok (PBool b)).
Proof.
  intros Hne. unfold substitute_value.
  assert (eq_str (PStr s) "launch_configs" = false) as ->
    by (simpl; apply String.eqb_neq; exact Hne).
  repeat split.
  - intros Ht. rewrite normalize_bool_true by exact Ht. reflexivity.
  - intros Hf. rewrite normalize_bool_false by exact Hf. reflexivity.
  - intros b ->. rewrite normalize_bool_bool. reflexivity.
Qed.

(** The loop of [_substitute_config]: every key it has gone through holds
    the substituted form of its value, the others are as before. *)
Lemma substitute_keys_spec interp d keys :
  launch_configs_ok d ->
  (forall k, In k keys -> exists s, k = PStr s /\ In k (map fst d)) ->
  forall config0, exists config,
    substitute_keys interp (PDict d) keys config0 = Ok config
    /\ forall s,
         (In (PStr s) keys ->
          exists v, assoc (PStr s) d = Some v
                    /\ Ok (default PNone (assoc (PStr s) config))
                       = substitute_value interp (PStr s) v
                    /\ is_Some (assoc (PStr s) config))
         /\ (~ In (PStr s) keys -> assoc (PStr s) config = assoc (PStr s) config0).
Proof.
  intros Hlc. induction keys as [|key keys IH]; intros Hkeys config0;
    cbn [substitute_keys].
  - exists config0. split; [reflexivity|]. intros s. split; [intros [] | reflexivity].
  - destruct (Hkeys key (or_introl eq_refl)) as (s0 & -> & Hin0).
    cbn [is_str negb subscript dict_getitem hashable].
    destruct (In_assoc_Some _ _ Hin0) as (v0 & Hv0). rewrite Hv0.
    cbn [rbind].
    destruct (substitute_value_total interp s0 v0 d Hlc Hv0) as (r0 & Hr0).
    rewrite Hr0. cbn [rbind].
    destruct (IH (fun k Hk => Hkeys k (or_intror Hk)) (assoc_set (PStr s0) r0 config0))
      as (config & Hrun & Hspec).
    exists config. split; [exact Hrun|]. intros s. split.
    + intros Hin. destruct (In_str_dec s keys) as [Hlater|Hnot].
      * apply (Hspec s). exact Hlater.
      * destruct Hin as [[= <-]|Hin]; [|contradiction].
        exists v0. split; [exact Hv0|].
        rewrite (proj2 (Hspec s0) Hnot), assoc_set_same. simpl.
        split; [symmetry; exact Hr0 | eauto].
    + intros Hnot. rewrite (proj2 (Hspec s)) by (intros Hin; apply Hnot; right; exact Hin).
      apply assoc_set_other. intros ->. apply Hnot. left. reflexivity.
Qed.

Lemma launch_configs_not_boolean d v :
  launch_configs_ok d -> assoc (PStr "launch_configs") d = Some v ->
  true_like v = false /\ false_like v = false /\ forall b, v <> PBool b.
Proof.
  intros Hlc Hv. destruct (Hlc v Hv) as (confs & ->).
  repeat split. intros b Hb. discriminate Hb.
Qed.

(** C7, as amended: for a configuration mapping whose keys are all
    strings and whose [launch_configs] entry, if there is one, is a list
    of mappings, [_substitute_config] returns a configuration in which
    every value whose string form is "true" or "false" in any case is the
    corresponding boolean, and every boolean is itself.  This holds for
    every substitution function: the value is normalised before, and
    instead of, being substituted. *)
Theorem substitute_config_booleans (self : LutrisInstaller) (d : list (PyVal * PyVal)) :
  (forall k, In k (map fst d) -> is_str k = true) ->
  launch_configs_ok d ->
  exists config,
    _substitute_config self (PDict d) = Ok (PDict config)
    /\ forall s v,
         assoc (PStr s) d = Some v ->
         (true_like v = true -> assoc (PStr s) config = Some (PBool true))
         /\ (false_like v = true -> assoc (PStr s) config = Some (PBool false))
         /\ (forall b, v = PBool b -> assoc (PStr s) config = Some (PBool b)).
Proof.
  intros Hkeys Hlc.
  destruct (substitute_keys_spec (interpreter self) d (map fst d) Hlc)
    with (config0 := @nil (PyVal * PyVal)) as (config & Hrun & Hspec).
  { intros k Hin. specialize (Hkeys k Hin). destruct k; try discriminate. eauto. }
  exists config. split.
  { unfold _substitute_config. cbn [py_iter rbind]. rewrite Hrun. reflexivity. }
  intros s v Hv.
  destruct (String.eqb_spec s "launch_configs") as [->|Hne].
  { destruct (launch_configs_not_boolean d v Hlc Hv) as (Ht & Hf & Hb).
    repeat split; [congruence | congruence | intros b Hvb; destruct (Hb b Hvb)]. }
  destruct (proj1 (Hspec s) (assoc_Some_In s v d Hv)) as (v' & Hv' & Hval & [r Hr]).
  assert (v' = v) as -> by congruence.
  rewrite Hr in Hval |- *. cbn [from_option id] in Hval.
  destruct (substitute_value_booleans (interpreter self) s v Hne) as (Ht & Hf & Hb).
  repeat split.
  - intros Htl. rewrite (Ht Htl) in Hval. congruence.
  - intros Hfl. rewrite (Hf Hfl) in Hval. congruence.
  - intros b Hvb. rewrite (Hb b Hvb) in Hval. congruence.
Qed.

Lemma mapR_resolve game_files (l : list PyVal) :
  forallb hashable l = true ->
  mapR (resolve_game_file game_files) l
  = Ok (map (fun v => default v (assoc v game_files)) l).
Proof.
  induction l as [|v l IH]; cbn [forallb map mapR]; [reflexivity|].
  intros Hl. apply andb_prop in Hl as [Hv Hl].
  unfold resolve_game_file at 1, dict_contains, dict_getitem. rewrite Hv. cbn [rbind].
  rewrite (IH Hl). destruct (assoc v game_files) as [p|].
  - rewrite bool_decide_eq_true_2 by eauto. reflexivity.
  - rewrite bool_decide_eq_false_2 by (intros [? ?]; discriminate). reflexivity.
Qed.

Lemma mapR_resolve_unhashable game_files (l : list PyVal) :
  forallb hashable l = false ->
  mapR (resolve_game_file game_files) l = Raise TypeError.
Proof.
  induction l as [|v l IH]; cbn [forallb mapR]; [discriminate|].
  unfold resolve_game_file at 1, dict_contains, dict_getitem.
  destruct (hashable v) eqn:Hv; cbn [andb rbind]; [|reflexivity].
  intros Hl. rewrite (IH Hl). destruct (assoc v game_files) as [p|].
  - rewrite bool_decide_eq_true_2 by eauto. reflexivity.
  - rewrite bool_decide_eq_false_2 by (intros [? ?]; discriminate). reflexivity.
Qed.

(** C6, as amended: in [get_game_launcher_config], a single launcher
    value that is a non-empty string becomes the path the installed-files
    map gives for it; otherwise, with an install target, the joined path
    when that path exists on disk; otherwise it is kept.  Every element of
    a list of launcher values, whatever it is, becomes the path the map
    gives for it and is kept otherwise: the filesystem is not consulted
    for a list.  That is for a list whose elements can all be keys of a
    mapping; a list with an element that cannot -- a list or a mapping --
    raises TypeError. *)
Theorem get_game_launcher_config_resolution (self : LutrisInstaller)
    (game_files : list (PyVal * PyVal)) (launcher : PyVal) :
  (forall v, get_game_launcher (script self) = (launcher, PStr v) -> v <> "" ->
     (forall p, assoc (PStr v) game_files = Some p ->
                get_game_launcher_config self game_files = Ok (launcher, p))
     /\ (forall t, assoc (PStr v) game_files = None ->
                   target_path (interpreter self) = PStr t -> t <> "" ->
                   path_exists (path_join_str t v) = true ->
                   get_game_launcher_config self game_files
                   = Ok (launcher, PStr (path_join_str t v)))
     /\ (forall t, assoc (PStr v) game_files = None ->
                   target_path (interpreter self) = PStr t ->
                   t = "" \/ path_exists (path_join_str t v) = false ->
                   get_game_launcher_config self game_files = Ok (launcher, PStr v))
     /\ (assoc (PStr v) game_files = None ->
         target_path (interpreter self) = PNone ->
         get_game_launcher_config self game_files = Ok (launcher, PStr v)))
  /\ (forall l, get_game_launcher (script self) = (launcher, PList l) ->
       (forallb hashable l = true ->
        get_game_launcher_config self game_files
        = Ok (launcher, PList (map (fun v => default v (assoc v game_files)) l)))
       /\ (forallb hashable l = false ->
           get_game_launcher_config self game_files = Raise TypeError)).
Proof.
  split.
  - intros v Hl Hv.
    assert (truthy (PStr v) = true) as Htruthy
      by (cbn [truthy]; apply String.eqb_neq in Hv; rewrite Hv; reflexivity).
    unfold get_game_launcher_config. rewrite Hl.
    unfold resolve_launcher_value, dict_contains, dict_getitem.
    rewrite Htruthy. cbn [hashable rbind].
    repeat split.
    + intros p ->. reflexivity.
    + intros t -> -> Ht Hex.
      assert (truthy (PStr t) = true) as ->
        by (cbn [truthy]; apply String.eqb_neq in Ht; rewrite Ht; reflexivity).
      cbn [path_join rbind]. rewrite Hex. reflexivity.
    + intros t -> -> [-> | Hex]; [reflexivity|].
      destruct (truthy (PStr t)); [|reflexivity].
      cbn [path_join rbind]. rewrite Hex. reflexivity.
    + intros -> ->. reflexivity.
  - intros l Hl. unfold get_game_launcher_config. rewrite Hl. split; intros Hkeys.
    + rewrite (mapR_resolve _ _ Hkeys). reflexivity.
    + rewrite (mapR_resolve_unhashable _ _ Hkeys). reflexivity.
Qed.

End Composition.

(** ** File planning *)

Section Planning.
Context `{External}.

Implicit Types (w : World) (h : gmap loc InstallerFile) (l cs : list loc).

Lemma alloc_run f w :
  alloc f w = (Ok (fresh (dom (w_heap w))),
               mkWorld (<[fresh (dom (w_heap w)) := f]> (w_heap w)) (w_store w) (w_trace w))
  /\ w_heap w !! fresh (dom (w_heap w)) = None.
Proof.
  split; [reflexivity|]. apply not_elem_of_dom, is_fresh.
Qed.

(** Copying allocates: every object that existed is left as it was, and
    the copies are new, distinct objects. *)
Lemma copy_files_spec fid l w :
  exists cs h',
    copy_files fid l w = (Ok cs, mkWorld h' (w_store w) (w_trace w))
    /\ w_heap w ⊆ h'
    /\ Forall (fun c => w_heap w !! c = None /\ is_Some (h' !! c)) cs
    /\ NoDup cs
    /\ (Forall (fun r => is_Some (w_heap w !! r)) l ->
        map (fun c => h' !!! c) cs
        = List.filter (kept fid) (map (fun r => w_heap w !!! r) l)).
Proof.
  revert w. induction l as [|r l IH]; intros w; cbn [copy_files].
  - exists [], (w_heap w). destruct w; cbn. repeat split; auto using NoDup_nil_2.
  - unfold bind at 1, load, gets. cbn [fst snd].
    destruct (bool_decide (fid = Some (f_id (w_heap w !!! r)))) eqn:Hskip.
    + destruct (IH w) as (cs & h' & Hrun & Hsub & Hnew & Hnd & Hmap).
      exists cs, h'. repeat split; auto.
      intros Hlive. apply Forall_cons in Hlive as [_ Hlive].
      cbn [map List.filter]. unfold kept at 1. rewrite Hskip. cbn [negb]. auto.
    + destruct (alloc_run (w_heap w !!! r) w) as [Halloc Hfresh].
      set (c := fresh (dom (w_heap w))) in *.
      unfold bind at 1. rewrite Halloc.
      destruct (IH (mkWorld (<[c := w_heap w !!! r]> (w_heap w)) (w_store w) (w_trace w)))
        as (cs & h' & Hrun & Hsub & Hnew & Hnd & Hmap).
      cbn [w_heap w_store w_trace] in *.
      unfold bind at 1. rewrite Hrun. unfold ret.
      assert (h' !! c = Some (w_heap w !!! r)) as Hc
        by (eapply lookup_weaken; [apply lookup_insert_eq | exact Hsub]).
      exists (c :: cs), h'. split; [reflexivity|].
      split; [etrans; [apply insert_subseteq; exact Hfresh | exact Hsub]|].
      split.
      { constructor; [split; [exact Hfresh | eauto]|].
        eapply Forall_impl; [exact Hnew|]. cbn. intros c' [Hnone Hsome]. split; [|exact Hsome].
        destruct (decide (c = c')) as [<-|Hne]; [exact Hfresh|].
        rewrite lookup_insert_ne in Hnone by exact Hne. exact Hnone. }
      split.
      { constructor; [|exact Hnd]. intros Hin.
        rewrite Forall_forall in Hnew. destruct (Hnew c Hin) as [Hnone _].
        rewrite lookup_insert_eq in Hnone. discriminate. }
      intros Hlive. apply Forall_cons in Hlive as [Hr Hlive].
      cbn [map List.filter]. unfold kept at 1. rewrite Hskip. cbn [negb].
      rewrite (lookup_total_correct _ _ _ Hc). f_equal.
      rewrite Hmap.
      * f_equal. apply map_ext_in. intros r' Hr'.
        rewrite Forall_forall in Hlive. destruct (Hlive r') as [f' Hf'].
        { apply list_elem_of_In. exact Hr'. }
        apply lookup_total_insert_ne. intros <-. congruence.
      * eapply Forall_impl; [exact Hlive|]. cbn. intros r' [f' Hf'].
        exists f'. rewrite lookup_insert_ne; [exact Hf'|]. intros <-. congruence.
Qed.

Lemma substitute_url_run interp r w :
  exists evs,
    substitute_url interp r w
    = (Ok tt, mkWorld (<[r := planned interp (w_heap w !!! r)]> (w_heap w))
                      (w_store w) (w_trace w ++ evs))
    /\ Forall (fun e => is_file_request e = false) evs.
Proof.
  unfold substitute_url, bind, load, store_file, emit, gets, modify, planned.
  cbn [w_heap w_store w_trace]. rewrite lookup_total_insert_eq.
  destruct (is_moddb_url _).
  - eexists [_]. cbn [w_heap w_store w_trace]. 
    rewrite insert_insert_eq. split; [reflexivity | repeat constructor].
  - exists []. rewrite app_nil_r. split; [reflexivity | constructor].
Qed.

(** The rewriting loop touches the objects of the working list only. *)
Lemma substitute_urls_spec interp l w :
  exists h' evs,
    substitute_urls interp l w = (Ok tt, mkWorld h' (w_store w) (w_trace w ++ evs))
    /\ Forall (fun e => is_file_request e = false) evs
    /\ (forall r, r ∉ l -> h' !! r = w_heap w !! r)
    /\ (NoDup l -> forall r, r ∈ l -> h' !! r = Some (planned interp (w_heap w !!! r))).
Proof.
  revert w. induction l as [|c l IH]; intros w; cbn [substitute_urls].
  - exists (w_heap w), []. rewrite app_nil_r. destruct w; cbn.
    repeat split; auto. intros _ r Hr. apply elem_of_nil in Hr as [].
  - destruct (substitute_url_run interp c w) as (evs1 & Hrun1 & Hev1).
    unfold bind at 1. rewrite Hrun1.
    destruct (IH (mkWorld (<[c := planned interp (w_heap w !!! c)]> (w_heap w))
                          (w_store w) (w_trace w ++ evs1)))
      as (h' & evs2 & Hrun2 & Hev2 & Hother & Hin).
    cbn [w_heap w_store w_trace] in *.
    exists h', (evs1 ++ evs2)%list. rewrite Hrun2, <- app_assoc.
    split; [reflexivity|]. split; [apply Forall_app; auto|]. split.
    + intros r Hr. apply not_elem_of_cons in Hr as [Hne Hr].
      rewrite (Hother r Hr). apply lookup_insert_ne. congruence.
    + intros Hnd r Hr. apply NoDup_cons in Hnd as [Hc Hnd].
      destruct (decide (r ∈ l)) as [Hrl|Hrl].
      * rewrite (Hin Hnd r Hrl). f_equal. f_equal.
        apply lookup_total_insert_ne. intros <-. contradiction.
      * apply elem_of_cons in Hr as [->|Hr]; [|contradiction].
        rewrite (Hother c Hrl). apply lookup_insert_eq.
Qed.

Lemma alloc_all_spec fs w :
  exists rs h',
    alloc_all fs w = (Ok rs, mkWorld h' (w_store w) (w_trace w))
    /\ w_heap w ⊆ h'
    /\ length rs = length fs.
Proof.
  revert w. induction fs as [|f fs IH]; intros w; cbn [alloc_all].
  - exists [], (w_heap w). destruct w; cbn. auto.
  - destruct (alloc_run f w) as [Halloc Hfresh].
    unfold bind at 1. rewrite Halloc.
    destruct (IH (mkWorld (<[fresh (dom (w_heap w)) := f]> (w_heap w)) (w_store w) (w_trace w)))
      as (rs & h' & Hrun & Hsub & Hlen).
    cbn [w_heap w_store w_trace] in *.
    unfold bind at 1. rewrite Hrun. unfold ret.
    eexists (_ :: rs), h'. split; [reflexivity|]. split.
    + etrans; [apply insert_subseteq; exact Hfresh | exact Hsub].
    + cbn. congruence.
Qed.

Lemma in_world_run {A} (m : M World A) (st : State) r w' :
  m (st_world st) = (r, w') -> in_world m st = (r, mkState (st_self st) w').
Proof. unfold in_world. intros ->. reflexivity. Qed.

Lemma check_session_run (s : LutrisInstaller) w :
  check_session s w
  = match service s with
    | Some svc =>
        if svc_online svc then
          (if is_connected svc then Ok tt else Raise AuthenticationError,
           logged (EvIsConnected (svc_id svc)) w)
        else (Ok tt, w)
    | None => (Ok tt, w)
    end.
Proof.
  unfold check_session. destruct (service s) as [svc|]; [|reflexivity].
  destruct (svc_online svc); [|reflexivity].
  unfold bind, emit, modify, logged. destruct (is_connected svc); reflexivity.
Qed.

(** What the request to the provider leaves behind, whatever it answers:
    the declared list is the same and no object that existed is changed. *)
Lemma fetch_service_files_frame patch fid svc (st : State) :
  exists st',
    fetch_service_files patch fid svc st = (Ok tt, st')
    /\ script_files (st_self st') = script_files (st_self st)
    /\ w_heap (st_world st) ⊆ w_heap (st_world st').
Proof.
  destruct st as [s w].
  unfold fetch_service_files, select_extras, request_files.
  unfold bind, in_world, emit, update_self, self, gets, modify, ret.
  cbn [st_self st_world w_heap w_store w_trace fst snd].
  destruct (svc_has_extras svc), (truthy patch);
    cbn [st_self st_world w_heap w_store w_trace fst snd service set_service
         interpreter from_option Datatypes.id];
    match goal with
    | |- context [match ?r with Some _ => _ | None => _ end] =>
        destruct r as [[|f fs]|]
    end;
    cbn [st_self st_world w_heap w_store w_trace fst snd];
    try (eexists; split; [reflexivity|]; split; [reflexivity|];
         apply insert_subseteq, not_elem_of_dom, is_fresh).
  all: match goal with
       | |- context [alloc_all ?l ?w0] =>
           destruct (alloc_all_spec l w0) as (rs & h' & -> & Hsub & _)
       end;
       eexists; split; [reflexivity|]; split; [reflexivity | exact Hsub].
Qed.


(** [prepare_game_files] up to the request to the provider: the working
    list holds new objects, one rewritten copy per declared file that is
    not held aside. *)
Lemma prepare_game_files_copies patch (st : State) w1 :
  script_files (st_self st) <> [] ->
  check_session (st_self st) (st_world st) = (Ok tt, w1) ->
  let s := st_self st in
  let h := w_heap (st_world st) in
  let fid := match service s with
             | Some _ => first_user_provided h (script_files s)
             | None => None
             end in
  exists cs h2 evs,
    prepare_game_files patch st
    = match fid, service s with
      | Some id, Some svc =>
          if negb (String.eqb id "") then fetch_service_files patch id svc else ret tt
      | _, _ => ret tt
      end (mkState (set_files cs s) (mkWorld h2 (w_store w1) (w_trace w1 ++ evs)))
    /\ h ⊆ h2
    /\ Forall (fun e => is_file_request e = false) evs
    /\ Forall (fun c => is_Some (h2 !! c)) cs
    /\ (Forall (fun r => is_Some (h !! r)) (script_files s) ->
        map (fun c => h2 !!! c) cs
        = map (planned (interpreter s))
              (List.filter (kept fid) (map (fun r => h !!! r) (script_files s)))).
Proof.
  intros Hfiles Hsession s h fid. subst s h.
  assert (w_heap w1 = w_heap (st_world st) /\ w_store w1 = w_store (st_world st)) as [Hh1 Hs1].
  { rewrite check_session_run in Hsession.
    apply (f_equal snd) in Hsession.
    destruct (service (st_self st)) as [svc|]; [destruct (svc_online svc)|];
      cbn [snd] in Hsession; subst w1; auto. }
  destruct (copy_files_spec fid (script_files (st_self st)) w1)
    as (cs & h1 & Hcopy & Hsub1 & Hnew & Hnd & Hmap1).
  destruct (substitute_urls_spec (interpreter (st_self st)) cs (mkWorld h1 (w_store w1) (w_trace w1)))
    as (h2 & evs & Hsubst & Hevs & Hother & Hin).
  cbn [w_heap w_store w_trace] in *.
  exists cs, h2, evs. split.
  { unfold prepare_game_files. unfold bind at 1. unfold self, gets.
    destruct (script_files (st_self st)) as [|r0 l0] eqn:Hsf; [contradiction|].
    unfold bind at 1. rewrite (in_world_run _ st _ _ Hsession).
    unfold bind at 1.
    assert ((match service (st_self st) with
             | Some _ => in_world (get_user_provided_file (st_self st))
             | None => ret None
             end) (mkState (st_self st) w1) = (Ok fid, mkState (st_self st) w1)) as ->.
    { subst fid. destruct (service (st_self st)); [|reflexivity].
      unfold in_world, get_user_provided_file, gets. cbn [st_world st_self].
      rewrite Hh1, Hsf. reflexivity. }
    unfold bind at 1. rewrite (in_world_run _ (mkState (st_self st) w1) _ _ Hcopy).
    unfold bind at 1. unfold update_self at 1, modify. cbn [st_self st_world].
    unfold bind at 1.
    rewrite (in_world_run _ (mkState (set_files cs (st_self st)) (mkWorld h1 (w_store w1) (w_trace w1))) _ _ Hsubst).
    reflexivity. }
  rewrite Hh1 in *.
  split.
  { apply map_subseteq_spec. intros i x Hi.
    rewrite Hother.
    - eapply lookup_weaken; [exact Hi | exact Hsub1].
    - intros Hic. rewrite Forall_forall in Hnew. destruct (Hnew i Hic). congruence. }
  split; [exact Hevs|]. split.
  { rewrite Forall_forall. intros c Hc. rewrite (Hin Hnd c Hc). eauto. }
  intros Hlive. rewrite <- (Hmap1 Hlive), map_map.
  apply map_ext_in. intros c Hc. apply lookup_total_correct.
  apply Hin; [exact Hnd | apply list_elem_of_In; exact Hc].
Qed.

Lemma prepare_game_files_no_files patch (st : State) :
  script_files (st_self st) = [] -> prepare_game_files patch st = (Ok tt, st).
Proof.
  intros Hsf. unfold prepare_game_files, bind, self, gets. rewrite Hsf. reflexivity.
Qed.

Lemma prepare_game_files_raise patch (st : State) e w1 :
  script_files (st_self st) <> [] ->
  check_session (st_self st) (st_world st) = (Raise e, w1) ->
  prepare_game_files patch st = (Raise e, mkState (st_self st) w1).
Proof.
  intros Hsf Hsession. unfold prepare_game_files. unfold bind at 1. unfold self, gets.
  destruct (script_files (st_self st)); [contradiction|].
  unfold bind at 1. rewrite (in_world_run _ st _ _ Hsession). reflexivity.
Qed.

(** C3, as amended: for every install with at least one declared file
    and a bound provider that is online but not connected,
    [prepare_game_files] raises an authentication error before it changes
    anything: the installer object (its working list included), the file
    objects and the store are as before, and the only call made to the
    provider is the session check -- no file-list request. *)
Theorem prepare_game_files_unauthenticated patch (st : State) svc :
  script_files (st_self st) <> [] ->
  service (st_self st) = Some svc ->
  svc_online svc = true ->
  is_connected svc = false ->
  prepare_game_files patch st
  = (Raise AuthenticationError,
     mkState (st_self st) (logged (EvIsConnected (svc_id svc)) (st_world st))).
Proof.
  intros Hsf Hsvc Honline Hconn.
  apply prepare_game_files_raise; [exact Hsf|].
  rewrite check_session_run, Hsvc, Honline, Hconn. reflexivity.
Qed.

(** C9: whatever [prepare_game_files] does -- return early, raise, or
    build the plan --, the declared list [script_files] is the same list
    afterwards and every file object that existed before the call is
    unchanged: URL substitution and the moddb rewriting only reach the
    copies made for the working list. *)
Theorem prepare_game_files_keeps_declared_files patch (st : State) :
  script_files (st_self (snd (prepare_game_files patch st))) = script_files (st_self st)
  /\ w_heap (st_world st) ⊆ w_heap (st_world (snd (prepare_game_files patch st))).
Proof.
  destruct (script_files (st_self st)) as [|r0 l0] eqn:Hsf.
  { rewrite prepare_game_files_no_files by exact Hsf. cbn [snd]. auto. }
  assert (script_files (st_self st) <> []) as Hne by (rewrite Hsf; discriminate).
  rewrite <- Hsf.
  destruct (check_session (st_self st) (st_world st)) as [[[]|e] w1] eqn:Hsession.
  - destruct (prepare_game_files_copies patch st w1 Hne Hsession)
      as (cs & h2 & evs & -> & Hsub & _).
    set (st2 := mkState (set_files cs (st_self st)) _).
    assert (script_files (st_self st2) = script_files (st_self st)
            /\ w_heap (st_world st) ⊆ w_heap (st_world st2)) as [Hsf2 Hsub2]
      by (split; [reflexivity | exact Hsub]).
    clearbody st2.
    repeat match goal with
           | |- context [match ?x with Some _ => _ | None => _ end] => destruct x
           | |- context [if ?b then _ else _] => destruct b
           end;
      try (cbn [ret snd]; auto; fail).
    destruct (fetch_service_files_frame patch s s0 st2) as (st' & -> & Hsf' & Hsub').
    cbn [snd]. split; [congruence | etrans; eassumption].
  - rewrite (prepare_game_files_raise patch st e w1 Hne Hsession). cbn [snd st_self st_world].
    split; [reflexivity|].
    rewrite check_session_run in Hsession. apply (f_equal snd) in Hsession.
    destruct (service (st_self st)) as [svc|]; [destruct (svc_online svc)|];
      cbn [snd] in Hsession; subst w1; reflexivity.
Qed.



End Planning.

(** * Further properties *)

(** ** The game folder *)

Section Folder.

Lemma command_names_commands commands :
  forallb is_command commands = true ->
  exists names,
    command_names commands = inr names
    /\ existsb (fun name => eq_str name "insert-disc") names
       = existsb is_insert_disc commands.
Proof.
  induction commands as [|c commands IH]; cbn [forallb command_names].
  - exists []. auto.
  - intros Hall. apply andb_prop in Hall as [Hc Hall].
    destruct (IH Hall) as (names & -> & Hnames).
    destruct c as [| | | | |[|[k v] d]]; try discriminate Hc.
    cbn [command_name]. exists (k :: names). split; [reflexivity|].
    cbn [existsb is_insert_disc]. rewrite Hnames. reflexivity.
Qed.

Lemma command_names_empty_mapping pre post :
  forallb is_command pre = true ->
  command_names (pre ++ PDict [] :: post) = inl FolderIndexError.
Proof.
  induction pre as [|c pre IH]; cbn [forallb app command_names].
  - reflexivity.
  - intros Hall. apply andb_prop in Hall as [Hc Hall]. rewrite (IH Hall).
    destruct c as [| | | | |[|[k v] d]]; try discriminate Hc. reflexivity.
Qed.

Lemma command_names_inv commands names :
  command_names commands = inr names ->
  forallb is_command commands = true
  /\ existsb (fun name => eq_str name "insert-disc") names
     = existsb is_insert_disc commands.
Proof.
  revert names. induction commands as [|c commands IH]; intros names; cbn [command_names].
  - intros [= <-]. auto.
  - destruct c as [| | | | |[|[k v] d]]; cbn [command_name]; try discriminate.
    destruct (command_names commands) as [e|names']; [discriminate|].
    intros [= <-]. destruct (IH names' eq_refl) as [Hall Hnames].
    cbn [forallb is_command existsb is_insert_disc andb]. rewrite Hnames. auto.
Qed.

Lemma command_names_error commands e :
  command_names commands = inl e ->
  e = FolderIndexError \/ e = FolderRaise AttributeError.
Proof.
  induction commands as [|c commands IH]; cbn [command_names]; [discriminate|].
  destruct c as [| | | | |[|[k v] d]]; cbn [command_name];
    try (intros [= <-]; auto; fail).
  destruct (command_names commands) as [e'|names]; [|discriminate].
  intros [= <-]. apply IH. reflexivity.
Qed.

(** X6: [creates_game_folder] answers yes only for a stand-alone install, not
    on steam, whose script has installer commands, and then only for a
    reason: declared files, a gog or prefix option in the game section,
    or an "insert-disc" command. *)
Theorem creates_game_folder_true (self : LutrisInstaller) :
  creates_game_folder self = Folder true ->
  truthy (requires self) = false
  /\ truthy (extends self) = false
  /\ eq_str (runner self) "steam" = false
  /\ exists sd commands,
       script self = PDict sd
       /\ assoc (PStr "installer") sd = Some commands
       /\ truthy commands = true
       /\ (script_files self <> []
           \/ (exists gog, game_option (script self) "gog" = Ok gog /\ truthy gog = true)
           \/ (exists prefix,
                 game_option (script self) "prefix" = Ok prefix /\ truthy prefix = true)
           \/ (exists cmds,
                 py_iter commands = Ok cmds
                 /\ forallb is_command cmds = true
                 /\ existsb is_insert_disc cmds = true)).
Proof.
  unfold creates_game_folder, py_or.
  destruct (truthy (requires self)) eqn:Hr; [rewrite Hr; discriminate|].
  destruct (truthy (extends self)) eqn:He; [discriminate|].
  destruct (eq_str (runner self) "steam") eqn:Hst; [discriminate|].
  destruct (script self) as [| | | | |sd] eqn:Hs; cbn [py_get]; try discriminate.
  destruct (assoc (PStr "installer") sd) as [commands|] eqn:Hc;
    cbn [from_option Datatypes.id]; [|discriminate].
  destruct (truthy commands) eqn:Htc; cbn [negb]; [|discriminate].
  intros Hrun. repeat (split; [reflexivity|]).
  exists sd, commands. split; [reflexivity|]. split; [exact Hc|]. split; [exact Htc|].
  destruct (script_files self) as [|r l]; [|left; discriminate]. right.
  destruct (game_option (PDict sd) "gog") as [gog|e] eqn:Hgog; [|discriminate].
  destruct (truthy gog) eqn:Htg; [left; eauto|]. right.
  destruct (game_option (PDict sd) "prefix") as [prefix|e] eqn:Hp; [|discriminate].
  destruct (truthy prefix) eqn:Htp; [left; eauto|]. right.
  unfold has_insert_disc in Hrun. cbn [py_get rbind] in Hrun.
  rewrite Hc in Hrun. cbn [from_option Datatypes.id] in Hrun.
  destruct (py_iter commands) as [cmds|e]; [|discriminate].
  destruct (command_names cmds) as [e|names] eqn:Hnames;
    [destruct (command_names_error cmds e Hnames); subst e; discriminate|].
  destruct (command_names_inv cmds names Hnames) as [Hall Hex].
  exists cmds. split; [reflexivity|]. split; [exact Hall|].
  rewrite <- Hex. congruence.
Qed.

(** X7: With declared files the answer is yes without a look at the game
    section or at the commands, which may then be malformed. *)
Theorem creates_game_folder_files (self : LutrisInstaller) sd :
  truthy (requires self) = false ->
  truthy (extends self) = false ->
  eq_str (runner self) "steam" = false ->
  script self = PDict sd ->
  truthy (field sd "installer") = true ->
  script_files self <> [] ->
  creates_game_folder self = Folder true.
Proof.
  intros Hr He Hst Hs Hc Hfiles. unfold creates_game_folder, py_or.
  rewrite Hr, He, Hst, Hs. cbn [py_get]. fold (field sd "installer"). rewrite Hc.
  cbn [negb]. destruct (script_files self); [contradiction | reflexivity].
Qed.

(** X8: Without declared files and without gog or prefix option, the answer
    is whether a command is named "insert-disc"; one empty mapping among
    the commands makes the property raise IndexError. *)
Theorem creates_game_folder_commands (self : LutrisInstaller) sd cmds :
  truthy (requires self) = false ->
  truthy (extends self) = false ->
  eq_str (runner self) "steam" = false ->
  script self = PDict sd ->
  assoc (PStr "installer") sd = Some (PList cmds) ->
  cmds <> [] ->
  script_files self = [] ->
  assoc (PStr "game") sd = None ->
  (forallb is_command cmds = true ->
   creates_game_folder self = Folder (existsb is_insert_disc cmds))
  /\ (forall pre post, cmds = (pre ++ PDict [] :: post)%list ->
       forallb is_command pre = true ->
       creates_game_folder self = FolderIndexError).
Proof.
  intros Hr He Hst Hs Hc Hne Hfiles Hgame.
  assert (creates_game_folder self = has_insert_disc (script self)) as ->.
  { unfold creates_game_folder, py_or, game_option.
    rewrite Hr, He, Hst, Hs, Hfiles. cbn [py_get rbind]. rewrite Hc, Hgame.
    cbn [from_option Datatypes.id py_get assoc truthy negb].
    destruct cmds; [contradiction | reflexivity]. }
  unfold has_insert_disc. rewrite Hs. cbn [py_get rbind]. rewrite Hc.
  cbn [from_option Datatypes.id py_iter]. split.
  - intros Hall. destruct (command_names_commands cmds Hall) as (names & -> & ->).
    reflexivity.
  - intros pre post -> Hpre. rewrite (command_names_empty_mapping pre post Hpre).
    reflexivity.
Qed.

End Folder.

(* vocab2 *)

Section Validation2.
Context `{External}.

(** The list [get_errors] returns, finding by finding. *)
Lemma get_errors_findings (self : LutrisInstaller) sd errors :
  script self = PDict sd ->
  get_errors self = Ok errors ->
  errors = (finding (negb (truthy (runner self))) "Missing field 'runner'"
            ++ finding (negb (truthy (game_name self))) "Missing field 'game_name'"
            ++ finding (negb (truthy (game_slug self))) "Missing field 'game_slug'"
            ++ finding (libretro_core_missing self sd) "Missing libretro core in game section"
            ++ finding (steam_appid_missing self sd) "Missing appid for Steam game"
            ++ finding (truthy (field sd "requires") && truthy (field sd "extends"))
                       both_error)%list.
Proof.
  intros Hs. unfold get_errors, check_libretro, check_steam, check_requires_extends,
    libretro_core_missing, steam_appid_missing, missing_field, append, field, both_error.
  rewrite Hs. cbn [is_dict negb py_get py_getitem str_in rbind].
  destruct (eq_str (runner self) "libretro") eqn:Hl.
  - assert (eq_str (runner self) "steam" = false) as ->.
    { destruct (runner self); try reflexivity. cbn [eq_str] in *.
      apply String.eqb_eq in Hl. subst. reflexivity. }
    destruct (assoc (PStr "game") sd) as [game|]; cbn.
    + destruct (str_in "core" game) as [b|e]; cbn; [|discriminate].
      destruct b, (truthy (runner self)), (truthy (game_name self)),
        (truthy (game_slug self)), (truthy (default PNone (assoc (PStr "requires") sd))),
        (truthy (default PNone (assoc (PStr "extends") sd)));
        cbn; intros [= <-]; reflexivity.
    + destruct (truthy (runner self)), (truthy (game_name self)),
        (truthy (game_slug self)), (truthy (default PNone (assoc (PStr "requires") sd))),
        (truthy (default PNone (assoc (PStr "extends") sd)));
        cbn; intros [= <-]; reflexivity.
  - destruct (eq_str (runner self) "steam") eqn:Hst; cbn.
    + destruct (assoc (PStr "game") sd) as [game|]; cbn.
      * destruct game; cbn; try discriminate.
        destruct (truthy (default PNone (assoc (PStr "appid") d))),
          (truthy (runner self)), (truthy (game_name self)),
          (truthy (game_slug self)), (truthy (default PNone (assoc (PStr "requires") sd))),
          (truthy (default PNone (assoc (PStr "extends") sd)));
          cbn; intros [= <-]; reflexivity.
      * destruct (truthy (runner self)), (truthy (game_name self)),
          (truthy (game_slug self)), (truthy (default PNone (assoc (PStr "requires") sd))),
          (truthy (default PNone (assoc (PStr "extends") sd)));
          cbn; intros [= <-]; reflexivity.
    + destruct (assoc (PStr "game") sd) as [game|];
        destruct (truthy (runner self)), (truthy (game_name self)),
          (truthy (game_slug self)), (truthy (default PNone (assoc (PStr "requires") sd))),
          (truthy (default PNone (assoc (PStr "extends") sd)));
          cbn; intros [= <-]; reflexivity.
Qed.

Ltac findings_cases self sd :=
  destruct (truthy (runner self)), (truthy (game_name self)), (truthy (game_slug self)),
    (libretro_core_missing self sd), (steam_appid_missing self sd),
    (truthy (field sd "requires")), (truthy (field sd "extends"));
  cbn [finding negb andb app In];
  repeat split; intros; 
  repeat match goal with
         | Hor : _ \/ _ |- _ => destruct Hor
         | Hand : _ /\ _ |- _ => destruct Hand
         | Hf : False |- _ => destruct Hf
         end;
  try discriminate; try tauto; auto 10.

(** X1: For a script that is a mapping, [get_errors] reports a missing
    field exactly for each of runner, game name and game slug that is
    empty or otherwise falsy. *)
Theorem get_errors_missing_fields (self : LutrisInstaller) sd errors :
  script self = PDict sd ->
  get_errors self = Ok errors ->
  (In "Missing field 'runner'" errors <-> truthy (runner self) = false)
  /\ (In "Missing field 'game_name'" errors <-> truthy (game_name self) = false)
  /\ (In "Missing field 'game_slug'" errors <-> truthy (game_slug self) = false).
Proof.
  intros Hs Hrun. rewrite (get_errors_findings self sd errors Hs Hrun).
  unfold both_error. findings_cases self sd.
Qed.

(** X2: The runner-specific findings: the libretro message is reported
    exactly for a libretro runner whose script has no game section or no
    core in it, the steam message exactly for a steam runner whose script
    has no game section or no appid in it. *)
Theorem get_errors_runner_findings (self : LutrisInstaller) sd errors :
  script self = PDict sd ->
  get_errors self = Ok errors ->
  (In "Missing libretro core in game section" errors
   <-> libretro_core_missing self sd = true)
  /\ (In "Missing appid for Steam game" errors <-> steam_appid_missing self sd = true).
Proof.
  intros Hs Hrun. rewrite (get_errors_findings self sd errors Hs Hrun).
  unfold both_error. findings_cases self sd.
Qed.

(** X3: The message about [requires] and [extends] is reported exactly when
    the script sets both. *)
Theorem get_errors_both_iff (self : LutrisInstaller) sd errors :
  script self = PDict sd ->
  get_errors self = Ok errors ->
  (In both_error errors <->
   truthy (field sd "requires") = true /\ truthy (field sd "extends") = true).
Proof.
  intros Hs Hrun. rewrite (get_errors_findings self sd errors Hs Hrun).
  unfold both_error. findings_cases self sd.
Qed.

Ltac returns_case :=
  repeat match goal with
         | |- context [if ?b then _ else _] => destruct b; cbn
         end;
  (split;
   [ split;
     [ intros Ha; first [reflexivity | destruct Ha as [? Ha]; discriminate Ha]
     | intros Hb; first [discriminate Hb | eauto] ]
   | intros Hb; first [discriminate Hb | reflexivity] ]).

Lemma get_errors_domain (self : LutrisInstaller) sd :
  script self = PDict sd ->
  ((exists errors, get_errors self = Ok errors) <-> game_section_readable self = true)
  /\ (game_section_readable self = false ->
      get_errors self
      = Raise (if eq_str (runner self) "steam" then AttributeError else TypeError)).
Proof.
  intros Hs. unfold get_errors, check_libretro, check_steam, check_requires_extends,
    game_section_readable.
  rewrite Hs. cbn [is_dict negb py_get py_getitem str_in rbind].
  destruct (eq_str (runner self) "libretro") eqn:Hl.
  - assert (eq_str (runner self) "steam" = false) as ->.
    { destruct (runner self); try reflexivity. cbn [eq_str] in *.
      apply String.eqb_eq in Hl. subst. reflexivity. }
    destruct (assoc (PStr "game") sd) as [game|]; cbn; [destruct game; cbn|];
      returns_case.
  - destruct (eq_str (runner self) "steam") eqn:Hst; cbn;
      (destruct (assoc (PStr "game") sd) as [game|]; cbn; [destruct game; cbn|]);
      returns_case.
Qed.

(** X4: For a script that is a mapping, [get_errors] returns a list exactly
    when its runner-specific check can read the game section; when the
    check cannot, it raises AttributeError for a steam runner, whose check
    calls [get] on the section, and TypeError otherwise. *)
Theorem get_errors_returns_iff (self : LutrisInstaller) sd :
  script self = PDict sd ->
  ((exists errors, get_errors self = Ok errors) <-> game_section_readable self = true)
  /\ (game_section_readable self = false ->
      get_errors self
      = Raise (if eq_str (runner self) "steam" then AttributeError else TypeError)).
Proof. apply get_errors_domain. Qed.

(** X5: A script passes validation, that is [get_errors] returns the empty
    list, exactly when the game section is readable, runner, game name
    and game slug are set, a libretro script names its core, a steam
    script its appid, and the script does not set both [requires] and
    [extends]. *)
Theorem get_errors_valid (self : LutrisInstaller) sd :
  script self = PDict sd ->
  (get_errors self = Ok [] <->
   game_section_readable self = true
   /\ truthy (runner self) = true
   /\ truthy (game_name self) = true
   /\ truthy (game_slug self) = true
   /\ libretro_core_missing self sd = false
   /\ steam_appid_missing self sd = false
   /\ (truthy (field sd "requires") = false \/ truthy (field sd "extends") = false)).
Proof.
  intros Hs. split.
  - intros Hrun.
    split; [apply (proj1 (get_errors_domain self sd Hs)); eauto|].
    pose proof (get_errors_findings self sd [] Hs Hrun) as Hshape.
    revert Hshape.
    destruct (truthy (runner self)), (truthy (game_name self)), (truthy (game_slug self)),
      (libretro_core_missing self sd), (steam_appid_missing self sd),
      (truthy (field sd "requires")), (truthy (field sd "extends"));
      cbn [finding negb andb app]; intros Hshape; try discriminate Hshape; auto 10.
  - intros (Hread & Hr & Hn & Hg & Hl & Hst & Hboth).
    destruct (proj2 (proj1 (get_errors_domain self sd Hs)) Hread) as [errors Hrun].
    rewrite Hrun. f_equal.
    rewrite (get_errors_findings self sd errors Hs Hrun), Hr, Hn, Hg, Hl, Hst.
    destruct Hboth as [-> | ->]; [reflexivity|].
    destruct (truthy (field sd "requires")); reflexivity.
Qed.

End Validation2.

(** ** Provider inference *)

Section Inference.
Context `{External}.

(** X9: A provider that [get_service] infers comes from the registry under
    one of three names, for the reason the name stands for; the version
    is only read when the runner did not give steam. *)
Theorem get_service_inferred (self : LutrisInstaller) svc :
  get_service self None = Ok (Some svc) ->
  (str_in "steam" (runner self) = Ok true /\ SERVICES "steam" = Some svc)
  \/ exists v,
       version self = PStr v
       /\ ((contains "humble" (lower v) = true /\ SERVICES "humblebundle" = Some svc)
           \/ (contains "gog" (lower v) = true /\ SERVICES "gog" = Some svc
               /\ (contains "humble" (lower v) = false
                   \/ SERVICES "humblebundle" = None))).
Proof.
  unfold get_service, registered.
  destruct (str_in "steam" (runner self)) as [steam|e]; cbn [rbind]; [|discriminate].
  destruct (steam && bool_decide (is_Some (SERVICES "steam"))) eqn:Hsteam.
  - apply andb_prop in Hsteam as [-> _]. intros [= Hs]. left. auto.
  - destruct (version self) as [| | |v| |]; cbn [py_lower rbind]; try discriminate.
    destruct (contains "humble" (lower v)) eqn:Hh; cbn [andb].
    + destruct (SERVICES "humblebundle") as [h|] eqn:Hreg.
      * rewrite bool_decide_eq_true_2 by eauto. intros [= <-]. right. exists v. auto.
      * rewrite bool_decide_eq_false_2 by (intros [? ?]; discriminate).
        destruct (contains "gog" (lower v) && _) eqn:Hg; [|discriminate].
        apply andb_prop in Hg as [Hg _]. intros [= Hs]. right. exists v. auto 10.
    + destruct (contains "gog" (lower v) && _) eqn:Hg; [|discriminate].
      apply andb_prop in Hg as [Hg _]. intros [= Hs]. right. exists v. auto 10.
Qed.

(** X10: A provider that is given is returned as it is.  Without one, a
    runner that contains "steam" gives the registered steam provider
    without a look at the version; when steam does not apply, a version
    that is not a string raises AttributeError; a runner that is a
    number, a boolean or [None] raises TypeError. *)
Theorem get_service_ill_typed (self : LutrisInstaller) :
  (forall svc, get_service self (Some svc) = Ok (Some svc))
  /\ (forall r svc, runner self = PStr r -> contains "steam" r = true ->
        SERVICES "steam" = Some svc -> get_service self None = Ok (Some svc))
  /\ (forall r, runner self = PStr r -> contains "steam" r && registered "steam" = false ->
        is_str (version self) = false -> get_service self None = Raise AttributeError)
  /\ (hashable (runner self) = true -> is_str (runner self) = false ->
      get_service self None = Raise TypeError).
Proof.
  unfold get_service. repeat split.
  - intros r svc -> Hc Hreg. cbn [str_in rbind]. unfold registered.
    rewrite Hc, Hreg, bool_decide_eq_true_2 by eauto. reflexivity.
  - intros r -> Hsteam Hv. cbn [str_in rbind]. rewrite Hsteam.
    destruct (version self); try discriminate; reflexivity.
  - intros Hh Hs. destruct (runner self); try discriminate; reflexivity.
Qed.

End Inference.

(** ** Files the user provides *)

Section Manual.
Context `{External}.

Lemma first_user_provided_spec (h : gmap loc InstallerFile) (l : list loc) :
  (first_user_provided h l = None <-> forallb (fun r => negb (is_manual (h !!! r))) l = true)
  /\ (forall fid, first_user_provided h l = Some fid <->
        exists pre r post,
          l = (pre ++ r :: post)%list
          /\ forallb (fun r' => negb (is_manual (h !!! r'))) pre = true
          /\ is_manual (h !!! r) = true
          /\ f_id (h !!! r) = fid).
Proof.
  induction l as [|r l [IHnone IHsome]]; cbn [first_user_provided forallb].
  - split; [split; auto|]. intros fid. split; [discriminate|].
    intros (pre & r & post & Hl & _). destruct pre; discriminate.
  - fold (is_manual (h !!! r)). destruct (is_manual (h !!! r)) eqn:Hr; cbn [negb andb].
    + split; [split; discriminate|]. intros fid. split.
      * intros [= <-]. exists [], r, l. auto.
      * intros (pre & r' & post & Hl & Hpre & Hr' & <-).
        destruct pre as [|p pre]; cbn in Hl; injection Hl as <- Hl; [reflexivity|].
        cbn in Hpre. rewrite Hr in Hpre. discriminate.
    + split; [exact IHnone|]. intros fid. rewrite IHsome. split.
      * intros (pre & r' & post & -> & Hpre & Hr' & <-).
        exists (r :: pre), r', post. cbn. rewrite Hr. auto.
      * intros (pre & r' & post & Hl & Hpre & Hr' & <-).
        destruct pre as [|p pre]; cbn in Hl; injection Hl as <- Hl.
        { congruence. }
        cbn in Hpre. rewrite Hr in Hpre. cbn in Hpre.
        exists pre, r', post. auto.
Qed.

(** X11: [get_user_provided_file] only looks: it returns the id of the
    first declared file whose URL starts with "N/A" -- every declared
    file before it has another URL -- and nothing exactly when no
    declared file has such a URL. *)
Theorem get_user_provided_file_first (self : LutrisInstaller) (w : World) :
  let manual := fun r => is_manual (w_heap w !!! r) in
  snd (get_user_provided_file self w) = w
  /\ (fst (get_user_provided_file self w) = Ok None
      <-> forallb (fun r => negb (manual r)) (script_files self) = true)
  /\ (forall fid,
        fst (get_user_provided_file self w) = Ok (Some fid)
        <-> exists pre r post,
              script_files self = (pre ++ r :: post)%list
              /\ forallb (fun r' => negb (manual r')) pre = true
              /\ manual r = true
              /\ f_id (w_heap w !!! r) = fid).
Proof.
  cbv zeta. unfold get_user_provided_file, gets. cbn [fst snd].
  destruct (first_user_provided_spec (w_heap w) (script_files self)) as [Hnone Hsome].
  split; [reflexivity|]. split.
  - rewrite <- Hnone. split; [intros [= ->]; reflexivity | intros ->; reflexivity].
  - intros fid. rewrite <- Hsome. split; [intros [= ->]; reflexivity | intros ->; reflexivity].
Qed.

End Manual.

Section Effects.
Context `{External} {S : Type} (world : S -> World) (P : Event -> bool).

Lemma only_emits_pure {A} (r : result A) : only_emits world P (lift r).
Proof. intros s. exists []. rewrite app_nil_r. auto. Qed.

Lemma only_emits_ret {A} (a : A) : only_emits world P (ret a).
Proof. apply (only_emits_pure (Ok a)). Qed.

Lemma only_emits_raise {A} (e : exn) : only_emits world P (raise (A := A) e).
Proof. apply (only_emits_pure (Raise e)). Qed.

Lemma only_emits_gets {A} (f : S -> A) : only_emits world P (gets f).
Proof. intros s. exists []. rewrite app_nil_r. auto. Qed.

Lemma only_emits_bind {A B} (m : M S A) (k : A -> M S B) :
  only_emits world P m -> (forall a, only_emits world P (k a)) ->
  only_emits world P (bind m k).
Proof.
  intros Hm Hk s. unfold bind.
  destruct (Hm s) as (evs1 & Ht1 & Hp1 & Hs1).
  destruct (m s) as [[a|e] s1]; cbn [snd] in *.
  - destruct (Hk a s1) as (evs2 & Ht2 & Hp2 & Hs2).
    exists (evs1 ++ evs2)%list. rewrite Ht2, Ht1, Hs2, Hs1, app_assoc, forallb_app, Hp1, Hp2.
    auto.
  - exists evs1. auto.
Qed.

End Effects.

Section PlanningEffects.
Context `{External}.

Lemma only_emits_emit (P : Event -> bool) e :
  P e = true -> only_emits (@id World) P (emit e).
Proof.
  intros He w. exists [e]. cbn. rewrite He. auto.
Qed.

Lemma only_emits_alloc (P : Event -> bool) f : only_emits (@id World) P (alloc f).
Proof. intros w. exists []. cbn. rewrite app_nil_r. auto. Qed.

Lemma only_emits_store_file (P : Event -> bool) l f :
  only_emits (@id World) P (store_file l f).
Proof. intros w. exists []. cbn. rewrite app_nil_r. auto. Qed.

Lemma only_emits_in_world {A} (P : Event -> bool) (m : M World A) :
  only_emits (@id World) P m -> only_emits st_world P (in_world m).
Proof.
  intros Hm st. destruct (Hm (st_world st)) as (evs & Ht & Hp & Hs).
  exists evs. unfold in_world. destruct (m (st_world st)) as [r w]. auto.
Qed.

Lemma only_emits_update_self (P : Event -> bool) f : only_emits st_world P (update_self f).
Proof. intros st. exists []. cbn. rewrite app_nil_r. auto. Qed.

End PlanningEffects.

Ltac effects_with tac :=
  repeat first
    [ apply only_emits_ret
    | apply only_emits_raise
    | apply only_emits_pure
    | apply only_emits_gets
    | apply only_emits_alloc
    | apply only_emits_store_file
    | apply only_emits_update_self
    | apply only_emits_emit; reflexivity
    | tac
    | apply only_emits_in_world
    | apply only_emits_bind; [|intros ?]
    | assumption
    | progress cbv zeta
    | match goal with
      | |- only_emits _ _ (match ?x with _ => _ end) => destruct x
      | |- only_emits _ _ (if ?b then _ else _) => destruct b
      end ].

Ltac effects := effects_with fail.

Section PlanningEffects2.
Context `{External}.

Lemma only_emits_copy_files P fid l : only_emits (@id World) P (copy_files fid l).
Proof.
  induction l as [|r l IH]; cbn [copy_files]; unfold load; effects.
Qed.

Lemma only_emits_substitute_urls interp l :
  only_emits (@id World) planning_event (substitute_urls interp l).
Proof.
  induction l as [|r l IH]; cbn [substitute_urls]; unfold substitute_url, load; effects.
Qed.

Lemma only_emits_alloc_all P fs : only_emits (@id World) P (alloc_all fs).
Proof. induction fs as [|f fs IH]; cbn [alloc_all]; effects. Qed.

Lemma only_emits_fetch_service_files patch fid svc :
  only_emits st_world planning_event (fetch_service_files patch fid svc).
Proof.
  unfold fetch_service_files, select_extras, request_files, self.
  effects_with ltac:(apply only_emits_alloc_all).
Qed.

Lemma only_emits_prepare_game_files patch :
  only_emits st_world planning_event (prepare_game_files patch).
Proof.
  unfold prepare_game_files, check_session, get_user_provided_file, self.
  effects_with ltac:(first [ apply only_emits_copy_files
                           | apply only_emits_substitute_urls
                           | apply only_emits_fetch_service_files ]).
Qed.

(** X12: Whatever [prepare_game_files] does, and whether it returns or
    raises, the calls it makes are log lines, the session check, moddb
    lookups and requests to the provider; it never reads or writes the
    games table or a configuration file. *)
Theorem prepare_game_files_calls patch (st : State) :
  exists evs,
    w_trace (st_world (snd (prepare_game_files patch st)))
    = (w_trace (st_world st) ++ evs)%list
    /\ forallb planning_event evs = true
    /\ w_store (st_world (snd (prepare_game_files patch st))) = w_store (st_world st).
Proof. apply only_emits_prepare_game_files. Qed.

End PlanningEffects2.

Section Planning2.
Context `{External}.

Implicit Types (w : World) (h : gmap loc InstallerFile) (l cs : list loc).

Lemma substitute_url_exact interp r w :
  substitute_url interp r w
  = (Ok tt, mkWorld (<[r := planned interp (w_heap w !!! r)]> (w_heap w))
                    (w_store w)
                    (w_trace w ++ rewrite_events interp (w_heap w !!! r))%list).
Proof.
  unfold substitute_url, bind, load, store_file, emit, gets, modify, planned, rewrite_events.
  cbn [w_heap w_store w_trace]. rewrite lookup_total_insert_eq.
  destruct (is_moddb_url _).
  - cbn [w_heap w_store w_trace]. rewrite insert_insert_eq. reflexivity.
  - rewrite app_nil_r. reflexivity.
Qed.

(** The rewriting loop over distinct objects: each is rewritten once, in
    order, and nothing else changes. *)
Lemma substitute_urls_exact interp l w :
  NoDup l ->
  exists h',
    substitute_urls interp l w
    = (Ok tt, mkWorld h' (w_store w)
                (w_trace w
                 ++ flat_map (rewrite_events interp) (map (fun r => w_heap w !!! r) l))%list)
    /\ (forall r, r ∉ l -> h' !! r = w_heap w !! r)
    /\ (forall r, r ∈ l -> h' !! r = Some (planned interp (w_heap w !!! r))).
Proof.
  revert w. induction l as [|c l IH]; intros w Hnd; cbn [substitute_urls map flat_map].
  - exists (w_heap w). rewrite app_nil_r. destruct w; cbn.
    repeat split; auto. intros r Hr. apply elem_of_nil in Hr as [].
  - apply NoDup_cons in Hnd as [Hc Hnd].
    unfold bind at 1. rewrite substitute_url_exact.
    destruct (IH (mkWorld (<[c := planned interp (w_heap w !!! c)]> (w_heap w))
                          (w_store w)
                          (w_trace w ++ rewrite_events interp (w_heap w !!! c))%list) Hnd)
      as (h' & Hrun & Hother & Hin).
    cbn [w_heap w_store w_trace] in *.
    assert (map (fun r => <[c := planned interp (w_heap w !!! c)]> (w_heap w) !!! r) l
            = map (fun r => w_heap w !!! r) l) as Hsame.
    { apply map_ext_in. intros r Hr. apply lookup_total_insert_ne. intros <-.
      apply Hc, list_elem_of_In, Hr. }
    rewrite Hsame in Hrun.
    exists h'. rewrite Hrun, <- app_assoc. split; [reflexivity|].
    split.
    + intros r Hr. apply not_elem_of_cons in Hr as [Hne Hr].
      rewrite (Hother r Hr). apply lookup_insert_ne. congruence.
    + intros r Hr. destruct (decide (r ∈ l)) as [Hrl|Hrl].
      * rewrite (Hin r Hrl). f_equal. f_equal.
        apply lookup_total_insert_ne. intros <-. contradiction.
      * apply elem_of_cons in Hr as [->|Hr]; [|contradiction].
        rewrite (Hother c Hrl). apply lookup_insert_eq.
Qed.

Lemma alloc_all_exact fs w :
  exists rs h',
    alloc_all fs w = (Ok rs, mkWorld h' (w_store w) (w_trace w))
    /\ w_heap w ⊆ h'
    /\ map (fun r => h' !!! r) rs = fs.
Proof.
  revert w. induction fs as [|f fs IH]; intros w; cbn [alloc_all].
  - exists [], (w_heap w). destruct w; cbn. auto.
  - destruct (alloc_run f w) as [Halloc Hfresh].
    unfold bind at 1. rewrite Halloc.
    destruct (IH (mkWorld (<[fresh (dom (w_heap w)) := f]> (w_heap w)) (w_store w) (w_trace w)))
      as (rs & h' & Hrun & Hsub & Hmap).
    cbn [w_heap w_store w_trace] in *.
    unfold bind at 1. rewrite Hrun. unfold ret.
    eexists (_ :: rs), h'. split; [reflexivity|]. split.
    + etrans; [apply insert_subseteq; exact Hfresh | exact Hsub].
    + cbn [map]. rewrite Hmap. f_equal. apply lookup_total_correct.
      eapply lookup_weaken; [apply lookup_insert_eq | exact Hsub].
Qed.

Lemma map_lookup_total_weaken h h' l :
  h ⊆ h' -> Forall (fun r => is_Some (h !! r)) l ->
  map (fun r => h' !!! r) l = map (fun r => h !!! r) l.
Proof.
  intros Hsub Hlive. apply map_ext_in. intros r Hr.
  rewrite Forall_forall in Hlive. destruct (Hlive r) as [f Hf].
  { apply list_elem_of_In. exact Hr. }
  rewrite (lookup_total_correct _ _ _ Hf). apply lookup_total_correct.
  eapply lookup_weaken; eassumption.
Qed.

Lemma fetch_service_files_exact patch fid svc (st : State) answer :
  service (st_self st) = Some svc ->
  provider_answers patch fid answer ->
  Forall (fun r => is_Some (w_heap (st_world st) !! r)) (files (st_self st)) ->
  exists st',
    fetch_service_files patch fid svc st = (Ok tt, st')
    /\ script_files (st_self st') = script_files (st_self st)
    /\ interpreter (st_self st') = interpreter (st_self st)
    /\ game_slug (st_self st') = game_slug (st_self st)
    /\ (exists svc', service (st_self st') = Some svc' /\ svc_id svc' = svc_id svc
                     /\ svc_online svc' = svc_online svc)
    /\ w_store (st_world st') = w_store (st_world st)
    /\ w_trace (st_world st')
       = (w_trace (st_world st) ++ request_events patch (st_self st) svc fid
          ++ answer_events fid answer)%list
    /\ w_heap (st_world st) ⊆ w_heap (st_world st')
    /\ map (fun r => w_heap (st_world st') !!! r) (files (st_self st'))
       = with_answer (st_self st) fid answer
           (map (fun r => w_heap (st_world st) !!! r) (files (st_self st))).
Proof.
  intros Hsvc Hanswer Hlive. destruct st as [s w].
  cbn [st_self st_world] in *.
  unfold fetch_service_files, select_extras, request_files, request_events.
  unfold bind, in_world, emit, update_self, self, gets, modify, ret.
  cbn [st_self st_world w_heap w_store w_trace fst snd].
  unfold provider_answers in Hanswer.
  destruct (svc_has_extras svc) eqn:Hextras, (truthy patch) eqn:Hpatch;
    cbn [st_self st_world w_heap w_store w_trace fst snd service set_service
         interpreter from_option Datatypes.id];
    rewrite ?Hsvc; cbn [from_option Datatypes.id];
    match goal with
    | |- context [match ?r with Some _ => _ | None => _ end] =>
        let Hr := fresh "Hr" in
        assert (r = answer) as Hr by apply Hanswer; rewrite Hr
    end;
    destruct answer as [[|f fs]|];
    cbn [st_self st_world w_heap w_store w_trace fst snd with_answer answer_events].
  all: try match goal with
       | |- context [alloc_all ?l ?w0] =>
           destruct (alloc_all_exact l w0) as (rs & h' & -> & Hsub & Hmap)
       end.
  all: cbn [w_heap w_store w_trace] in *.
  all: eexists; (split; [reflexivity|]).
  all: cbn [st_self st_world w_heap w_store w_trace script_files interpreter game_slug
            service set_files set_service files svc_id svc_online map].
  all: rewrite <- ?app_assoc, ?app_nil_r; cbn [app].
  all: repeat (split; [first [reflexivity | eauto]|]).
  all: try (apply insert_subseteq, not_elem_of_dom, is_fresh).
  all: try (rewrite lookup_total_insert_eq; f_equal;
            apply map_lookup_total_weaken;
            [apply insert_subseteq, not_elem_of_dom, is_fresh | exact Hlive]).
  all: rewrite map_app, Hmap; f_equal; apply map_lookup_total_weaken; assumption.
Qed.

Lemma prepare_game_files_working_list patch (st : State) w1 :
  script_files (st_self st) <> [] ->
  check_session (st_self st) (st_world st) = (Ok tt, w1) ->
  declared_live st ->
  exists cs h2,
    prepare_game_files patch st
    = match held_aside (st_self st) (w_heap (st_world st)), service (st_self st) with
      | Some id, Some svc =>
          if negb (String.eqb id "") then fetch_service_files patch id svc else ret tt
      | _, _ => ret tt
      end (mkState (set_files cs (st_self st))
                   (mkWorld h2 (w_store (st_world st))
                            (w_trace w1
                             ++ copy_events (st_self st) (w_heap (st_world st)))%list))
    /\ w_heap (st_world st) ⊆ h2
    /\ Forall (fun c => is_Some (h2 !! c)) cs
    /\ map (fun c => h2 !!! c) cs = working_copies (st_self st) (w_heap (st_world st)).
Proof.
  intros Hfiles Hsession Hlive. unfold declared_live in Hlive.
  assert (w_heap w1 = w_heap (st_world st) /\ w_store w1 = w_store (st_world st))
    as [Hh1 Hs1].
  { rewrite check_session_run in Hsession. apply (f_equal snd) in Hsession.
    destruct (service (st_self st)) as [svc|]; [destruct (svc_online svc)|];
      cbn [snd] in Hsession; subst w1; auto. }
  set (fid := held_aside (st_self st) (w_heap (st_world st))).
  destruct (copy_files_spec fid (script_files (st_self st)) w1)
    as (cs & h1 & Hcopy & Hsub1 & Hnew & Hnd & Hmap1).
  rewrite Hh1 in Hsub1, Hnew, Hmap1. specialize (Hmap1 Hlive).
  destruct (substitute_urls_exact (interpreter (st_self st)) cs
              (mkWorld h1 (w_store w1) (w_trace w1)) Hnd)
    as (h2 & Hsubst & Hother & Hin).
  cbn [w_heap w_store w_trace] in *. rewrite Hmap1 in Hsubst.
  exists cs, h2. split.
  { unfold prepare_game_files. unfold bind at 1. unfold self, gets.
    destruct (script_files (st_self st)) as [|r0 l0] eqn:Hsf; [contradiction|].
    unfold bind at 1. rewrite (in_world_run _ st _ _ Hsession).
    unfold bind at 1.
    assert ((match service (st_self st) with
             | Some _ => in_world (get_user_provided_file (st_self st))
             | None => ret None
             end) (mkState (st_self st) w1) = (Ok fid, mkState (st_self st) w1)) as ->.
    { subst fid. unfold held_aside. destruct (service (st_self st)); [|reflexivity].
      unfold in_world, get_user_provided_file, gets. cbn [st_world st_self].
      rewrite Hh1, Hsf. reflexivity. }
    unfold bind at 1. rewrite (in_world_run _ (mkState (st_self st) w1) _ _ Hcopy).
    unfold bind at 1. unfold update_self at 1, modify. cbn [st_self st_world].
    unfold bind at 1.
    rewrite (in_world_run _ (mkState (set_files cs (st_self st))
                                     (mkWorld h1 (w_store w1) (w_trace w1))) _ _ Hsubst).
    unfold copy_events, kept_files. fold fid. rewrite Hsf, Hs1. reflexivity. }
  split.
  { apply map_subseteq_spec. intros i x Hi.
    rewrite Hother.
    - eapply lookup_weaken; [exact Hi | exact Hsub1].
    - intros Hic. rewrite Forall_forall in Hnew. destruct (Hnew i Hic). congruence. }
  split.
  { rewrite Forall_forall. intros c Hc. rewrite (Hin c Hc). eauto. }
  unfold working_copies, kept_files. fold fid. rewrite <- Hmap1, map_map.
  apply map_ext_in. intros c Hc. apply lookup_total_correct.
  apply Hin, list_elem_of_In, Hc.
Qed.

(** [prepare_game_files] as a function of the declared files and of what
    the provider answers. *)
Lemma prepare_game_files_exact patch (st : State) answer :
  script_files (st_self st) <> [] ->
  (forall svc, service (st_self st) = Some svc -> session_ok svc) ->
  declared_live st ->
  (forall fid, held_aside (st_self st) (w_heap (st_world st)) = Some fid -> fid <> "" ->
               provider_answers patch fid answer) ->
  exists st',
    prepare_game_files patch st = (Ok tt, st')
    /\ script_files (st_self st') = script_files (st_self st)
    /\ interpreter (st_self st') = interpreter (st_self st)
    /\ game_slug (st_self st') = game_slug (st_self st)
    /\ match service (st_self st) with
       | Some svc => exists svc', service (st_self st') = Some svc'
                                 /\ svc_id svc' = svc_id svc
                                 /\ svc_online svc' = svc_online svc
       | None => service (st_self st') = None
       end
    /\ w_store (st_world st') = w_store (st_world st)
    /\ w_heap (st_world st) ⊆ w_heap (st_world st')
    /\ plan st' = plan_of answer (st_self st) (w_heap (st_world st))
    /\ w_trace (st_world st')
       = (w_trace (st_world st) ++ session_events (st_self st)
          ++ copy_events (st_self st) (w_heap (st_world st))
          ++ match held_aside (st_self st) (w_heap (st_world st)), service (st_self st) with
             | Some fid, Some svc =>
                 if String.eqb fid "" then []
                 else request_events patch (st_self st) svc fid ++ answer_events fid answer
             | _, _ => []
             end)%list.
Proof.
  intros Hne Hok Hlive Hanswer.
  assert (exists w1, check_session (st_self st) (st_world st) = (Ok tt, w1)
                     /\ w_trace w1 = (w_trace (st_world st) ++ session_events (st_self st))%list)
    as (w1 & Hsession & Htrace1).
  { rewrite check_session_run. unfold session_events.
    destruct (service (st_self st)) as [svc|] eqn:Hsvc.
    - destruct (svc_online svc) eqn:Hon.
      + rewrite (Hok svc eq_refl Hon). eauto.
      + rewrite app_nil_r. eauto.
    - rewrite app_nil_r. eauto. }
  destruct (prepare_game_files_working_list patch st w1 Hne Hsession Hlive)
    as (cs & h2 & Hrun & Hsub & Hcs & Hmap).
  rewrite Htrace1, <- app_assoc in Hrun.
  unfold plan_of, plan.
  destruct (held_aside (st_self st) (w_heap (st_world st))) as [fid|] eqn:Hheld.
  - assert (exists svc, service (st_self st) = Some svc) as [svc Hsvc].
    { unfold held_aside in Hheld. destruct (service (st_self st)); [eauto | discriminate]. }
    rewrite Hsvc in Hrun |- *.
    destruct (String.eqb fid "") eqn:Hfid; cbn [negb] in Hrun.
    + eexists. split; [exact Hrun|]. cbn [st_self st_world w_heap w_store w_trace
        script_files interpreter game_slug service set_files files].
      rewrite app_nil_r. repeat split; try reflexivity; try assumption; eauto.
    + destruct (fetch_service_files_exact patch fid svc
                  (mkState (set_files cs (st_self st))
                           (mkWorld h2 (w_store (st_world st))
                                    (w_trace (st_world st) ++ session_events (st_self st)
                                     ++ copy_events (st_self st) (w_heap (st_world st)))%list))
                  answer Hsvc (Hanswer fid eq_refl ltac:(apply String.eqb_neq; exact Hfid)) Hcs)
        as (st' & Hfetch & Hsf & Hint & Hslug & Hservice & Hstore & Htrace & Hsub' & Hplan).
      cbn [st_self st_world w_heap w_store w_trace script_files interpreter game_slug
           service set_files files] in *.
      exists st'. split; [rewrite Hrun; exact Hfetch|].
      repeat (split; [assumption|]).
      split; [etrans; eassumption|]. split.
      * rewrite Hplan, Hmap. destruct answer as [[|f fs]|]; reflexivity.
      * rewrite Htrace, <- !app_assoc. reflexivity.
  - assert (prepare_game_files patch st
            = (Ok tt, mkState (set_files cs (st_self st))
                        (mkWorld h2 (w_store (st_world st))
                           (w_trace (st_world st) ++ session_events (st_self st)
                            ++ copy_events (st_self st) (w_heap (st_world st)))%list)))
      as Hrun' by (rewrite Hrun; destruct (service (st_self st)); reflexivity).
    eexists. split; [exact Hrun'|]. cbn [st_self st_world w_heap w_store w_trace
      script_files interpreter game_slug service set_files files].
    destruct (service (st_self st)); rewrite app_nil_r;
      repeat split; try reflexivity; try assumption; eauto.
Qed.

Lemma kept_files_all s h :
  held_aside s h = None -> kept_files s h = map (fun r => h !!! r) (script_files s).
Proof.
  intros Hheld. unfold kept_files. rewrite Hheld.
  induction (map (fun r => h !!! r) (script_files s)) as [|f l IH]; [reflexivity|].
  cbn [List.filter]. unfold kept at 1.
  rewrite bool_decide_eq_false_2 by discriminate. cbn [negb]. rewrite IH. reflexivity.
Qed.

(** X13: When no provider is bound, or no declared file is to be provided by
    the user, the plan is the list of the declared files, each rewritten,
    in declaration order, and the provider is not asked for files. *)
Theorem prepare_game_files_all_declared patch (st : State) :
  script_files (st_self st) <> [] ->
  (forall svc, service (st_self st) = Some svc -> session_ok svc) ->
  declared_live st ->
  held_aside (st_self st) (w_heap (st_world st)) = None ->
  exists st',
    prepare_game_files patch st = (Ok tt, st')
    /\ plan st'
       = map (planned (interpreter (st_self st)))
             (map (fun r => w_heap (st_world st) !!! r) (script_files (st_self st)))
    /\ w_trace (st_world st')
       = (w_trace (st_world st) ++ session_events (st_self st)
          ++ flat_map (rewrite_events (interpreter (st_self st)))
               (map (fun r => w_heap (st_world st) !!! r) (script_files (st_self st))))%list.
Proof.
  intros Hne Hok Hlive Hheld.
  destruct (prepare_game_files_exact patch st None Hne Hok Hlive)
    as (st' & Hrun & _ & _ & _ & _ & _ & _ & Hplan & Htrace).
  { intros fid Hfid. congruence. }
  exists st'. split; [exact Hrun|].
  unfold plan_of, working_copies, copy_events in Hplan, Htrace.
  rewrite Hheld, (kept_files_all _ _ Hheld) in Hplan, Htrace.
  rewrite app_nil_r in Htrace. auto.
Qed.

(** X14: When the provider has files for the file held aside, the plan is the
    rewritten copies of the other declared files followed by the files of
    the provider, in the order it gave them; the provider is asked once,
    after the copies are made. *)
Theorem prepare_game_files_provider_files patch (st : State) svc fid f fs :
  service (st_self st) = Some svc ->
  session_ok svc ->
  declared_live st ->
  held_aside (st_self st) (w_heap (st_world st)) = Some fid ->
  fid <> "" ->
  provider_answers patch fid (Some (f :: fs)) ->
  exists st',
    prepare_game_files patch st = (Ok tt, st')
    /\ plan st' = (working_copies (st_self st) (w_heap (st_world st)) ++ f :: fs)%list
    /\ w_trace (st_world st')
       = (w_trace (st_world st) ++ session_events (st_self st)
          ++ copy_events (st_self st) (w_heap (st_world st))
          ++ request_events patch (st_self st) svc fid)%list.
Proof.
  intros Hsvc Hok Hlive Hheld Hfid Hanswer.
  assert (script_files (st_self st) <> []) as Hne.
  { unfold held_aside in Hheld. rewrite Hsvc in Hheld. intros Hnil.
    rewrite Hnil in Hheld. discriminate. }
  destruct (prepare_game_files_exact patch st (Some (f :: fs)) Hne)
    as (st' & Hrun & _ & _ & _ & _ & _ & _ & Hplan & Htrace); auto.
  { intros svc' Hsvc'. rewrite Hsvc in Hsvc'. injection Hsvc' as <-. exact Hok. }
  { intros fid' Hfid' _. rewrite Hheld in Hfid'. injection Hfid' as <-. exact Hanswer. }
  exists st'. split; [exact Hrun|].
  unfold plan_of in Hplan. rewrite Hheld, Hsvc in *.
  apply String.eqb_neq in Hfid. rewrite Hfid in *.
  cbn [with_answer answer_events] in *. rewrite app_nil_r in Htrace. auto.
Qed.

(** X15: with a bound provider whose session check passes, a file to
    provide whose id is the empty string is held aside and then
    forgotten: [prepare_game_files] returns, the plan has the other
    declared files only, with no placeholder, and the provider is not
    asked for files. *)
Theorem prepare_game_files_empty_id patch (st : State) svc :
  service (st_self st) = Some svc ->
  session_ok svc ->
  declared_live st ->
  held_aside (st_self st) (w_heap (st_world st)) = Some "" ->
  exists st',
    prepare_game_files patch st = (Ok tt, st')
    /\ plan st'
       = map (planned (interpreter (st_self st)))
             (List.filter (fun f => negb (String.eqb (f_id f) ""))
                (map (fun r => w_heap (st_world st) !!! r) (script_files (st_self st))))
    /\ w_trace (st_world st')
       = (w_trace (st_world st) ++ session_events (st_self st)
          ++ copy_events (st_self st) (w_heap (st_world st)))%list.
Proof.
  intros Hsvc Hok Hlive Hheld.
  assert (script_files (st_self st) <> []) as Hne.
  { unfold held_aside in Hheld. rewrite Hsvc in Hheld. intros Hnil.
    rewrite Hnil in Hheld. discriminate. }
  destruct (prepare_game_files_exact patch st None Hne)
    as (st' & Hrun & _ & _ & _ & _ & _ & _ & Hplan & Htrace); auto.
  { intros svc' Hsvc'. rewrite Hsvc in Hsvc'. injection Hsvc' as <-. exact Hok. }
  { intros fid' Hfid' Hnonempty. rewrite Hheld in Hfid'. injection Hfid' as <-.
    contradiction. }
  exists st'. split; [exact Hrun|].
  unfold plan_of, working_copies, kept_files in Hplan. rewrite Hheld, Hsvc in *.
  cbn [String.eqb] in *. rewrite app_nil_r in Htrace. split; [|exact Htrace].
  rewrite Hplan. f_equal. apply filter_ext. intros file. unfold kept.
  destruct (String.eqb_spec (f_id file) "") as [->|Hneq].
  - rewrite bool_decide_eq_true_2 by reflexivity. reflexivity.
  - rewrite bool_decide_eq_false_2 by congruence. reflexivity.
Qed.

Lemma first_user_provided_ext h h' l :
  (forall r, r ∈ l -> h' !!! r = h !!! r) ->
  first_user_provided h' l = first_user_provided h l.
Proof.
  induction l as [|r l IH]; intros Hsame; cbn [first_user_provided]; [reflexivity|].
  rewrite (Hsame r) by (left). rewrite IH; [reflexivity|].
  intros r' Hr'. apply Hsame. right. exact Hr'.
Qed.

Lemma lookup_total_weaken h h' l r :
  h ⊆ h' -> Forall (fun r => is_Some (h !! r)) l -> r ∈ l -> h' !!! r = h !!! r.
Proof.
  intros Hsub Hlive Hr. rewrite Forall_forall in Hlive. destruct (Hlive r Hr) as [f Hf].
  rewrite (lookup_total_correct _ _ _ Hf). apply lookup_total_correct.
  eapply lookup_weaken; eassumption.
Qed.

(** The plan only depends on the declared files and their contents, on
    the interpreter, the game slug and on whether a provider is bound. *)
Lemma plan_of_stable answer s s' h h' :
  script_files s' = script_files s ->
  interpreter s' = interpreter s ->
  game_slug s' = game_slug s ->
  (service s = None <-> service s' = None) ->
  h ⊆ h' ->
  Forall (fun r => is_Some (h !! r)) (script_files s) ->
  held_aside s' h' = held_aside s h /\ plan_of answer s' h' = plan_of answer s h.
Proof.
  intros Hsf Hint Hslug Hservice Hsub Hlive.
  assert (held_aside s' h' = held_aside s h) as Hheld.
  { unfold held_aside. rewrite Hsf.
    rewrite (first_user_provided_ext h h') by (intros r Hr; eapply lookup_total_weaken; eauto).
    destruct (service s), (service s'); try reflexivity.
    - pose proof (proj2 Hservice eq_refl) as E. discriminate E.
    - pose proof (proj1 Hservice eq_refl) as E. discriminate E. }
  split; [exact Hheld|].
  unfold plan_of, working_copies, kept_files, with_answer, manual_file.
  rewrite Hheld, Hsf, Hint, Hslug.
  rewrite (map_lookup_total_weaken h h' _ Hsub Hlive). reflexivity.
Qed.

(** X16: A second call of [prepare_game_files], with a provider that answers
    as before and a session that is still good, builds the same plan
    again from the declared files. *)
Theorem prepare_game_files_twice patch (st : State) answer :
  script_files (st_self st) <> [] ->
  (forall svc svc', service (st_self st) = Some svc ->
     svc_id svc' = svc_id svc -> svc_online svc' = svc_online svc -> session_ok svc') ->
  declared_live st ->
  (forall fid, held_aside (st_self st) (w_heap (st_world st)) = Some fid -> fid <> "" ->
               provider_answers patch fid answer) ->
  exists st1 st2,
    prepare_game_files patch st = (Ok tt, st1)
    /\ prepare_game_files patch st1 = (Ok tt, st2)
    /\ plan st2 = plan st1
    /\ script_files (st_self st2) = script_files (st_self st).
Proof.
  intros Hne Hok Hlive Hanswer.
  destruct (prepare_game_files_exact patch st answer Hne)
    as (st1 & Hrun1 & Hsf1 & Hint1 & Hslug1 & Hsvc1 & _ & Hsub1 & Hplan1 & _); auto.
  { intros svc Hsvc. apply (Hok svc svc Hsvc); reflexivity. }
  assert (service (st_self st) = None <-> service (st_self st1) = None) as Hservice.
  { destruct (service (st_self st)) as [svc|].
    - destruct Hsvc1 as (svc' & -> & _). split; discriminate.
    - rewrite Hsvc1. tauto. }
  destruct (plan_of_stable answer (st_self st) (st_self st1)
              (w_heap (st_world st)) (w_heap (st_world st1)))
    as [Hheld Hstable]; auto.
  destruct (prepare_game_files_exact patch st1 answer)
    as (st2 & Hrun2 & Hsf2 & _ & _ & _ & _ & _ & Hplan2 & _).
  - rewrite Hsf1. exact Hne.
  - intros svc' Hsvc'. destruct (service (st_self st)) as [svc|] eqn:Hsvc.
    + destruct Hsvc1 as (svc1 & Hs1 & Hid & Hon). rewrite Hs1 in Hsvc'.
      injection Hsvc' as <-. apply (Hok svc svc1 eq_refl Hid Hon).
    + rewrite Hsvc1 in Hsvc'. discriminate.
  - unfold declared_live. rewrite Hsf1.
    eapply Forall_impl; [exact Hlive|]. cbn. intros r [f Hf]. exists f.
    eapply lookup_weaken; eassumption.
  - rewrite Hheld. exact Hanswer.
  - exists st1, st2. split; [exact Hrun1|]. split; [exact Hrun2|].
    split; [congruence | congruence].
Qed.

End Planning2.

Section Construction.
Context `{External}.

(** X17: A description without one of the keys it must have: the constructor
    raises KeyError and has done nothing. *)
Theorem init_missing_key (d : list (PyVal * PyVal)) interp svc appid (w : World) key :
  In key required_keys ->
  assoc (PStr key) d = None ->
  init (PDict d) interp svc appid w = (Raise KeyError, w).
Proof.
  intros Hkey Hmissing. unfold init, bind, lift. cbn [py_getitem py_get].
  unfold required_keys in Hkey. cbn [In] in Hkey.
  destruct (assoc (PStr "version") d) eqn:Hversion; [|reflexivity].
  destruct (assoc (PStr "slug") d) eqn:Hslug; [|reflexivity].
  destruct (assoc (PStr "runner") d) eqn:Hrunner; [|reflexivity].
  destruct (assoc (PStr "name") d) eqn:Hname; [|reflexivity].
  destruct (assoc (PStr "game_slug") d) eqn:Hgame_slug; [|reflexivity].
  repeat (destruct Hkey as [<-|Hkey]; [congruence|]). destruct Hkey.
Qed.

Ltac init_step Hinit :=
  match type of Hinit with
  | bind (lift ?r) _ ?w = _ =>
      unfold bind at 1, lift at 1 in Hinit;
      destruct r; [|injection Hinit as <- <-; rewrite ?app_nil_r; auto]
  end.

(** X18: The constructor leaves the store alone, changes no file object that
    existed, and makes one call to the outside, the lookup of the game
    slug, as its last step: when it raises it has made none. *)
Theorem init_calls installer interp svc appid (w : World) :
  let r := init installer interp svc appid w in
  w_store (snd r) = w_store w
  /\ w_heap w ⊆ w_heap (snd r)
  /\ w_trace (snd r)
     = (w_trace w ++ match fst r with
                     | Ok s => [EvStoreLookup (game_slug s) "slug"]
                     | Raise _ => []
                     end)%list.
Proof.
  cbv zeta. destruct (init installer interp svc appid w) as [r w'] eqn:Hinit.
  cbn [fst snd]. unfold init in Hinit.
  destruct installer as [| | | | |d];
    try (injection Hinit as <- <-; rewrite app_nil_r; auto; fail).
  do 12 init_step Hinit.
  unfold bind at 1 in Hinit.
  destruct (declared_files _ _ w) as [[rs|e] w1] eqn:Hd;
    apply declared_files_world in Hd as (Hst & Htr & Hsub & _);
    [|injection Hinit as <- <-; rewrite app_nil_r; auto].
  do 2 (unfold bind at 1, lift at 1 in Hinit;
        match type of Hinit with
        | context [match ?r with Ok _ => _ | Raise _ => _ end] =>
            destruct r; [|injection Hinit as <- <-; rewrite app_nil_r; auto]
        end).
  unfold bind at 1 in Hinit. rewrite get_game_id_run in Hinit.
  unfold bind, lift, ret in Hinit. cbn [py_get] in Hinit.
  injection Hinit as <- <-.
  cbn [logged w_store w_heap w_trace game_slug lookup_event]. rewrite Htr. auto.
Qed.

Ltac unbind H :=
  let a := fresh "a" in
  let s := fresh "s" in
  let E := fresh "E" in
  apply bind_inv in H as (a & s & E & H).

Lemma new_files_exact gs items (w : World) :
  exists rs h,
    new_files gs items w = (Ok rs, mkWorld h (w_store w) (w_trace w))
    /\ w_heap w ⊆ h
    /\ map (fun c => h !!! c) rs = map (declared_file gs) items
    /\ Forall (fun c => w_heap w !! c = None /\ is_Some (h !! c)) rs
    /\ NoDup rs.
Proof.
  revert w. induction items as [|[k v] items IH]; intros w; cbn [new_files].
  - exists [], (w_heap w). destruct w; cbn. repeat split; auto. constructor.
  - destruct (alloc_run (InstallerFile_new gs k v) w) as [Halloc Hfresh].
    unfold bind at 1. rewrite Halloc.
    set (c := fresh (dom (w_heap w))) in *.
    destruct (IH (mkWorld (<[c := InstallerFile_new gs k v]> (w_heap w))
                          (w_store w) (w_trace w)))
      as (rs & h & Hrun & Hsub & Hmap & Hnew & Hnodup).
    cbn [w_heap w_store w_trace] in *.
    unfold bind at 1. rewrite Hrun. unfold ret.
    assert (h !! c = Some (InstallerFile_new gs k v)) as Hc
      by (eapply lookup_weaken; [apply lookup_insert_eq | exact Hsub]).
    exists (c :: rs), h. split; [reflexivity|]. split; [|split; [|split]].
    + etrans; [apply insert_subseteq; exact Hfresh | exact Hsub].
    + cbn [map]. rewrite Hmap. f_equal. apply lookup_total_correct. exact Hc.
    + constructor; [split; [exact Hfresh | eauto]|].
      eapply Forall_impl; [exact Hnew|]. cbn. intros c' [Hnone Hsome].
      split; [|exact Hsome].
      destruct (decide (c' = c)) as [->|Hne].
      * rewrite lookup_insert_eq in Hnone. discriminate.
      * rewrite lookup_insert_ne in Hnone by congruence. exact Hnone.
    + constructor; [|exact Hnodup].
      intros Hin. rewrite Forall_forall in Hnew.
      destruct (Hnew c Hin) as [Hnone _]. rewrite lookup_insert_eq in Hnone. discriminate.
Qed.

Lemma declared_files_exact gs descs (w : World) rs w' :
  declared_files gs descs w = (Ok rs, w') ->
  Forall (fun d => is_dict d = true) descs
  /\ map (fun c => w_heap w' !!! c) rs = map (declared_file gs) (declared_items descs)
  /\ Forall (fun c => w_heap w !! c = None /\ is_Some (w_heap w' !! c)) rs
  /\ NoDup rs.
Proof.
  revert w rs w'. induction descs as [|d descs IH]; intros w rs w'; cbn [declared_files].
  - intros [= <- <-]. repeat split; constructor.
  - unfold bind at 1. unfold lift at 1. destruct d as [| | | | |items]; try discriminate.
    cbn [py_items declared_items]. unfold bind at 1.
    destruct (new_files_exact gs items w) as (rs1 & h & -> & Hsub1 & Hmap1 & Hnew1 & Hnodup1).
    unfold bind at 1.
    destruct (declared_files gs descs _) as [[rest|e] w1] eqn:Hrest; [|discriminate].
    pose proof (declared_files_world _ _ _ _ _ Hrest) as (_ & _ & Hsub & _).
    apply IH in Hrest as (Hdicts & Hmap & Hnew & Hnodup).
    cbn [w_heap w_store w_trace] in *.
    intros [= <- <-]. split; [constructor; [reflexivity | exact Hdicts]|].
    split; [|split].
    + rewrite !map_app, Hmap. f_equal. rewrite <- Hmap1.
      apply map_ext_in. intros c Hc. rewrite Forall_forall in Hnew1.
      destruct (Hnew1 c) as [_ [f Hf]]; [apply list_elem_of_In; exact Hc|].
      rewrite (lookup_total_correct _ _ _ Hf). apply lookup_total_correct.
      eapply lookup_weaken; eassumption.
    + apply Forall_app. split.
      * eapply Forall_impl; [exact Hnew1|]. cbn. intros c [Hnone [f Hf]].
        split; [exact Hnone|]. exists f. eapply lookup_weaken; eassumption.
      * eapply Forall_impl; [exact Hnew|]. cbn. intros c [Hnone Hsome].
        split; [|exact Hsome].
        destruct (w_heap w !! c) as [f|] eqn:Hw; [|reflexivity].
        rewrite (lookup_weaken _ _ _ _ Hw Hsub1) in Hnone. discriminate.
    + apply NoDup_app. split; [exact Hnodup1|]. split; [|exact Hnodup].
      intros c Hc1 Hc2. rewrite Forall_forall in Hnew1, Hnew.
      destruct (Hnew1 c Hc1) as [_ [f Hf]]. destruct (Hnew c Hc2) as [Hnone _].
      rewrite Hf in Hnone. discriminate.
Qed.

(** X19: The constructor makes one file object for each item of each mapping
    of the script's "files" list, in the order of the script: the objects
    are new, distinct from each other, and each holds what its item
    declares. *)
Theorem init_declared_files installer interp svc appid (w : World) s w' :
  init installer interp svc appid w = (Ok s, w') ->
  exists descs,
    rbind (py_get (script s) "files" (PList [])) py_iter = Ok descs
    /\ Forall (fun d => is_dict d = true) descs
    /\ map (fun c => w_heap w' !!! c) (script_files s)
       = map (declared_file (game_slug s)) (declared_items descs)
    /\ Forall (fun c => w_heap w !! c = None) (script_files s)
    /\ NoDup (script_files s).
Proof.
  unfold init. intros Hinit.
  repeat unbind Hinit.
  repeat match goal with
         | E : lift _ _ = (Ok _, _) |- _ => apply lift_inv in E as [? ->]
         end.
  match goal with
  | E : declared_files _ _ _ = _ |- _ =>
      apply declared_files_exact in E as (Hdicts & Hmap & Hnew & Hnodup)
  end.
  match goal with
  | E : get_game_id _ _ = _ |- _ => rewrite get_game_id_run in E; injection E as <- <-
  end.
  injection Hinit as <- <-. cbn [script script_files game_slug logged w_heap].
  match goal with
  | E : py_iter _ = Ok ?ds |- _ => exists ds
  end.
  repeat match goal with
         | E : _ = Ok _ |- _ => rewrite E; clear E
         end.
  cbn [rbind]. repeat split; auto.
  eapply Forall_impl; [exact Hnew|]. cbn. tauto.
Qed.

(** X20: The object the constructor returns: the description is a mapping
    with the five keys it must have and a script that is a mapping; each
    attribute holds the entry it is read from, with the default of its
    [get] when the entry is missing; the working list is empty, the two
    flags are off, the provider and its id are what [get_service] and
    [get_appid] return, and the game id is the one [get_game_id] finds in
    the games table as it is at construction. *)
Theorem init_attributes desc interp svc appid (w : World) s w' :
  init desc interp svc appid w = (Ok s, w') ->
  exists d sd,
    desc = PDict d
    /\ script s = PDict sd
    /\ assoc (PStr "script") d = Some (PDict sd)
    /\ assoc (PStr "version") d = Some (version s)
    /\ assoc (PStr "slug") d = Some (slug s)
    /\ assoc (PStr "runner") d = Some (runner s)
    /\ assoc (PStr "name") d = Some (game_name s)
    /\ assoc (PStr "game_slug") d = Some (game_slug s)
    /\ year s = field d "year"
    /\ discord_id s = field d "discord_id"
    /\ variables s = default (PDict []) (assoc (PStr "variables") sd)
    /\ requires s = field sd "requires"
    /\ extends s = field sd "extends"
    /\ get_service s svc = Ok (service s)
    /\ get_appid s desc appid = Ok (service_appid s)
    /\ game_id s = existing_id s (w_store w)
    /\ files s = [] /\ is_gog s = false /\ is_update s = false
    /\ interpreter s = interp /\ installer s = desc.
Proof.
  unfold init. intros Hinit.
  repeat unbind Hinit.
  repeat match goal with
         | E : lift _ _ = (Ok _, _) |- _ => apply lift_inv in E as [? ->]
         end.
  match goal with
  | E : declared_files _ _ _ = _ |- _ =>
      apply declared_files_world in E as (Hst & _)
  end.
  match goal with
  | E : get_game_id _ _ = _ |- _ => rewrite get_game_id_run in E; injection E as <- <-
  end.
  injection Hinit as <- <-.
  destruct desc as [| | | | |d]; try discriminate.
  match goal with
  | E : py_get (PDict d) "script" PNone = Ok ?v |- _ =>
      destruct v as [| | | | |sd]; try discriminate
  end.
  exists d, sd.
  repeat match goal with
         | E : py_getitem (PDict d) ?k = Ok _ |- _ =>
             cbn [py_getitem] in E; destruct (assoc (PStr k) d) eqn:?; [|discriminate E];
             injection E as <-
         | E : py_get (PDict _) _ _ = Ok _ |- _ => cbn [py_get] in E; injection E as E
         end.
  unfold field, existing_id in *. cbn. rewrite Hst.
  repeat match goal with |- _ /\ _ => split end; try (symmetry; assumption); auto.
  destruct (assoc (PStr "script") d); [cbn in *; congruence | discriminate].
Qed.

End Construction.

Section Calls.
Context `{External}.

Lemma logged_all_nil w : logged_all [] w = w.
Proof. destruct w. unfold logged_all. cbn. rewrite app_nil_r. reflexivity. Qed.

Lemma logged_all_app evs1 evs2 w :
  logged_all evs2 (logged_all evs1 w) = logged_all (evs1 ++ evs2) w.
Proof. unfold logged_all. cbn. rewrite app_assoc. reflexivity. Qed.

Lemma only_calls_lift {A} P (r : result A) : only_calls P (lift r).
Proof. intros w. exists []. rewrite logged_all_nil. auto. Qed.

Lemma only_calls_ret {A} P (a : A) : only_calls P (ret a).
Proof. apply (only_calls_lift P (Ok a)). Qed.

Lemma only_calls_raise {A} P e : only_calls P (raise (A := A) e).
Proof. apply (only_calls_lift P (Raise e)). Qed.

Lemma only_calls_gets {A} P (f : World -> A) : only_calls P (gets f).
Proof. intros w. exists []. rewrite logged_all_nil. auto. Qed.

Lemma only_calls_emit (P : Event -> bool) e : P e = true -> only_calls P (emit e).
Proof. intros He w. exists [e]. cbn. rewrite He. auto. Qed.

Lemma only_calls_bind {A B} P (m : M World A) (k : A -> M World B) :
  only_calls P m -> (forall a, only_calls P (k a)) -> only_calls P (bind m k).
Proof.
  intros Hm Hk w. unfold bind.
  destruct (Hm w) as (evs1 & Hp1 & Hw1).
  destruct (m w) as [[a|e] w1]; cbn [snd] in *.
  - destruct (Hk a w1) as (evs2 & Hp2 & Hw2).
    exists (evs1 ++ evs2)%list. rewrite forallb_app, Hp1, Hp2, Hw2, Hw1, logged_all_app.
    auto.
  - exists evs1. auto.
Qed.

Lemma returns_bind {S A B} (Q : B -> Prop) (m : M S A) (k : A -> M S B) :
  (forall a, returns Q (k a)) -> returns Q (bind m k).
Proof.
  intros Hk s b. unfold bind. destruct (m s) as [[a|e] s1]; [apply Hk | discriminate].
Qed.

Lemma returns_ret {S A} (Q : A -> Prop) (a : A) : Q a -> returns (S := S) Q (ret a).
Proof. intros Ha s b [= <-]. exact Ha. Qed.

Lemma returns_raise {S A} (Q : A -> Prop) e : returns (S := S) Q (raise e).
Proof. intros s b. discriminate. Qed.

End Calls.

Ltac calls :=
  repeat first
    [ apply only_calls_ret
    | apply only_calls_raise
    | apply only_calls_lift
    | apply only_calls_gets
    | apply only_calls_emit; reflexivity
    | apply only_calls_bind; [|intros ?]
    | progress cbv zeta
    | match goal with
      | |- only_calls _ (match ?x with _ => _ end) => destruct x
      | |- only_calls _ (if ?b then _ else _) => destruct b
      end ].

Section Configuration.
Context `{External}.

Lemma get_game_config_only_calls (self : LutrisInstaller) :
  only_calls config_event (get_game_config self).
Proof.
  unfold get_game_config, base_config, lookup_game, auto_exe. calls.
Qed.

(** X21: [get_game_config] writes nothing to the games table or to the
    configuration files and changes no file object, whether it returns or
    raises: the world it leaves differs from the one it found only by the
    calls it made, each of them a lookup in the games table, the loading
    of a configuration, or a search for an executable in the install
    target.  The Linux search is made with [make_executable=True] and may
    mark the file it finds as executable; the test whether the launcher's
    path exists is a query that leaves no call. *)
Theorem get_game_config_calls (self : LutrisInstaller) (w : World) :
  exists evs,
    forallb config_event evs = true
    /\ snd (get_game_config self w) = logged_all evs w.
Proof. apply get_game_config_only_calls. Qed.

(** X22: A [requires] that names no game: the base game is looked up by
    installer slug, then by slug, and when both lookups find nothing
    [get_game_config] raises ValueError having done nothing else. *)
Theorem get_game_config_requires_unresolved (self : LutrisInstaller) (w : World) :
  truthy (requires self) = true ->
  get_game_by_field (w_store w) (requires self) "installer_slug" = None ->
  get_game_by_field (w_store w) (requires self) "slug" = None ->
  get_game_config self w = (Raise ValueError, logged_all (base_lookups self) w).
Proof.
  intros Hreq Hinst Hslug.
  unfold get_game_config, base_config, lookup_game, bind, emit, modify, gets, raise.
  rewrite Hreq. cbn [w_store w_heap w_trace]. rewrite Hinst. cbn [w_store]. rewrite Hslug.
  unfold logged_all, base_lookups. cbn [w_heap w_store w_trace].
  rewrite <- app_assoc. reflexivity.
Qed.

(** X23: the base configuration of an installer with [requires].  When
    a game has the required name as installer slug, that one lookup is
    the only one made -- the slug is not tried -- and the configuration
    loaded is that game's; when no game has it as installer slug and a
    game has it as slug, both lookups are made, in that order, and the
    configuration loaded is that of the game found by slug.  In both cases
    it is loaded once, for the installer's runner. *)
Theorem base_config_precedence (self : LutrisInstaller) (w : World) row :
  truthy (requires self) = true ->
  let loaded := load_game_level (w_store w) (runner self) (row_configpath row) in
  let load := EvLoadConfig (runner self) (row_configpath row) in
  (get_game_by_field (w_store w) (requires self) "installer_slug" = Some row ->
   base_config self w
   = (Ok loaded, logged_all [EvStoreLookup (requires self) "installer_slug"; load] w))
  /\ (get_game_by_field (w_store w) (requires self) "installer_slug" = None ->
      get_game_by_field (w_store w) (requires self) "slug" = Some row ->
      base_config self w = (Ok loaded, logged_all (base_lookups self ++ [load]) w)).
Proof.
  intros Hreq. cbv zeta.
  unfold base_config, lookup_game, bind, emit, modify, gets, ret.
  rewrite Hreq. cbn [w_store w_heap w_trace]. split.
  - intros Hinst. rewrite Hinst. unfold logged_all. cbn [w_store w_heap w_trace].
    rewrite <- app_assoc. reflexivity.
  - intros Hinst Hslug. rewrite Hinst. cbn [w_store w_heap w_trace]. rewrite Hslug.
    unfold logged_all, base_lookups. cbn [w_store w_heap w_trace].
    rewrite <- !app_assoc. reflexivity.
Qed.

Lemma get_game_config_stamped (self : LutrisInstaller) :
  returns (fun c => exists config, c = PDict (stamp self config)) (get_game_config self).
Proof.
  unfold get_game_config.
  apply returns_bind. intros config0.
  destruct (script self); try apply returns_raise.
  repeat (apply returns_bind; intros ?).
  apply returns_ret. eauto.
Qed.

Lemma stamp_identity (self : LutrisInstaller) config key value :
  In (key, value) (identity_keys self ++ service_keys self)%list ->
  assoc (PStr key) (stamp self config) = Some value.
Proof.
  unfold identity_keys, service_keys, stamp.
  destruct (service self) as [svc|]; cbn [app In]; intros Hin;
    repeat (destruct Hin as [[= <- <-]|Hin];
            [repeat first [ apply assoc_set_same
                          | rewrite assoc_set_other by discriminate ]|]);
    destruct Hin.
Qed.

(** X24: Whatever the script puts in its sections, the configuration that
    [get_game_config] returns is a mapping that carries the installer's
    identity: name, script, variables, version, requires, slug, game slug
    and year are the installer's attributes and, when a provider is bound,
    so are the provider's id and the provider-side id. *)
Theorem get_game_config_identity (self : LutrisInstaller) (w : World) c :
  fst (get_game_config self w) = Ok c ->
  exists config,
    c = PDict config
    /\ forall key value,
         In (key, value) (identity_keys self ++ service_keys self)%list ->
         assoc (PStr key) config = Some value.
Proof.
  intros Hrun. destruct (get_game_config_stamped self w c Hrun) as (config & ->).
  exists (stamp self config). split; [reflexivity|].
  intros key value. apply stamp_identity.
Qed.

End Configuration.

Section Saving.
Context `{External}.






End Saving.

Section Substitution.
Context `{External}.

Lemma normalize_bool_other v :
  true_like v = false -> false_like v = false -> normalize_bool v = v.
Proof. unfold true_like, false_like, normalize_bool. intros -> ->. reflexivity. Qed.

(** X27: For a configuration mapping whose keys are all strings,
    [_substitute_config] returns a mapping with the same keys; a value
    that does not read "true" or "false" is replaced by its substituted
    form, and each mapping of [launch_configs] by the mapping of its
    substituted values. *)
Theorem substitute_config_entries (self : LutrisInstaller) (d : list (PyVal * PyVal)) :
  (forall k, In k (map fst d) -> is_str k = true) ->
  launch_configs_ok d ->
  exists config,
    _substitute_config self (PDict d) = Ok (PDict config)
    /\ (forall s, is_Some (assoc (PStr s) config) <-> is_Some (assoc (PStr s) d))
    /\ (forall s v,
          assoc (PStr s) d = Some v ->
          s <> "launch_configs" -> true_like v = false -> false_like v = false ->
          assoc (PStr s) config = Some (substituted (interpreter self) v))
    /\ (forall confs,
          assoc (PStr "launch_configs") d = Some (PList (map PDict confs)) ->
          assoc (PStr "launch_configs") config
          = Some (PList (map (substitute_items (interpreter self)) confs))).
Proof.
  intros Hkeys Hlc.
  destruct (substitute_keys_spec (interpreter self) d (map fst d) Hlc)
    with (config0 := @nil (PyVal * PyVal)) as (config & Hrun & Hspec).
  { intros k Hin. specialize (Hkeys k Hin). destruct k; try discriminate. eauto. }
  exists config. split.
  { unfold _substitute_config. cbn [py_iter rbind]. rewrite Hrun. reflexivity. }
  split; [|split].
  - intros s. split.
    + intros Hsome. destruct (In_str_dec s (map fst d)) as [Hin|Hnot].
      * destruct (In_assoc_Some _ _ Hin) as (v & ->). eauto.
      * rewrite (proj2 (Hspec s) Hnot) in Hsome. destruct Hsome as [x Hx]. discriminate.
    + intros [v Hv].
      destruct (proj1 (Hspec s) (assoc_Some_In s v d Hv)) as (_ & _ & _ & Hsome).
      exact Hsome.
  - intros s v Hv Hne Ht Hf.
    destruct (proj1 (Hspec s) (assoc_Some_In s v d Hv)) as (v' & Hv' & Hval & [r Hr]).
    assert (v' = v) as -> by congruence.
    rewrite Hr in Hval |- *. cbn [from_option Datatypes.id] in Hval.
    unfold substitute_value in Hval.
    assert (eq_str (PStr s) "launch_configs" = false) as Hk
      by (cbn; apply String.eqb_neq; exact Hne).
    rewrite Hk, normalize_bool_other in Hval by assumption.
    unfold substituted. destruct v; congruence.
  - intros confs Hv.
    destruct (proj1 (Hspec "launch_configs") (assoc_Some_In _ _ d Hv))
      as (v' & Hv' & Hval & [r Hr]).
    assert (v' = PList (map PDict confs)) as -> by congruence.
    rewrite Hr in Hval |- *. cbn [from_option Datatypes.id] in Hval.
    unfold substitute_value in Hval.
    assert (eq_str (PStr "launch_configs") "launch_configs" = true) as Hk by reflexivity.
    rewrite Hk, normalize_bool_list in Hval. cbn [py_iter rbind] in Hval.
    rewrite mapR_items in Hval. cbn [rbind] in Hval. congruence.
Qed.

Lemma substitute_keys_bad_key interp d keys config0 :
  launch_configs_ok d ->
  (forall k, In k keys -> In k (map fst d)) ->
  (exists k, In k keys /\ is_str k = false) ->
  substitute_keys interp (PDict d) keys config0 = Raise ScriptingError.
Proof.
  intros Hlc. revert config0.
  induction keys as [|key keys IH]; intros config0 Hin (k & Hk & Hbad).
  - destruct Hk.
  - cbn [substitute_keys]. destruct (is_str key) eqn:Hstr; cbn [negb]; [|reflexivity].
    destruct key; try discriminate.
    destruct (In_assoc_Some _ _ (Hin _ (or_introl eq_refl))) as (v & Hv).
    cbn [subscript dict_getitem hashable]. rewrite Hv. cbn [rbind].
    destruct (substitute_value_total interp _ v d Hlc Hv) as (r & ->). cbn [rbind].
    apply IH.
    + intros k' Hk'. apply Hin. right. exact Hk'.
    + destruct Hk as [<-|Hk]; [discriminate|]. eauto.
Qed.

(** X28: A configuration mapping with a key that is not a string is refused
    with ScriptingError, wherever the key stands in the mapping, provided
    its [launch_configs] entry, if there is one, is a list of mappings. *)
Theorem substitute_config_bad_key (self : LutrisInstaller) (d : list (PyVal * PyVal)) k :
  launch_configs_ok d ->
  In k (map fst d) ->
  is_str k = false ->
  _substitute_config self (PDict d) = Raise ScriptingError.
Proof.
  intros Hlc Hin Hbad. unfold _substitute_config. cbn [py_iter rbind].
  rewrite (substitute_keys_bad_key _ d (map fst d) []); eauto.
Qed.

(** X29: A section that is not a mapping: [_substitute_config] returns the
    empty configuration for an empty list or an empty string, and raises
    for anything else -- ScriptingError when a list starts with a member
    that is not a string, TypeError otherwise. *)
Theorem substitute_config_not_a_mapping (self : LutrisInstaller) (v : PyVal) :
  is_dict v = false ->
  match _substitute_config self v with
  | Ok config => config = PDict [] /\ (v = PList [] \/ v = PStr "")
  | Raise e =>
      v <> PList [] /\ v <> PStr ""
      /\ (e = ScriptingError <-> exists k l, v = PList (k :: l) /\ is_str k = false)
      /\ (e = ScriptingError \/ e = TypeError)
  end.
Proof.
  intros Hv. unfold _substitute_config.
  destruct v as [| | |s|l|d]; try discriminate; cbn [py_iter rbind].
  1-3: repeat split; try discriminate; auto; intros (k & l & Hk & _); discriminate.
  - destruct s as [|c s]; cbn [chars substitute_keys is_str negb subscript rbind].
    + auto.
    + repeat split; try discriminate; auto. intros (k & l & Hk & _). discriminate.
  - destruct l as [|k l]; cbn [substitute_keys rbind]; [auto|].
    destruct (is_str k) eqn:Hk; cbn [negb subscript rbind].
    + repeat split; try discriminate; auto.
      intros (k' & l' & Heq & Hbad). inversion Heq; subst. congruence.
    + repeat split; try discriminate; eauto.
Qed.

End Substitution.

(** ** The properties on concrete installs *)

Module Runs.
Import Demo Cases.

(** The constructor on a script that only declares [requires]. *)
Example init_requires :
  fst (init (description "linux" requires_script) interp None PNone (world library_store))
  = Ok (set_game_id (Some 7) requires_object).
Proof. vm_compute. reflexivity. Qed.

(** C1 fails here: the script declares [requires] and no [extends], the
    record of the slug is in the library and not installed, and
    [get_game_id] returns its id. *)
Lemma get_game_id_requires_unfinished :
  truthy (requires requires_object) = true
  /\ truthy (extends requires_object) = false
  /\ get_game_by_field library_store (game_slug requires_object) "slug"
     = Some (mkRow 7 (PBool false) (PStr "foo-1"))
  /\ fst (get_game_id requires_object (world library_store)) = Ok (Some 7).
Proof. repeat split. Qed.

(** C2 on an add-on: the record had id 7 when the object was built;
    [save] returns 7 even in a world whose store is empty. *)
Lemma save_extends_returns_identity_witness :
  init (description "linux" extends_script) interp None PNone (world installed_store)
  = (Ok extends_object, logged (lookup_event extends_object) (world installed_store))
  /\ script extends_object = extends_script
  /\ truthy (field [(PStr "extends", PStr "base-game")] "extends") = true
  /\ save (mkState extends_object (world []))
     = (Ok (Some 7),
        mkState extends_object (logged (extension_notice extends_object) (world []))).
Proof.
  split; [vm_compute; reflexivity|]. split; [reflexivity|]. split; [reflexivity|].
  apply (save_extends_returns_identity
           (description "linux" extends_script) interp None PNone
           (world installed_store)
           (logged (lookup_event extends_object) (world installed_store))
           (world []) extends_object [(PStr "extends", PStr "base-game")]);
    [vm_compute; reflexivity | reflexivity | reflexivity].
Defined.

(** C3 fails here: the provider is online without a session, but no file
    is declared, and [prepare_game_files] returns without raising. *)
Lemma prepare_game_files_no_files_no_error :
  script_files (st_self no_files_state) = []
  /\ service (st_self no_files_state) = Some steam
  /\ svc_online steam = true
  /\ is_connected steam = false
  /\ prepare_game_files PNone no_files_state = (Ok tt, no_files_state).
Proof. repeat split. Qed.

(** C3, as amended, with two declared files. *)
Lemma prepare_game_files_unauthenticated_witness :
  script_files (st_self steam_state) <> []
  /\ service (st_self steam_state) = Some steam
  /\ svc_online steam = true
  /\ is_connected steam = false
  /\ prepare_game_files PNone steam_state
     = (Raise AuthenticationError,
        mkState (st_self steam_state)
                (logged (EvIsConnected "steam") (st_world steam_state))).
Proof.
  split; [discriminate|]. repeat (split; [reflexivity|]).
  apply (prepare_game_files_unauthenticated PNone steam_state steam);
    [discriminate | reflexivity | reflexivity | reflexivity].
Defined.


(** Only the first file to provide is held aside: with two declared
    files that have the manual-entry URL, the placeholder has the id of
    the first of them. *)
Lemma prepare_game_files_second_manual_file :
  let st' := snd (prepare_game_files PNone two_manual_state) in
  fst (prepare_game_files PNone two_manual_state) = Ok tt
  /\ w_heap (st_world two_manual_state) !! 1%nat = Some file_b
  /\ String.prefix "N/A" (f_url file_b) = true
  /\ f_id file_b = "b"
  /\ (exists first rest,
        files (st_self st') = first :: rest
        /\ f_id <$> (w_heap (st_world st') !! first) = Some "a").
Proof.
  vm_compute. repeat split. eexists _, _. split; reflexivity.
Qed.


(** The constructor accepts a steam script whose game section is a string. *)
Example init_both_bad_game :
  fst (init (description "steam" both_script_bad_game) interp None PNone (world []))
  = Ok both_object_bad_game.
Proof. vm_compute. reflexivity. Qed.

(** C5 fails here: both relationships are set, but the runner is steam
    and the game section is a string, so the steam check raises before
    the requires/extends check is reached. *)
Lemma get_errors_unreadable_game_section :
  py_get (script both_object_bad_game) "requires" PNone = Ok (PStr "base-game")
  /\ py_get (script both_object_bad_game) "extends" PNone = Ok (PStr "base-game")
  /\ get_errors both_object_bad_game = Raise AttributeError.
Proof. repeat split. Qed.

(** C5, as amended, on a script without a game section. *)
Lemma get_errors_requires_and_extends_witness :
  script both_object = both_script
  /\ game_section_readable both_object = true
  /\ exists errors,
       get_errors both_object = Ok errors
       /\ In both_error errors
       /\ forall w : World, lift (get_errors both_object) w = (Ok errors, w).
Proof.
  repeat (split; [reflexivity|]).
  apply (get_errors_requires_and_extends both_object
           [(PStr "requires", PStr "base-game"); (PStr "extends", PStr "base-game")]);
    reflexivity.
Defined.

(** C6 fails here: "bin/run.sh" is not a key of the installed files and
    exists under the install target; as a single value it becomes the
    joined path, as an element of a list it is kept as it is. *)
Lemma get_game_launcher_config_list_on_disk :
  assoc (PStr "bin/run.sh") (game_files interp) = None
  /\ path_join (target_path interp) (PStr "bin/run.sh") = Ok "/games/foo/bin/run.sh"
  /\ path_exists "/games/foo/bin/run.sh" = true
  /\ get_game_launcher_config (exe_object (PStr "bin/run.sh")) (game_files interp)
     = Ok (PStr "exe", PStr "/games/foo/bin/run.sh")
  /\ get_game_launcher_config (main_file_object [PStr "bin/run.sh"]) (game_files interp)
     = Ok (PStr "main_file", PList [PStr "bin/run.sh"]).
Proof. repeat split. Qed.

(** C6, as amended: the three cases of a single value, and a list. *)
Lemma get_game_launcher_config_resolution_witness :
  get_game_launcher_config (exe_object (PStr "main.exe")) (game_files interp)
  = Ok (PStr "exe", PStr "/install/main.exe")
  /\ get_game_launcher_config (exe_object (PStr "bin/run.sh")) (game_files interp)
     = Ok (PStr "exe", PStr "/games/foo/bin/run.sh")
  /\ get_game_launcher_config (exe_object (PStr "missing.bin")) (game_files interp)
     = Ok (PStr "exe", PStr "missing.bin")
  /\ get_game_launcher_config (main_file_object [PStr "main.exe"; PStr "disc2.iso"])
                              (game_files interp)
     = Ok (PStr "main_file", PList [PStr "/install/main.exe"; PStr "disc2.iso"]).
Proof.
  split; [|split; [|split]].
  - destruct (proj1 (get_game_launcher_config_resolution (H := env)
                       (exe_object (PStr "main.exe")) (game_files interp) (PStr "exe"))
                    "main.exe" eq_refl ltac:(discriminate)) as (Hmapped & _).
    apply Hmapped. reflexivity.
  - destruct (proj1 (get_game_launcher_config_resolution (H := env)
                       (exe_object (PStr "bin/run.sh")) (game_files interp) (PStr "exe"))
                    "bin/run.sh" eq_refl ltac:(discriminate)) as (_ & Hdisk & _).
    apply (Hdisk "/games/foo"); [reflexivity | reflexivity | discriminate | reflexivity].
  - destruct (proj1 (get_game_launcher_config_resolution (H := env)
                       (exe_object (PStr "missing.bin")) (game_files interp) (PStr "exe"))
                    "missing.bin" eq_refl ltac:(discriminate)) as (_ & _ & Hraw & _).
    apply (Hraw "/games/foo"); [reflexivity | reflexivity | right; reflexivity].
  - apply (proj1 (proj2 (get_game_launcher_config_resolution (H := env)
                           (main_file_object [PStr "main.exe"; PStr "disc2.iso"])
                           (game_files interp) (PStr "main_file"))
                        [PStr "main.exe"; PStr "disc2.iso"] eq_refl)).
    reflexivity.
Defined.

(** C7 fails here: under the key [launch_configs] the value "true" is
    normalised to a boolean, which the loop then tries to iterate. *)
Lemma substitute_config_launch_configs_true :
  true_like (PStr "true") = true
  /\ _substitute_config no_script_object (PDict [(PStr "launch_configs", PStr "true")])
     = Raise TypeError.
Proof. repeat split. Qed.

(** C7, as amended, on a small runner section. *)
Lemma substitute_config_booleans_witness :
  exists config,
    _substitute_config no_script_object
      (PDict [(PStr "fullscreen", PStr "True"); (PStr "sandbox", PStr "FALSE");
              (PStr "dxvk", PBool true); (PStr "prefix", PStr "$GAMEDIR")])
    = Ok (PDict config)
    /\ assoc (PStr "fullscreen") config = Some (PBool true)
    /\ assoc (PStr "sandbox") config = Some (PBool false)
    /\ assoc (PStr "dxvk") config = Some (PBool true).
Proof.
  destruct (substitute_config_booleans no_script_object
              [(PStr "fullscreen", PStr "True"); (PStr "sandbox", PStr "FALSE");
               (PStr "dxvk", PBool true); (PStr "prefix", PStr "$GAMEDIR")])
    as (config & Hrun & Hspec).
  - intros k Hin. cbn in Hin.
    repeat (destruct Hin as [<-|Hin]; [reflexivity|]). destruct Hin.
  - intros v Hv. discriminate Hv.
  - exists config. split; [exact Hrun|].
    split; [|split].
    + exact (proj1 (Hspec "fullscreen" (PStr "True") eq_refl) eq_refl).
    + exact (proj1 (proj2 (Hspec "sandbox" (PStr "FALSE") eq_refl)) eq_refl).
    + exact (proj2 (proj2 (Hspec "dxvk" (PBool true) eq_refl)) true eq_refl).
Defined.

(** C8: the DLC identifier wins over the caller's "caller-9". *)
Lemma get_appid_precedence_witness :
  truthy (field dlc_description "is_dlc") = true
  /\ get_appid (with_files [] (Some steam)) (PDict dlc_description) (PStr "caller-9")
     = Ok (PStr "dlc-42").
Proof.
  split; [reflexivity|].
  apply (proj1 (get_appid_precedence (with_files [] (Some steam)) dlc_description
                                     (PStr "caller-9"))).
  reflexivity.
Defined.

(** C10 on an object whose script is [None] and whose runner is steam. *)
Lemma get_errors_not_a_dict_witness :
  is_dict (script no_script_object) = false
  /\ get_errors no_script_object = Ok ["Script must be a dictionary"].
Proof.
  split; [reflexivity|].
  apply (get_errors_not_a_dict no_script_object). reflexivity.
Defined.

(** From the constructor to the plan: a script that declares a file to
    provide and a download, bound to a provider without files for it. *)
Example init_then_prepare :
  let script := PDict [(PStr "files",
                        PList [PDict [(PStr "setup", PStr "N/A: Select the installer")];
                               PDict [(PStr "patch",
                                       PDict [(PStr "url", PStr "https://example.org/p.zip");
                                              (PStr "filename", PStr "p.zip")])]])] in
  exists s w st',
    init (description "linux" script) interp (Some humble) PNone (world []) = (Ok s, w)
    /\ prepare_game_files PNone (mkState s w) = (Ok tt, st')
    /\ map (fun c => w_heap (st_world st') !!! c) (files (st_self st'))
       = [mkFile (PStr "foo") "setup" "N/A: Provider installer file" "";
          mkFile (PStr "foo") "patch" "https://example.org/p.zip" "p.zip"]
    /\ map (fun c => w_heap (st_world st') !!! c) (script_files (st_self st'))
       = [mkFile (PStr "foo") "setup" "N/A: Select the installer" "";
          mkFile (PStr "foo") "patch" "https://example.org/p.zip" "p.zip"].
Proof.
  cbv zeta. eexists _, _, _.
  split; [vm_compute; reflexivity|]. split; [vm_compute; reflexivity|].
  split; vm_compute; reflexivity.
Qed.

End Runs.

(** ** The further properties on concrete installs *)

Module Checks.
Import Demo Cases Cases2.

(** X1 on an object without a runner. *)
Lemma get_errors_missing_fields_witness :
  script no_runner_object = PDict []
  /\ get_errors no_runner_object = Ok ["Missing field 'runner'"]
  /\ (In "Missing field 'runner'" ["Missing field 'runner'"]
      <-> truthy (runner no_runner_object) = false)
  /\ (In "Missing field 'game_name'" ["Missing field 'runner'"]
      <-> truthy (game_name no_runner_object) = false)
  /\ (In "Missing field 'game_slug'" ["Missing field 'runner'"]
      <-> truthy (game_slug no_runner_object) = false).
Proof.
  split; [reflexivity|]. split; [reflexivity|].
  apply (get_errors_missing_fields no_runner_object [] ["Missing field 'runner'"]);
    reflexivity.
Defined.

(** X2 on a steam script without a game section. *)
Lemma get_errors_runner_findings_witness :
  script no_script_steam = PDict []
  /\ get_errors no_script_steam = Ok ["Missing appid for Steam game"]
  /\ (In "Missing libretro core in game section" ["Missing appid for Steam game"]
      <-> libretro_core_missing no_script_steam [] = true)
  /\ (In "Missing appid for Steam game" ["Missing appid for Steam game"]
      <-> steam_appid_missing no_script_steam [] = true).
Proof.
  split; [reflexivity|]. split; [reflexivity|].
  apply (get_errors_runner_findings no_script_steam [] ["Missing appid for Steam game"]);
    reflexivity.
Defined.

(** X3 on a script that only declares [requires]. *)
Lemma get_errors_both_iff_witness :
  script requires_object = PDict [(PStr "requires", PStr "base-game")]
  /\ get_errors requires_object = Ok []
  /\ (In both_error []
      <-> truthy (field [(PStr "requires", PStr "base-game")] "requires") = true
          /\ truthy (field [(PStr "requires", PStr "base-game")] "extends") = true).
Proof.
  split; [reflexivity|]. split; [reflexivity|].
  apply (get_errors_both_iff requires_object [(PStr "requires", PStr "base-game")] []);
    reflexivity.
Defined.

(** X4 on a steam script whose game section is a string. *)
Lemma get_errors_returns_iff_witness :
  script both_object_bad_game = both_script_bad_game
  /\ game_section_readable both_object_bad_game = false
  /\ get_errors both_object_bad_game = Raise AttributeError.
Proof.
  split; [reflexivity|]. split; [reflexivity|].
  apply (proj2 (get_errors_returns_iff both_object_bad_game _ eq_refl)). reflexivity.
Defined.

(** X5 on a libretro script that names its core. *)
Lemma get_errors_valid_witness :
  script libretro_object = PDict libretro_script
  /\ get_errors libretro_object = Ok [].
Proof.
  split; [reflexivity|].
  apply (proj2 (get_errors_valid libretro_object libretro_script eq_refl)).
  repeat split; try reflexivity. left. reflexivity.
Defined.

(** X6 on a script whose installer asks for a disc. *)
Lemma creates_game_folder_true_witness :
  creates_game_folder disc_object = Folder true
  /\ truthy (requires disc_object) = false
  /\ truthy (extends disc_object) = false
  /\ eq_str (runner disc_object) "steam" = false.
Proof.
  split; [reflexivity|].
  destruct (creates_game_folder_true disc_object eq_refl) as (Hreq & Hext & Hsteam & _).
  auto.
Defined.

(** X7 on the same script with declared files. *)
Lemma creates_game_folder_files_witness :
  truthy (requires disc_object_with_files) = false
  /\ truthy (extends disc_object_with_files) = false
  /\ eq_str (runner disc_object_with_files) "steam" = false
  /\ script disc_object_with_files = PDict disc_script
  /\ truthy (field disc_script "installer") = true
  /\ script_files disc_object_with_files <> []
  /\ creates_game_folder disc_object_with_files = Folder true.
Proof.
  repeat (split; [reflexivity || discriminate|]).
  apply (creates_game_folder_files disc_object_with_files disc_script);
    reflexivity || discriminate.
Defined.

(** X8 on the two commands of the disc script. *)
Lemma creates_game_folder_commands_witness :
  script disc_object = PDict disc_script
  /\ assoc (PStr "installer") disc_script = Some (PList disc_commands)
  /\ forallb is_command disc_commands = true
  /\ creates_game_folder disc_object = Folder (existsb is_insert_disc disc_commands).
Proof.
  repeat (split; [reflexivity|]).
  apply (proj1 (creates_game_folder_commands disc_object disc_script disc_commands
                  eq_refl eq_refl eq_refl eq_refl eq_refl
                  ltac:(discriminate) eq_refl eq_refl)).
  reflexivity.
Defined.

(** X9 on a steam runner. *)
Lemma get_service_inferred_witness :
  get_service no_script_object None = Ok (Some steam)
  /\ (str_in "steam" (runner no_script_object) = Ok true /\ SERVICES "steam" = Some steam
      \/ exists v,
           version no_script_object = PStr v
           /\ ((contains "humble" (lower v) = true /\ SERVICES "humblebundle" = Some steam)
               \/ (contains "gog" (lower v) = true /\ SERVICES "gog" = Some steam
                   /\ (contains "humble" (lower v) = false
                       \/ SERVICES "humblebundle" = None)))).
Proof.
  split; [reflexivity|].
  apply (get_service_inferred no_script_object steam). reflexivity.
Defined.

(** X10 on a steam runner: the version is not read. *)
Lemma get_service_ill_typed_witness :
  runner no_script_object = PStr "steam"
  /\ contains "steam" "steam" = true
  /\ SERVICES "steam" = Some steam
  /\ get_service no_script_object None = Ok (Some steam).
Proof.
  repeat (split; [reflexivity|]).
  apply (proj1 (proj2 (get_service_ill_typed no_script_object)) "steam" steam);
    reflexivity.
Defined.

(** X13 on two declared files and no provider. *)
Lemma prepare_game_files_all_declared_witness :
  script_files (st_self unbound_state) <> []
  /\ service (st_self unbound_state) = None
  /\ declared_live unbound_state
  /\ held_aside (st_self unbound_state) (w_heap (st_world unbound_state)) = None
  /\ exists st',
       prepare_game_files PNone unbound_state = (Ok tt, st')
       /\ plan st' = [planned interp file_a; planned interp file_c].
Proof.
  assert (declared_live unbound_state) as Hlive.
  { repeat constructor; eexists; vm_compute; reflexivity. }
  split; [discriminate|]. split; [reflexivity|]. split; [exact Hlive|].
  split; [reflexivity|].
  destruct (prepare_game_files_all_declared PNone unbound_state)
    as (st' & Hrun & Hplan & _);
    [discriminate | discriminate | exact Hlive | reflexivity |].
  exists st'. split; [exact Hrun|]. rewrite Hplan. vm_compute. reflexivity.
Defined.

(** X14 on a provider that has a file for the id held aside. *)
Lemma prepare_game_files_provider_files_witness :
  service (st_self shop_state) = Some gog
  /\ held_aside (st_self shop_state) (w_heap (st_world shop_state)) = Some "a"
  /\ provider_answers (H := shop) PNone "a" (Some [shop_file])
  /\ exists st',
       prepare_game_files (H := shop) PNone shop_state = (Ok tt, st')
       /\ plan st' = [planned (H := shop) interp file_c; shop_file].
Proof.
  assert (provider_answers (H := shop) PNone "a" (Some [shop_file])) as Hanswer.
  { intros svc s. cbn. reflexivity. }
  split; [reflexivity|]. split; [reflexivity|]. split; [exact Hanswer|].
  destruct (prepare_game_files_provider_files (H := shop) PNone shop_state gog "a"
              shop_file [])
    as (st' & Hrun & Hplan & _);
    [reflexivity | intros _; reflexivity
    | repeat constructor; eexists; vm_compute; reflexivity
    | reflexivity | discriminate | exact Hanswer |].
  exists st'. split; [exact Hrun|]. rewrite Hplan. vm_compute. reflexivity.
Defined.

(** X15 on a file to provide whose id is empty. *)
Lemma prepare_game_files_empty_id_witness :
  service (st_self empty_id_state) = Some humble
  /\ held_aside (st_self empty_id_state) (w_heap (st_world empty_id_state)) = Some ""
  /\ exists st',
       prepare_game_files PNone empty_id_state = (Ok tt, st')
       /\ plan st' = [planned interp file_c].
Proof.
  split; [reflexivity|]. split; [reflexivity|].
  destruct (prepare_game_files_empty_id PNone empty_id_state humble)
    as (st' & Hrun & Hplan & _);
    [reflexivity | intros Honline; discriminate Honline
    | repeat constructor; eexists; vm_compute; reflexivity
    | reflexivity |].
  exists st'. split; [exact Hrun|]. rewrite Hplan. vm_compute. reflexivity.
Defined.

(** X16 on a file to provide and a download, with a provider that has
    nothing. *)
Lemma prepare_game_files_twice_witness :
  script_files (st_self manual_and_download_state) <> []
  /\ provider_answers PNone "a" (Some [])
  /\ exists st1 st2,
       prepare_game_files PNone manual_and_download_state = (Ok tt, st1)
       /\ prepare_game_files PNone st1 = (Ok tt, st2)
       /\ plan st2 = plan st1.
Proof.
  assert (forall fid, provider_answers PNone fid (Some [])) as Hanswer.
  { intros fid svc s. cbn. reflexivity. }
  split; [discriminate|]. split; [apply Hanswer|].
  destruct (prepare_game_files_twice PNone manual_and_download_state (Some []))
    as (st1 & st2 & Hrun1 & Hrun2 & Hplan & _).
  - discriminate.
  - intros svc svc' [= <-] _ Honline Hsvc'. rewrite Honline in Hsvc'. discriminate Hsvc'.
  - repeat constructor; eexists; vm_compute; reflexivity.
  - intros fid _ _. apply Hanswer.
  - exists st1, st2. auto.
Defined.

(** X17 on the empty description. *)
Lemma init_missing_key_witness :
  In "version" required_keys
  /\ assoc (PStr "version") [] = None
  /\ init (PDict []) interp None PNone (world []) = (Raise KeyError, world []).
Proof.
  split; [left; reflexivity|]. split; [reflexivity|].
  apply (init_missing_key [] interp None PNone (world []) "version");
    [left; reflexivity | reflexivity].
Defined.

(** X19 on a script that declares two files. *)
Lemma init_declared_files_witness :
  exists s w',
    init (description "linux" files_script) interp None PNone (world []) = (Ok s, w')
    /\ map (fun c => w_heap w' !!! c) (script_files s)
       = [mkFile (PStr "foo") "setup" "N/A: Select the installer" "";
          mkFile (PStr "foo") "patch" "https://example.org/p.zip" "p.zip"]
    /\ NoDup (script_files s).
Proof.
  destruct (init (description "linux" files_script) interp None PNone (world []))
    as [[s|e] w'] eqn:Hinit; [|vm_compute in Hinit; discriminate Hinit].
  exists s, w'. split; [reflexivity|].
  destruct (init_declared_files _ _ _ _ _ _ _ Hinit)
    as (descs & Hdescs & _ & Hmap & _ & Hnodup).
  split; [|exact Hnodup].
  rewrite Hmap. vm_compute in Hinit. injection Hinit as <- <-.
  vm_compute in Hdescs. injection Hdescs as <-. reflexivity.
Defined.

(** X20 on the script of an expansion. *)
Lemma init_attributes_witness :
  exists s w',
    init (description "linux" requires_script) interp None PNone (world library_store)
    = (Ok s, w')
    /\ requires s = PStr "base-game"
    /\ extends s = PNone
    /\ game_id s = Some 7.
Proof.
  destruct (init (description "linux" requires_script) interp None PNone
              (world library_store)) as [[s|e] w'] eqn:Hinit;
    [|vm_compute in Hinit; discriminate Hinit].
  exists s, w'. split; [reflexivity|].
  destruct (init_attributes _ _ _ _ _ _ _ Hinit)
    as (d & sd & Hd & Hsd & Hscript & _ & _ & _ & _ & Hslug & _ & _ & _
        & Hreq & Hext & _ & _ & Hid & _).
  injection Hd as <-. vm_compute in Hscript. injection Hscript as <-.
  rewrite Hreq, Hext, Hid. unfold existing_id.
  change (Some (PStr "foo") = Some (game_slug s)) in Hslug.
  injection Hslug as <-. rewrite Hext.
  repeat split.
Defined.

(** X22 on an expansion whose base game is not in the games table. *)
Lemma get_game_config_requires_unresolved_witness :
  truthy (requires requires_object) = true
  /\ get_game_by_field (w_store (world [])) (requires requires_object) "installer_slug" = None
  /\ get_game_by_field (w_store (world [])) (requires requires_object) "slug" = None
  /\ get_game_config requires_object (world [])
     = (Raise ValueError, logged_all (base_lookups requires_object) (world [])).
Proof.
  repeat (split; [reflexivity|]).
  apply (get_game_config_requires_unresolved requires_object (world [])); reflexivity.
Defined.

(** X23 on a games table in which the required name is the installer
    slug of one game and the slug of another: one lookup, and the
    configuration of the first. *)
Lemma base_config_precedence_witness :
  truthy (requires requires_object) = true
  /\ get_game_by_field (w_store (world base_store)) (requires requires_object) "installer_slug"
     = Some base_by_installer
  /\ get_game_by_field (w_store (world base_store)) (requires requires_object) "slug"
     = Some base_by_slug
  /\ base_config requires_object (world base_store)
     = (Ok (load_game_level (w_store (world base_store)) (runner requires_object)
              (row_configpath base_by_installer)),
        logged_all [EvStoreLookup (PStr "base-game") "installer_slug";
                    EvLoadConfig (PStr "linux") (PStr "base-3")] (world base_store)).
Proof.
  repeat (split; [reflexivity|]).
  apply (proj1 (base_config_precedence requires_object (world base_store)
                  base_by_installer eq_refl)).
  reflexivity.
Defined.

(** X24 on a plain script bound to a provider. *)
Lemma get_game_config_identity_witness :
  exists c config,
    fst (get_game_config plain_object (world [])) = Ok c
    /\ c = PDict config
    /\ assoc (PStr "name") config = Some (PStr "Foo")
    /\ assoc (PStr "service") config = Some (PStr "gog").
Proof.
  destruct (fst (get_game_config plain_object (world []))) as [c|e] eqn:Hrun;
    [|vm_compute in Hrun; discriminate Hrun].
  destruct (get_game_config_identity plain_object (world []) c Hrun)
    as (config & Hc & Hkeys).
  exists c, config. split; [reflexivity|]. split; [exact Hc|]. split.
  - apply (Hkeys "name"). left. reflexivity.
  - apply (Hkeys "service"). do 8 right. left. reflexivity.
Defined.



(** X27 on a system section. *)
Lemma substitute_config_entries_witness :
  (forall k, In k (map fst system_section) -> is_str k = true)
  /\ launch_configs_ok system_section
  /\ exists config,
       _substitute_config plain_object (PDict system_section) = Ok (PDict config)
       /\ assoc (PStr "prefix") config = Some (PStr "/games/foo")
       /\ assoc (PStr "args") config = Some (PList [PStr "-w"; PStr "/games/foo"]).
Proof.
  assert (forall k, In k (map fst system_section) -> is_str k = true) as Hkeys.
  { intros k Hin. cbn in Hin.
    repeat (destruct Hin as [<-|Hin]; [reflexivity|]). destruct Hin. }
  assert (launch_configs_ok system_section) as Hlc.
  { intros v Hv. vm_compute in Hv. injection Hv as <-.
    exists [[(PStr "exe", PStr "$GAMEDIR")]]. reflexivity. }
  split; [exact Hkeys|]. split; [exact Hlc|].
  destruct (substitute_config_entries plain_object system_section Hkeys Hlc)
    as (config & Hrun & _ & Hvalues & _).
  exists config. split; [exact Hrun|]. split.
  - apply (Hvalues "prefix" (PStr "$GAMEDIR")); reflexivity || discriminate.
  - apply (Hvalues "args" (PList [PStr "-w"; PStr "$GAMEDIR"]));
      reflexivity || discriminate.
Defined.

(** X28 on a section with a number for a key. *)
Lemma substitute_config_bad_key_witness :
  let section := [(PStr "exe", PStr "run.sh"); (PInt 1, PStr "x")] in
  launch_configs_ok section
  /\ In (PInt 1) (map fst section)
  /\ _substitute_config plain_object (PDict section) = Raise ScriptingError.
Proof.
  cbv zeta.
  assert (launch_configs_ok [(PStr "exe", PStr "run.sh"); (PInt 1, PStr "x")]) as Hlc.
  { intros v Hv. vm_compute in Hv. discriminate Hv. }
  split; [exact Hlc|]. split; [right; left; reflexivity|].
  apply (substitute_config_bad_key plain_object _ (PInt 1) Hlc);
    [right; left; reflexivity | reflexivity].
Defined.

(** X29 on an empty list. *)
Lemma substitute_config_not_a_mapping_witness :
  is_dict (PList []) = false
  /\ _substitute_config plain_object (PList []) = Ok (PDict []).
Proof.
  split; [reflexivity|].
  pose proof (substitute_config_not_a_mapping plain_object (PList []) eq_refl) as Hrun.
  destruct (_substitute_config plain_object (PList [])) as [config|e].
  - destruct Hrun as [-> _]. reflexivity.
  - destruct Hrun as [Hne _]. destruct (Hne eq_refl).
Defined.

End Checks.
